(** * RBAC task manager: authorization, scoping and role lifecycle

    A shallow embedding of the backend of the task-management application:
    [lib/rbac.js] (static catalog, organization scope), [lib/database.js]
    (the SQLite-backed store and its role, permission and category
    operations), [lib/auth.js] (the static permission guard) and the task,
    category and admin routers.

    Conventions of the embedding.
    - A JavaScript string is a [string]: a sequence of 8-bit code units,
      read as the code points U+0000..U+00FF.
    - A table is the list of its rows in scan order; [SELECT ... LIMIT 1]
      ([get]) returns the first row of the result.
    - A statement fails when a row it inserts or changes breaks a
      constraint declared in the schema (PRIMARY KEY, UNIQUE with NULLs
      distinct, REFERENCES under [PRAGMA foreign_keys = ON]); the failure is
      the rejected promise of [run], and the statement changes nothing.
    - Every value drawn from [uuidv4()] is an explicit argument of the
      operation that draws it.
    - Requests are handled one at a time. *)

From Stdlib Require Import List String Ascii Bool ZArith NArith Arith Lia.
From Stdlib Require Import Sorting.Sorted Sorting.Permutation.
Import ListNotations.
Local Open Scope string_scope.
Local Open Scope list_scope.

Set Implicit Arguments.

(* ================================================================== *)
(** ** JavaScript values used by the backend *)
(* ================================================================== *)

Module Js.

(** An [Error] object: its [message] and the optional [code] property. *)
Record Error := mkError { message : string; code : option string }.

Definition TypeError (msg : string) : Error := mkError msg None.

(** The outcome of evaluating an expression that may throw. *)
Definition Result (A : Type) : Type := (Error + A)%type.

Definition ok {A} (a : A) : Result A := inr a.
Definition throw {A} (e : Error) : Result A := inl e.

(** Truthiness of a string: every string but the empty one. *)
Definition truthy (s : string) : bool :=
  match s with EmptyString => false | String _ _ => true end.

(** Truthiness of [null | string]. *)
Definition truthy_opt (o : option string) : bool :=
  match o with None => false | Some s => truthy s end.

Definition code_of (c : ascii) : N := N_of_ascii c.

(** White space removed by [String.prototype.trim], within U+0000..U+00FF:
    TAB, LF, VT, FF, CR, SPACE and NO-BREAK SPACE. *)
Definition is_white_space (c : ascii) : bool :=
  let n := code_of c in
  ((9 <=? n) && (n <=? 13) || (n =? 32) || (n =? 160))%N.

Fixpoint trimStart (s : string) : string :=
  match s with
  | EmptyString => EmptyString
  | String c rest => if is_white_space c then trimStart rest else s
  end.

Fixpoint trimEnd (s : string) : string :=
  match s with
  | EmptyString => EmptyString
  | String c rest =>
      let rest' := trimEnd rest in
      if is_white_space c && negb (truthy rest') then EmptyString
      else String c rest'
  end.

Definition trim (s : string) : string := trimEnd (trimStart s).

(** [String.prototype.toLowerCase] on U+0000..U+00FF: A-Z and the
    Latin-1 capitals U+00C0..U+00DE (U+00D7 excepted) move up by 32. *)
Definition lower_char (c : ascii) : ascii :=
  let n := code_of c in
  if ((65 <=? n) && (n <=? 90))%N then ascii_of_N (n + 32)
  else if ((192 <=? n) && (n <=? 222) && negb (n =? 215))%N
       then ascii_of_N (n + 32)
       else c.

Fixpoint map_chars (f : ascii -> ascii) (s : string) : string :=
  match s with
  | EmptyString => EmptyString
  | String c rest => String (f c) (map_chars f rest)
  end.

Definition toLowerCase (s : string) : string := map_chars lower_char s.

(** [Array.prototype.includes] on strings. *)
Definition includes (l : list string) (x : string) : bool :=
  existsb (String.eqb x) l.

(** A [Set] of strings, in insertion order. *)
Definition StrSet := list string.

Definition set_has (s : StrSet) (x : string) : bool := includes s x.

Definition set_add (s : StrSet) (x : string) : StrSet :=
  if set_has s x then s else s ++ [x].

(** [new Set(array)]: the elements in order of first occurrence. *)
Definition set_of_list (l : list string) : StrSet :=
  fold_left set_add l [].

(** A [Map] with keys of type [K], in insertion order. *)
Section JsMap.
Variables (K V : Type) (keq : K -> K -> bool).

Definition Map := list (K * V).

Fixpoint map_get (m : Map) (k : K) : option V :=
  match m with
  | [] => None
  | (k', v) :: rest => if keq k k' then Some v else map_get rest k
  end.

Definition map_has (m : Map) (k : K) : bool :=
  match map_get m k with Some _ => true | None => false end.

Fixpoint map_set (m : Map) (k : K) (v : V) : Map :=
  match m with
  | [] => [(k, v)]
  | (k', v') :: rest =>
      if keq k k' then (k', v) :: rest else (k', v') :: map_set rest k v
  end.
End JsMap.

(** Property lookup [obj[key]] on an object literal: an own property, a
    property inherited from [Object.prototype], or [undefined]. *)
Inductive Lookup (A : Type) : Type :=
| Own (a : A)
| Inherited
| Undefined.
Arguments Inherited {A}.
Arguments Undefined {A}.

Definition Object_prototype_keys : list string :=
  [ "constructor"; "__defineGetter__"; "__defineSetter__"; "hasOwnProperty";
    "__lookupGetter__"; "__lookupSetter__"; "isPrototypeOf";
    "propertyIsEnumerable"; "toString"; "valueOf"; "__proto__";
    "toLocaleString" ].

Fixpoint own_property {A} (obj : list (string * A)) (key : string) : option A :=
  match obj with
  | [] => None
  | (k, v) :: rest => if String.eqb key k then Some v else own_property rest key
  end.

Definition get_property {A} (obj : list (string * A)) (key : string) : Lookup A :=
  match own_property obj key with
  | Some v => Own v
  | None => if includes Object_prototype_keys key then Inherited else Undefined
  end.

End Js.

(* ================================================================== *)
(** ** Rows of the store (the columns the core reads and writes) *)
(* ================================================================== *)

Record Organization := mkOrganization {
  org_id : string;
  org_name : string;
  org_parent_id : option string
}.

Record User := mkUser {
  user_id : string;
  user_organization_id : string;
  user_email : string;
  user_name : string;
  user_role : string;
  user_is_active : Z
}.

(* ================================================================== *)
(** ** lib/rbac.js *)
(* ================================================================== *)

Module Rbac.
Import Js.

Module ROLES.
Definition OWNER := "owner".
Definition ADMIN := "admin".
Definition VIEWER := "viewer".
End ROLES.

Definition ROLE_HIERARCHY : list (string * list string) :=
  [ (ROLES.OWNER, [ROLES.OWNER; ROLES.ADMIN; ROLES.VIEWER]);
    (ROLES.ADMIN, [ROLES.ADMIN; ROLES.VIEWER]);
    (ROLES.VIEWER, [ROLES.VIEWER]) ].

Definition PERMISSIONS : list (string * StrSet) :=
  [ ("tasks:view", [ROLES.OWNER; ROLES.ADMIN; ROLES.VIEWER]);
    ("tasks:create", [ROLES.OWNER; ROLES.ADMIN]);
    ("tasks:update", [ROLES.OWNER; ROLES.ADMIN]);
    ("tasks:delete", [ROLES.OWNER]);
    ("audit:view", [ROLES.OWNER; ROLES.ADMIN]);
    ("users:view-all", [ROLES.OWNER; ROLES.ADMIN]);
    ("categories:manage", [ROLES.OWNER; ROLES.ADMIN]);
    ("categories:create", [ROLES.OWNER; ROLES.ADMIN]);
    ("categories:update", [ROLES.OWNER; ROLES.ADMIN]);
    ("categories:delete", [ROLES.OWNER; ROLES.ADMIN]);
    ("categories:access:configure", [ROLES.OWNER]);
    ("categories:view", [ROLES.OWNER; ROLES.ADMIN; ROLES.VIEWER]);
    ("roles:view", [ROLES.OWNER; ROLES.ADMIN]);
    ("roles:create", [ROLES.OWNER; ROLES.ADMIN]);
    ("roles:update", [ROLES.OWNER; ROLES.ADMIN]);
    ("roles:delete", [ROLES.OWNER]) ].

(** [normalizeRole]; the callers pass the [role] column, a string. *)
Definition normalizeRole (role : string) : string := toLowerCase (trim role).

(** [roleAllows]. [PERMISSIONS[permission]] and [ROLE_HIERARCHY[normalized]]
    are plain property lookups, so a key of [Object.prototype] yields a
    truthy value that is neither a [Set] nor an array. *)
Definition roleAllows (role permission : string) : Result bool :=
  let normalized := normalizeRole role in
  match get_property PERMISSIONS permission with
  | Undefined => ok false
  | Own allowedRoles =>
      match get_property ROLE_HIERARCHY normalized with
      | Undefined => ok false
      | Inherited => throw (TypeError "inherited.some is not a function")
      | Own inherited => ok (existsb (fun candidate => set_has allowedRoles candidate) inherited)
      end
  | Inherited =>
      match get_property ROLE_HIERARCHY normalized with
      | Undefined => ok false
      | Inherited => throw (TypeError "inherited.some is not a function")
      | Own [] => ok false
      | Own (_ :: _) => throw (TypeError "allowedRoles.has is not a function")
      end
  end.

Definition opt_eqb (a b : option string) : bool :=
  match a, b with
  | None, None => true
  | Some x, Some y => String.eqb x y
  | _, _ => false
  end.

(** [org.parent_id || null]. *)
Definition parent_key (org : Organization) : option string :=
  match org_parent_id org with
  | Some p => if truthy p then Some p else None
  | None => None
  end.

Record OrgIndex := mkOrgIndex {
  byId : Map string Organization;
  children : Map (option string) (list Organization)
}.

Definition buildOrgIndex_step (idx : OrgIndex) (org : Organization) : OrgIndex :=
  let byId' := map_set String.eqb (byId idx) (org_id org) org in
  let key := parent_key org in
  let children1 :=
    if map_has opt_eqb (children idx) key then children idx
    else map_set opt_eqb (children idx) key [] in
  let siblings :=
    match map_get opt_eqb children1 key with Some l => l | None => [] end in
  mkOrgIndex byId' (map_set opt_eqb children1 key (siblings ++ [org])).

Definition buildOrgIndex (organizations : list Organization) : OrgIndex :=
  fold_left buildOrgIndex_step organizations (mkOrgIndex [] []).

(** The [while (queue.length)] loop of [collectDescendants]; [None] when
    the fuel runs out before the queue is empty. *)
Fixpoint collectDescendants_loop (fuel : nat)
    (childrenMap : Map (option string) (list Organization))
    (queue : list string) (acc : StrSet) : option StrSet :=
  match fuel with
  | O => None
  | S fuel' =>
      match queue with
      | [] => Some acc
      | current :: rest =>
          if negb (truthy current) || set_has acc current
          then collectDescendants_loop fuel' childrenMap rest acc
          else
            let childList :=
              match map_get opt_eqb childrenMap (Some current) with
              | Some l => l
              | None => []
              end in
            collectDescendants_loop fuel' childrenMap
              (rest ++ map org_id childList) (set_add acc current)
      end
  end.

Definition collectDescendants (fuel : nat) (id : string)
    (childrenMap : Map (option string) (list Organization)) (acc : StrSet)
  : option StrSet :=
  collectDescendants_loop fuel childrenMap [id] acc.

(** Iterations granted to the traversal for an organization list. *)
Definition traversal_fuel (organizations : list Organization) : nat :=
  S (S (List.length organizations)) * S (S (List.length organizations)).

(** [resolveOrgScopeForUser]; [None] only if the traversal ran out of
    fuel. *)
Definition resolveOrgScopeForUser (user : option User)
    (organizations : list Organization) : option StrSet :=
  let scope : StrSet := [] in
  match user with
  | None => Some scope
  | Some user =>
      let normalizedRole := normalizeRole (user_role user) in
      let idx := buildOrgIndex organizations in
      let userOrgId := user_organization_id user in
      if negb (truthy userOrgId) then Some scope
      else
        let scope := set_add scope userOrgId in
        let orgRecord := map_get String.eqb (byId idx) userOrgId in
        let isRoot :=
          match orgRecord with
          | None => true
          | Some o => negb (truthy_opt (org_parent_id o))
          end in
        if String.eqb normalizedRole ROLES.OWNER then
          Some (fold_left (fun s o => set_add s (org_id o)) organizations scope)
        else if String.eqb normalizedRole ROLES.ADMIN then
          if isRoot
          then collectDescendants (traversal_fuel organizations) userOrgId (children idx) scope
          else Some scope
        else Some scope
  end.

End Rbac.


(* ================================================================== *)
(** ** SQL expressions used by the queries of lib/database.js *)
(* ================================================================== *)

Module Sql.
Import Js.

(** [LOWER(x)]: only A-Z are folded. *)
Definition lower_ascii (c : ascii) : ascii :=
  let n := code_of c in
  if ((65 <=? n) && (n <=? 90))%N then ascii_of_N (n + 32) else c.

Definition LOWER (s : string) : string := map_chars lower_ascii s.

(** [text LIKE pattern]: [%] matches any run of characters, [_] exactly
    one, every other character itself up to the case of A-Z. *)
Fixpoint like_from (pattern : list ascii) (text : list ascii) : bool :=
  match pattern with
  | [] => match text with [] => true | _ :: _ => false end
  | p :: pattern' =>
      if Ascii.eqb p "%"%char then
        (fix any_suffix (t : list ascii) : bool :=
           like_from pattern' t
           || match t with [] => false | _ :: t' => any_suffix t' end) text
      else
        match text with
        | [] => false
        | c :: text' =>
            (Ascii.eqb p "_"%char || Ascii.eqb (lower_ascii p) (lower_ascii c))
            && like_from pattern' text'
        end
  end.

Definition LIKE (text pattern : string) : bool :=
  like_from (list_ascii_of_string pattern) (list_ascii_of_string text).

(** [x IN (?, ?, ...)]. *)
Definition IN (x : string) (l : list string) : bool := includes l x.

(** [ORDER BY]: a stable insertion sort by a "not after" test. *)
Section OrderBy.
Variables (A : Type) (leb : A -> A -> bool).

Fixpoint insert_row (x : A) (l : list A) : list A :=
  match l with
  | [] => [x]
  | y :: l' => if leb x y then x :: y :: l' else y :: insert_row x l'
  end.

Definition order_by (l : list A) : list A := fold_right insert_row [] l.
End OrderBy.

(** [get]: the first row, or [null]. *)
Definition first_row {A} (rows : list A) : option A :=
  match rows with [] => None | r :: _ => Some r end.

(** The error that node-sqlite3 reports for a violated constraint. *)
Definition constraint_failed (what : string) : Error :=
  mkError ("SQLITE_CONSTRAINT: " ++ what) (Some "SQLITE_CONSTRAINT").

End Sql.

Record Task := mkTask {
  task_id : string;
  task_organization_id : string;
  task_title : string;
  task_description : option string;
  task_status : string;
  task_category : string;
  task_priority : string;
  task_due_date : option Z;
  task_position : Z;
  task_created_by : option string;
  task_assigned_to : option string;
  task_created_at : Z;
  task_updated_at : Z
}.

Record Category := mkCategory {
  cat_id : string;
  cat_organization_id : string;
  cat_name : string;
  cat_is_system : Z;
  cat_created_at : Z
}.

Record CategoryRoleAccess := mkCategoryRoleAccess {
  cra_id : string;
  cra_category_id : string;
  cra_role : string
}.

Record RolePermission := mkRolePermission {
  rp_id : string;
  rp_organization_id : option string;
  rp_role : string;
  rp_permission : string;
  rp_enabled : Z
}.

Record Role := mkRole {
  role_id : string;
  role_name : string;
  role_description : option string;
  role_is_system : Z
}.

(** The tables of the database file. *)
Record Store := mkStore {
  organizations : list Organization;
  users : list User;
  tasks : list Task;
  categories : list Category;
  category_role_access : list CategoryRoleAccess;
  role_permissions : list RolePermission;
  roles : list Role
}.

(** The row shape produced by [taskSelectAllColumns]. *)
Record TaskRow := mkTaskRow {
  id : string;
  organizationId : string;
  title : string;
  description : option string;
  status : string;
  category : string;
  priority : string;
  dueDate : option Z;
  position : Z;
  createdBy : option string;
  createdByName : option string;
  assignedTo : option string;
  assignedToName : option string;
  createdAt : Z;
  updatedAt : Z
}.

(** A request value that is [undefined], [null] or a string. *)
Inductive Nullable := undefined | null | str (s : string).

(* ================================================================== *)
(** ** lib/database.js *)
(* ================================================================== *)

Module Database.
Import Js Sql Rbac.

(** *** Promises over the store *)

(** An operation on the store: it resolves with a value or rejects with
    an error, and leaves a store behind. *)
Definition Db (A : Type) : Type := Store -> Result A * Store.

Definition resolve {A} (a : A) : Db A := fun st => (ok a, st).

Definition reject {A} (e : Error) : Db A := fun st => (throw e, st).

Definition bind {A B} (m : Db A) (k : A -> Db B) : Db B :=
  fun st =>
    match m st with
    | (inl e, st') => (inl e, st')
    | (inr a, st') => k a st'
    end.

Notation "x <- m ;; k" := (bind m (fun x => k))
  (at level 61, m at next level, right associativity).
Notation "m ;;; k" := (bind m (fun _ => k))
  (at level 61, right associativity).

(** [all] and [get]: a query reads the store and leaves it as it is. *)
Definition select {A} (q : Store -> A) : Db A := fun st => (ok (q st), st).

(** [run]: a statement either yields the next store or fails, in which
    case the store keeps its value. *)
Definition run (stmt : Store -> Result Store) : Db unit :=
  fun st =>
    match stmt st with
    | inl e => (inl e, st)
    | inr st' => (ok tt, st')
    end.

(** [withTransaction]: [BEGIN IMMEDIATE], the body, then [COMMIT]; a
    rejection inside rolls the store back to where it began. *)
Definition withTransaction {A} (fn : Db A) : Db A :=
  fun st =>
    match fn st with
    | (inl e, _) => (inl e, st)
    | (inr a, st') => (inr a, st')
    end.

Definition when (b : bool) (m : Db unit) : Db unit :=
  if b then m else resolve tt.

(** *** Table updates *)

Definition set_users (st : Store) (t : list User) : Store :=
  mkStore (organizations st) t (tasks st) (categories st)
    (category_role_access st) (role_permissions st) (roles st).

Definition set_category_role_access (st : Store) (t : list CategoryRoleAccess) : Store :=
  mkStore (organizations st) (users st) (tasks st) (categories st)
    t (role_permissions st) (roles st).

Definition set_role_permissions (st : Store) (t : list RolePermission) : Store :=
  mkStore (organizations st) (users st) (tasks st) (categories st)
    (category_role_access st) t (roles st).

Definition set_roles (st : Store) (t : list Role) : Store :=
  mkStore (organizations st) (users st) (tasks st) (categories st)
    (category_role_access st) (role_permissions st) t.

(** *** Roles catalog *)

Definition is_set (flag : Z) : bool := negb (flag =? 0)%Z.

(** [INSERT OR IGNORE INTO roles]: skipped when the id or the name is
    taken. *)
Definition insert_or_ignore_role (r : Role) : Store -> Result Store :=
  fun st =>
    if existsb (fun x => String.eqb (role_id x) (role_id r)
                         || String.eqb (role_name x) (role_name r)) (roles st)
    then ok st
    else ok (set_roles st (roles st ++ [r])).

(** [INSERT INTO roles]. *)
Definition insert_role (r : Role) : Store -> Result Store :=
  fun st =>
    if existsb (fun x => String.eqb (role_id x) (role_id r)) (roles st)
    then throw (constraint_failed "UNIQUE constraint failed: roles.id")
    else if existsb (fun x => String.eqb (role_name x) (role_name r)) (roles st)
    then throw (constraint_failed "UNIQUE constraint failed: roles.name")
    else ok (set_roles st (roles st ++ [r])).

(** [ensureSystemRoles], with the three ids it draws. *)
Definition ensureSystemRoles (id1 id2 id3 : string) : Db unit :=
  run (insert_or_ignore_role
         (mkRole id1 ROLES.OWNER (Some "Full control of the organization") 1)) ;;;
  run (insert_or_ignore_role
         (mkRole id2 ROLES.ADMIN (Some "Manage users and settings") 1)) ;;;
  run (insert_or_ignore_role
         (mkRole id3 ROLES.VIEWER (Some "Read-only access") 1)).

(** [getRoleByName]: [WHERE LOWER(name) = LOWER(?)]. *)
Definition getRoleByName (st : Store) (name : string) : option Role :=
  first_row (filter (fun r => String.eqb (LOWER (role_name r)) (LOWER name)) (roles st)).

Definition getRoleById (st : Store) (id : string) : option Role :=
  first_row (filter (fun r => String.eqb (role_id r) id) (roles st)).

(** [createRole], with the id it draws. *)
Definition createRole (id : string) (name : Nullable) (description : Nullable)
  : Db (option Role) :=
  let roleName :=
    match name with
    | str s => toLowerCase (trim s)
    | _ => ""
    end in
  if negb (truthy roleName) then reject (mkError "Role name is required" None)
  else if includes [ROLES.OWNER; ROLES.ADMIN; ROLES.VIEWER] roleName
  then reject (mkError "Cannot create system role" None)
  else
    let desc := match description with
                | str s => if truthy s then Some s else None
                | _ => None
                end in
    run (insert_role (mkRole id roleName desc 0)) ;;;
    select (fun st => getRoleById st id).

(** [UPDATE roles SET name = ? WHERE id = ?]. *)
Definition update_role_name (name id : string) : Store -> Result Store :=
  fun st =>
    let touched := existsb (fun r => String.eqb (role_id r) id) (roles st) in
    let taken := existsb (fun r => negb (String.eqb (role_id r) id)
                                   && String.eqb (role_name r) name) (roles st) in
    if touched && taken
    then throw (constraint_failed "UNIQUE constraint failed: roles.name")
    else ok (set_roles st
               (map (fun r => if String.eqb (role_id r) id
                              then mkRole (role_id r) name (role_description r) (role_is_system r)
                              else r) (roles st))).

(** [UPDATE roles SET description = ? WHERE id = ?]. *)
Definition update_role_description (desc : option string) (id : string)
  : Store -> Result Store :=
  fun st =>
    ok (set_roles st
          (map (fun r => if String.eqb (role_id r) id
                         then mkRole (role_id r) (role_name r) desc (role_is_system r)
                         else r) (roles st))).

(** [UPDATE users SET role = ? WHERE role = ?]. *)
Definition rename_user_role (newName oldName : string) (u : User) : User :=
  if String.eqb (user_role u) oldName
  then mkUser (user_id u) (user_organization_id u) (user_email u) (user_name u)
              newName (user_is_active u)
  else u.

Definition update_users_role (newName oldName : string) : Store -> Result Store :=
  fun st => ok (set_users st (map (rename_user_role newName oldName) (users st))).

(** [UPDATE role_permissions SET role = ? WHERE role = ?]; it fails when
    a renamed row of some organization meets a row already stored for the
    new name under UNIQUE(organization_id, role, permission), where NULL
    organizations never collide. *)
Definition rename_permission_role (newName oldName : string) (r : RolePermission)
  : RolePermission :=
  if String.eqb (rp_role r) oldName
  then mkRolePermission (rp_id r) (rp_organization_id r) newName
                        (rp_permission r) (rp_enabled r)
  else r.

Definition same_scoped_key (org : string) (role permission : string)
    (r : RolePermission) : bool :=
  opt_eqb (rp_organization_id r) (Some org)
  && String.eqb (rp_role r) role && String.eqb (rp_permission r) permission.

Definition rename_collides (newName oldName : string) (t : list RolePermission) : bool :=
  existsb (fun u =>
    String.eqb (rp_role u) oldName
    && match rp_organization_id u with
       | None => false
       | Some org =>
           existsb (fun r => negb (String.eqb (rp_role r) oldName)
                             && same_scoped_key org newName (rp_permission u) r) t
       end) t.

Definition update_role_permissions_role (newName oldName : string)
  : Store -> Result Store :=
  fun st =>
    if rename_collides newName oldName (role_permissions st)
    then throw (constraint_failed
      "UNIQUE constraint failed: role_permissions.organization_id, role_permissions.role, role_permissions.permission")
    else ok (set_role_permissions st
               (map (rename_permission_role newName oldName) (role_permissions st))).

Definition role_not_found : Error := mkError "Role not found" None.
Definition cannot_modify_system_role : Error := mkError "Cannot modify system role" None.
Definition cannot_delete_system_role : Error := mkError "Cannot delete system role" None.
Definition role_in_use : Error := mkError "Role is in use by users" (Some "ROLE_IN_USE").

(** The [name] that [updateRole] writes: [name != null ?
    String(name).trim().toLowerCase() : null]. *)
Definition normalized_update_name (name : Nullable) : option string :=
  match name with
  | str s => Some (toLowerCase (trim s))
  | _ => None
  end.

(** [updateRole]. *)
Definition updateRole (oldName : string) (name description : Nullable)
  : Db (option Role) :=
  fun st0 =>
    match getRoleByName st0 oldName with
    | None => reject role_not_found st0
    | Some existing =>
        if is_set (role_is_system existing) then reject cannot_modify_system_role st0
        else
          let updates_name := normalized_update_name name in
          withTransaction
            (when (truthy_opt updates_name
                   && negb (opt_eqb updates_name (Some (role_name existing))))
               (let newName := match updates_name with Some n => n | None => "" end in
                run (update_role_name newName (role_id existing)) ;;;
                run (update_users_role newName (role_name existing)) ;;;
                run (update_role_permissions_role newName (role_name existing))) ;;;
             when (match description with undefined => false | _ => true end)
               (run (update_role_description
                       (match description with
                        | str s => if truthy s then Some s else None
                        | _ => None
                        end) (role_id existing))) ;;;
             select (fun st =>
               getRoleByName st
                 (if truthy_opt updates_name
                  then match updates_name with Some n => n | None => "" end
                  else role_name existing))) st0
    end.

(** [DELETE FROM role_permissions WHERE role = ?]. *)
Definition delete_role_permissions_of (name : string) : Store -> Result Store :=
  fun st => ok (set_role_permissions st
                  (filter (fun r => negb (String.eqb (rp_role r) name)) (role_permissions st))).

(** [DELETE FROM roles WHERE id = ?]. *)
Definition delete_role_row (id : string) : Store -> Result Store :=
  fun st => ok (set_roles st (filter (fun r => negb (String.eqb (role_id r) id)) (roles st))).

(** [SELECT COUNT( * ) FROM users WHERE role = ?]. *)
Definition count_users_with_role (st : Store) (name : string) : Z :=
  Z.of_nat (List.length (filter (fun u => String.eqb (user_role u) name) (users st))).

(** [deleteRole]. *)
Definition deleteRole (name : string) : Db bool :=
  fun st0 =>
    match getRoleByName st0 name with
    | None => reject role_not_found st0
    | Some existing =>
        if is_set (role_is_system existing) then reject cannot_delete_system_role st0
        else if (count_users_with_role st0 (role_name existing) >? 0)%Z
        then reject role_in_use st0
        else
          (withTransaction
             (run (delete_role_permissions_of (role_name existing)) ;;;
              run (delete_role_row (role_id existing))) ;;;
           resolve true) st0
    end.

(** *** Dynamic permission store *)

(** [hasRolePermission]: the rows [WHERE (organization_id IS NULL OR
    organization_id = ?) AND role = ? AND permission = ?], ordered by
    [organization_id IS NULL DESC], first row only. A [null] parameter
    makes [organization_id = ?] hold for no row. *)
Definition org_is_null (r : RolePermission) : bool :=
  match rp_organization_id r with None => true | Some _ => false end.

Definition org_equals (organizationId : option string) (r : RolePermission) : bool :=
  match organizationId, rp_organization_id r with
  | Some o, Some o' => String.eqb o' o
  | _, _ => false
  end.

Definition permission_rows (st : Store) (organizationId : option string)
    (role permission : string) : list RolePermission :=
  order_by (fun a b => org_is_null a || negb (org_is_null b))
    (filter (fun r => (org_is_null r || org_equals organizationId r)
                      && String.eqb (rp_role r) role
                      && String.eqb (rp_permission r) permission)
            (role_permissions st)).

Definition hasRolePermission (st : Store) (organizationId : option string)
    (role permission : string) : bool :=
  match first_row (permission_rows st organizationId role permission) with
  | Some row => (rp_enabled row =? 1)%Z
  | None => false
  end.

(** The row that [setRolePermission] looks for: [organization_id IS NULL]
    when no organization is given, [organization_id = ?] otherwise. *)
Definition matches_tuple (organizationId : option string) (role permission : string)
    (r : RolePermission) : bool :=
  (match organizationId with
   | None => org_is_null r
   | Some _ => org_equals organizationId r
   end)
  && String.eqb (rp_role r) role && String.eqb (rp_permission r) permission.

(** [UPDATE role_permissions SET enabled = ? WHERE id = ?]. *)
Definition update_permission_enabled (enabled : Z) (id : string) : Store -> Result Store :=
  fun st =>
    ok (set_role_permissions st
          (map (fun r => if String.eqb (rp_id r) id
                         then mkRolePermission (rp_id r) (rp_organization_id r)
                                (rp_role r) (rp_permission r) enabled
                         else r) (role_permissions st))).

(** [INSERT INTO role_permissions]: PRIMARY KEY(id), UNIQUE(organization_id,
    role, permission) with NULLs distinct, organization_id REFERENCES
    organizations(id). *)
Definition insert_role_permission (r : RolePermission) : Store -> Result Store :=
  fun st =>
    if existsb (fun x => String.eqb (rp_id x) (rp_id r)) (role_permissions st)
    then throw (constraint_failed "UNIQUE constraint failed: role_permissions.id")
    else
      match rp_organization_id r with
      | None => ok (set_role_permissions st (role_permissions st ++ [r]))
      | Some org =>
          if existsb (same_scoped_key org (rp_role r) (rp_permission r)) (role_permissions st)
          then throw (constraint_failed
            "UNIQUE constraint failed: role_permissions.organization_id, role_permissions.role, role_permissions.permission")
          else if negb (existsb (fun o => String.eqb (org_id o) org) (organizations st))
          then throw (constraint_failed "FOREIGN KEY constraint failed")
          else ok (set_role_permissions st (role_permissions st ++ [r]))
      end.

(** [setRolePermission], with the id it draws; resolves with the id of
    the row that carries the setting. *)
Definition setRolePermission (id : string) (organizationId : option string)
    (role permission : string) (enabled : bool) : Db string :=
  withTransaction
    (existing <- select (fun st =>
         first_row (filter (matches_tuple organizationId role permission)
                           (role_permissions st))) ;;
     match existing with
     | Some row =>
         run (update_permission_enabled (if enabled then 1 else 0) (rp_id row)) ;;;
         resolve (rp_id row)
     | None =>
         run (insert_role_permission
                (mkRolePermission id organizationId role permission
                                  (if enabled then 1 else 0))) ;;;
         resolve id
     end).

(** *** Category access *)

Definition string_leb (a b : string) : bool := String.leb a b.

(** [listCategoryRoleAccess]: [ORDER BY role ASC]. *)
Definition listCategoryRoleAccess (st : Store) (categoryId : string) : list string :=
  map cra_role
    (order_by (fun a b => string_leb (cra_role a) (cra_role b))
       (filter (fun r => String.eqb (cra_category_id r) categoryId)
               (category_role_access st))).

(** [DELETE FROM category_role_access WHERE category_id = ?]. *)
Definition delete_category_access (categoryId : string) : Store -> Result Store :=
  fun st =>
    ok (set_category_role_access st
          (filter (fun r => negb (String.eqb (cra_category_id r) categoryId))
                  (category_role_access st))).

(** [INSERT INTO category_role_access]: PRIMARY KEY(id), category_id
    REFERENCES categories(id), UNIQUE(category_id, role). *)
Definition insert_category_access (r : CategoryRoleAccess) : Store -> Result Store :=
  fun st =>
    if existsb (fun x => String.eqb (cra_id x) (cra_id r)) (category_role_access st)
    then throw (constraint_failed "UNIQUE constraint failed: category_role_access.id")
    else if existsb (fun x => String.eqb (cra_category_id x) (cra_category_id r)
                              && String.eqb (cra_role x) (cra_role r))
                    (category_role_access st)
    then throw (constraint_failed
      "UNIQUE constraint failed: category_role_access.category_id, category_role_access.role")
    else if negb (existsb (fun c => String.eqb (cat_id c) (cra_category_id r)) (categories st))
    then throw (constraint_failed "FOREIGN KEY constraint failed")
    else ok (set_category_role_access st (category_role_access st ++ [r])).

(** [Array.from(new Set(roles.map(r => String(r).trim().toLowerCase())
    .filter(Boolean)))]. *)
Definition uniqueRoles (roles : list string) : list string :=
  set_of_list (filter truthy (map (fun r => toLowerCase (trim r)) roles)).

(** The [for (const role of uniqueRoles)] loop; [uuid i] is the id drawn
    in iteration [i]. *)
Fixpoint insert_access_rows (uuid : nat -> string) (i : nat)
    (categoryId : string) (rs : list string) : Db unit :=
  match rs with
  | [] => resolve tt
  | role :: rest =>
      run (insert_category_access (mkCategoryRoleAccess (uuid i) categoryId role)) ;;;
      insert_access_rows uuid (S i) categoryId rest
  end.

(** [setCategoryRoleAccess]. *)
Definition setCategoryRoleAccess (uuid : nat -> string) (categoryId : string)
    (roles : list string) : Db (list string) :=
  let uniqueRoles := uniqueRoles roles in
  withTransaction
    (run (delete_category_access categoryId) ;;;
     insert_access_rows uuid 0 categoryId uniqueRoles ;;;
     select (fun st => listCategoryRoleAccess st categoryId)).

(** [listAccessibleCategoriesForRole]: each category joined with the
    number of its access rows ([NULL] when it has none) and with its
    access rows for the role (one all-[NULL] row when it has none). *)
Definition access_count (st : Store) (c : Category) : option nat :=
  match filter (fun r => String.eqb (cra_category_id r) (cat_id c))
               (category_role_access st) with
  | [] => None
  | rows => Some (List.length rows)
  end.

Definition left_join_access (st : Store) (role : string) (c : Category)
  : list (Category * option nat * option CategoryRoleAccess) :=
  match filter (fun r => String.eqb (cra_category_id r) (cat_id c)
                         && String.eqb (cra_role r) role)
               (category_role_access st) with
  | [] => [(c, access_count st c, None)]
  | rows => map (fun r => (c, access_count st c, Some r)) rows
  end.

Definition accessible_row (orgIds : list string)
    (row : Category * option nat * option CategoryRoleAccess) : bool :=
  let '(c, cnt, cra) := row in
  IN (cat_organization_id c) orgIds
  && ((match cnt with None => true | Some _ => false end) && (cat_is_system c =? 1)%Z
      || match cra with Some _ => true | None => false end).

Definition listAccessibleCategoriesForRole (orgIds : list string) (role : string)
  : Db (list Category) :=
  match orgIds with
  | [] => resolve []
  | _ :: _ =>
      select (fun st =>
        order_by (fun a b => string_leb (cat_name a) (cat_name b))
          (map (fun row => fst (fst row))
             (filter (accessible_row orgIds)
                (flat_map (left_join_access st role) (categories st)))))
  end.

(** *** Tasks *)

Record TaskFilters := mkTaskFilters {
  f_status : option string;
  f_category : option string;
  f_search : option string;
  f_assignedTo : option string;
  f_orderBy : option string
}.

Definition user_name_of (st : Store) (uid : option string) : option string :=
  match uid with
  | None => None
  | Some i =>
      option_map user_name
        (first_row (filter (fun u => String.eqb (user_id u) i) (users st)))
  end.

(** [taskSelectAllColumns]: a task with the names of its creator and
    assignee. *)
Definition task_row (st : Store) (t : Task) : TaskRow :=
  mkTaskRow (task_id t) (task_organization_id t) (task_title t)
    (task_description t) (task_status t) (task_category t) (task_priority t)
    (task_due_date t) (task_position t)
    (task_created_by t) (user_name_of st (task_created_by t))
    (task_assigned_to t) (user_name_of st (task_assigned_to t))
    (task_created_at t) (task_updated_at t).

(** A clause that is only added when its filter is truthy. *)
Definition clause (f : option string) (test : string -> bool) : bool :=
  match f with
  | Some v => if truthy v then test v else true
  | None => true
  end.

Definition like_opt (text : option string) (pattern : string) : bool :=
  match text with Some s => LIKE s pattern | None => false end.

Definition task_matches (orgIds : list string) (filters : TaskFilters) (t : Task) : bool :=
  IN (task_organization_id t) orgIds
  && clause (f_status filters) (fun v => String.eqb (task_status t) v)
  && clause (f_category filters) (fun v => String.eqb (task_category t) v)
  && clause (f_search filters) (fun v =>
       LIKE (task_title t) ("%" ++ v ++ "%")
       || like_opt (task_description t) ("%" ++ v ++ "%"))
  && clause (f_assignedTo filters) (fun v => opt_eqb (task_assigned_to t) (Some v)).

(** [CASE WHEN due_date IS NULL THEN 1 ELSE 0 END ASC, due_date ASC]. *)
Definition due_date_leb (a b : Task) : bool :=
  match task_due_date a, task_due_date b with
  | None, None => true
  | None, Some _ => false
  | Some _, None => true
  | Some x, Some y => (x <=? y)%Z
  end.

(** [position ASC, created_at ASC]. *)
Definition position_leb (a b : Task) : bool :=
  (task_position a <? task_position b)%Z
  || ((task_position a =? task_position b)%Z
      && (task_created_at a <=? task_created_at b)%Z).

(** [listTasksForOrganizations]. *)
Definition listTasksForOrganizations (orgIds : list string) (filters : TaskFilters)
  : Db (list TaskRow) :=
  match orgIds with
  | [] => resolve []
  | _ :: _ =>
      select (fun st =>
        map (task_row st)
          (order_by
             (if opt_eqb (f_orderBy filters) (Some "dueDate")
              then due_date_leb else position_leb)
             (filter (task_matches orgIds filters) (tasks st))))
  end.

End Database.

(* ================================================================== *)
(** ** Requests and replies of the HTTP layer *)
(* ================================================================== *)

Module Http.
Import Js Database.

(** [req.auth], as the authentication middleware leaves it. *)
Record Auth := mkAuth {
  auth_user : User;
  auth_orgScope : list string
}.

(** A query-string field is kept only when it is a string. *)
Record Query := mkQuery {
  q_status : option string;
  q_category : option string;
  q_search : option string;
  q_assignedTo : option string;
  q_orderBy : option string
}.

Record Request := mkRequest {
  auth : option Auth;
  query : Query
}.

(** What a middleware or handler does with a request. *)
Inductive Reply (A : Type) : Type :=
| next                          (* next() *)
| next_error (e : Error)        (* next(err), or a thrown error *)
| refuse (status : Z) (error : string) (permission : option string)
                                (* res.status(status).json({ error, permission }) *)
| send (body : A).              (* res.json(body) *)
Arguments next {A}.
Arguments next_error {A} e.
Arguments refuse {A} status error permission.

(** A guard never sends a body. *)
Definition Verdict := Reply Empty_set.

(** [try { ... } catch (err) { next(err) }] around an asynchronous body. *)
Definition handle {A} (body : Db (Reply A)) : Store -> Reply A * Store :=
  fun st =>
    match body st with
    | (inl e, st') => (next_error e, st')
    | (inr r, st') => (r, st')
    end.

Definition req_user (req : Request) : option User :=
  option_map auth_user (auth req).

Definition req_orgScope (req : Request) : list string :=
  match auth req with Some a => auth_orgScope a | None => [] end.

Inductive Method := GET | POST | PUT | DELETE.

End Http.

(* ================================================================== *)
(** ** lib/auth.js *)
(* ================================================================== *)

Module AuthLib.
Import Js Rbac Database Http.

(** [createPermissionGuard(permission)]: synchronous, static catalog
    only; an error thrown inside reaches the error handler. *)
Definition createPermissionGuard (permission : string) (req : Request)
  : Store -> Verdict * Store :=
  fun st =>
    match req_user req with
    | None => (refuse 401 "Unauthenticated" None, st)
    | Some user =>
        match roleAllows (user_role user) permission with
        | inl e => (next_error e, st)
        | inr false => (refuse 403 "Forbidden" (Some permission), st)
        | inr true => (next, st)
        end
    end.

(** The tail of [authenticate]: the user row found for the token becomes
    [req.auth] together with its organization scope. *)
Definition authenticated (st : Store) (user : User) : option Auth :=
  option_map (mkAuth user) (resolveOrgScopeForUser (Some user) (organizations st)).

End AuthLib.

(* ================================================================== *)
(** ** routes/tasks.js *)
(* ================================================================== *)

Module TaskRoutes.
Import Js Rbac Database Http.

(** The router's own guard: static catalog or a global dynamic row. *)
Definition guard (permission : string) (req : Request)
  : Store -> Verdict * Store :=
  handle
    match req_user req with
    | None => resolve (refuse 401 "Unauthenticated" None)
    | Some user =>
        if String.eqb (user_role user) "owner" then resolve next
        else
          match roleAllows (user_role user) permission with
          | inl e => reject e
          | inr allowedStatic =>
              allowedDynamic <- select (fun st =>
                  hasRolePermission st None (user_role user) permission) ;;
              if allowedStatic || allowedDynamic then resolve next
              else resolve (refuse 403 "Forbidden" (Some permission))
          end
    end.

Definition trimmed_filter (v : option string) : option string :=
  match v with
  | Some s => if truthy (trim s) then Some (trim s) else None
  | None => None
  end.

Definition normalizeTaskFilters (q : Query) : TaskFilters :=
  mkTaskFilters
    (trimmed_filter (q_status q))
    (trimmed_filter (q_category q))
    (trimmed_filter (q_search q))
    (trimmed_filter (q_assignedTo q))
    (match q_orderBy q with
     | Some s => if includes ["dueDate"; "position"] s then Some s else None
     | None => None
     end).

Definition sanitizeTask (t : TaskRow) : TaskRow :=
  mkTaskRow (id t) (organizationId t) (title t) (description t) (status t)
    (category t) (priority t) (dueDate t) (position t) (createdBy t)
    (createdByName t) (assignedTo t) (assignedToName t) (createdAt t)
    (updatedAt t).

(** The handler of [GET /]. Without a user the scope is empty and so is
    the listing, so [user.id] is never read. *)
Definition list_tasks (req : Request) : Store -> Reply (list TaskRow) * Store :=
  handle
    (let filters := normalizeTaskFilters (query req) in
     let orgScope := req_orgScope req in
     let user := req_user req in
     tasks <- listTasksForOrganizations orgScope filters ;;
     let tasks :=
       filter (fun t =>
         if String.eqb (category t) "Personal"
         then match user with
              | Some u => opt_eqb (createdBy t) (Some (user_id u))
              | None => false
              end
         else true) tasks in
     match user with
     | Some u =>
         if negb (String.eqb (user_role u) "owner") then
           categories <- listAccessibleCategoriesForRole orgScope (user_role u) ;;
           let allowedCategoryNames := set_of_list (map cat_name categories) in
           let tasks :=
             filter (fun t => String.eqb (category t) "Personal"
                              || set_has allowedCategoryNames (category t)) tasks in
           resolve (send (map sanitizeTask tasks))
         else resolve (send (map sanitizeTask tasks))
     | None => resolve (send (map sanitizeTask tasks))
     end).

(** [router.get('/', guard('tasks:view'), handler)]. *)
Definition get_tasks (req : Request) : Store -> Reply (list TaskRow) * Store :=
  fun st =>
    match guard "tasks:view" req st with
    | (next, st') => list_tasks req st'
    | (next_error e, st') => (next_error e, st')
    | (refuse s e p, st') => (refuse s e p, st')
    | (send body, _) => match body with end
    end.

(** The permission that guards each route of the router. *)
Definition route_permission (m : Method) (path : string) : option string :=
  match m with
  | GET => if String.eqb path "/" then Some "tasks:view" else None
  | POST => if String.eqb path "/" then Some "tasks:create" else None
  | PUT => if String.eqb path "/:id" then Some "tasks:update" else None
  | DELETE => if String.eqb path "/:id" then Some "tasks:delete" else None
  end.

End TaskRoutes.

(* ================================================================== *)
(** ** routes/categories.js *)
(* ================================================================== *)

Module CategoryRoutes.
Import Js Rbac Database Http.

(** The permission handed to [createPermissionGuard] on each route;
    [GET /] has no guard. *)
Definition route_permission (m : Method) (path : string) : option string :=
  match m with
  | GET => if String.eqb path "/:id/access" then Some "categories:view" else None
  | POST => if String.eqb path "/" then Some "categories:create" else None
  | PUT =>
      if String.eqb path "/:id" then Some "categories:update"
      else if String.eqb path "/:id/access" then Some "categories:access:configure"
      else None
  | DELETE => if String.eqb path "/:id" then Some "categories:delete" else None
  end.

Definition route_guard (m : Method) (path : string) (req : Request)
  : Store -> Verdict * Store :=
  match route_permission m path with
  | Some permission => AuthLib.createPermissionGuard permission req
  | None => fun st => (next, st)
  end.

End CategoryRoutes.

(* ================================================================== *)
(** ** routes/admin.js *)
(* ================================================================== *)

Module AdminRoutes.
Import Js Rbac Database Http.

(** [router.use(...)]: owners always, others need the dynamic
    [admin:access] row. *)
Definition access_guard (req : Request) : Store -> Verdict * Store :=
  handle
    match req_user req with
    | None => resolve (refuse 401 "Unauthenticated" None)
    | Some user =>
        if String.eqb (user_role user) ROLES.OWNER then resolve next
        else
          allowed <- select (fun st =>
              hasRolePermission st None (user_role user) "admin:access") ;;
          if negb allowed then resolve (refuse 403 "Forbidden" None)
          else resolve next
    end.

End AdminRoutes.

Import Js Sql Rbac Database Http.

Unset Implicit Arguments.

(* ================================================================== *)
(** ** lib/database.js, continued *)
(* ================================================================== *)

(** [listRoles]: [ORDER BY is_system DESC, name ASC]. *)
Definition role_listing_leb (a b : Role) : bool :=
  (role_is_system b <? role_is_system a)%Z
  || ((role_is_system a =? role_is_system b)%Z
      && string_leb (role_name a) (role_name b)).

Definition listRoles (st : Store) : list Role :=
  order_by role_listing_leb (roles st).

(** The columns selected by [listRolePermissions]. *)
Record PermissionRow := mkPermissionRow {
  pr_organizationId : option string;
  pr_role : string;
  pr_permission : string;
  pr_enabled : Z
}.

Definition permission_row (r : RolePermission) : PermissionRow :=
  mkPermissionRow (rp_organization_id r) (rp_role r) (rp_permission r) (rp_enabled r).

(** [listRolePermissions]: every row when no organization is given, the
    global rows and those of the organization otherwise. *)
Definition listRolePermissions (st : Store) (organizationId : option string)
  : list PermissionRow :=
  map permission_row
    match organizationId with
    | None => role_permissions st
    | Some _ => filter (fun r => org_is_null r || org_equals organizationId r)
                       (role_permissions st)
    end.

(** [ensureGlobalRolePermission] of [seedInitialData], with the id it
    draws: [INSERT OR IGNORE] of a row whose organization is NULL. Such a
    row never meets UNIQUE(organization_id, role, permission), so only a
    taken id makes the statement a no-op. *)
Definition ensureGlobalRolePermission (id role permission : string) (enabled : bool)
  : Db unit :=
  run (fun st =>
         if existsb (fun x => String.eqb (rp_id x) id) (role_permissions st)
         then ok st
         else ok (set_role_permissions st
                    (role_permissions st
                     ++ [mkRolePermission id None role permission
                                          (if enabled then 1 else 0)]))).

Definition set_tasks (st : Store) (t : list Task) : Store :=
  mkStore (organizations st) (users st) t (categories st)
    (category_role_access st) (role_permissions st) (roles st).

Definition set_categories (st : Store) (c : list Category)
    (a : list CategoryRoleAccess) : Store :=
  mkStore (organizations st) (users st) (tasks st) c a
    (role_permissions st) (roles st).

(** [getTaskById]. *)
Definition getTaskById (st : Store) (id : string) : option TaskRow :=
  option_map (task_row st)
    (first_row (filter (fun t => String.eqb (task_id t) id) (tasks st))).

(** [deleteTask]: [DELETE FROM tasks WHERE id = ?]. *)
Definition deleteTask (id : string) : Store -> Result Store :=
  fun st => ok (set_tasks st (filter (fun t => negb (String.eqb (task_id t) id)) (tasks st))).

(** [getMaxTaskPosition]: [MAX(position)] over the organization's tasks,
    0 when it has none. *)
Definition getMaxTaskPosition (st : Store) (organizationId : string) : Z :=
  match map task_position
            (filter (fun t => String.eqb (task_organization_id t) organizationId)
                    (tasks st)) with
  | [] => 0
  | p :: ps => fold_left Z.max ps p
  end.

(** [getCategoryById]. *)
Definition getCategoryById (st : Store) (id : string) : option Category :=
  first_row (filter (fun c => String.eqb (cat_id c) id) (categories st)).

(** [deleteCategory]: [DELETE FROM categories WHERE id = ?]; the access rows
    of the category go with it (category_id ... ON DELETE CASCADE). *)
Definition deleteCategory (id : string) : Store -> Result Store :=
  fun st =>
    ok (set_categories st
          (filter (fun c => negb (String.eqb (cat_id c) id)) (categories st))
          (if existsb (fun c => String.eqb (cat_id c) id) (categories st)
           then filter (fun r => negb (String.eqb (cra_category_id r) id))
                       (category_role_access st)
           else category_role_access st)).

(** The row shape of [listCategoriesForOrganizations]. *)
Record CategoryListing := mkCategoryListing {
  cl_id : string;
  cl_organizationId : string;
  cl_organizationName : option string;
  cl_name : string;
  cl_isSystem : Z;
  cl_createdAt : Z
}.

Definition category_listing (st : Store) (c : Category) : CategoryListing :=
  mkCategoryListing (cat_id c) (cat_organization_id c)
    (option_map org_name
       (first_row (filter (fun o => String.eqb (org_id o) (cat_organization_id c))
                          (organizations st))))
    (cat_name c) (cat_is_system c) (cat_created_at c).

(** [ORDER BY c.name ASC, o.name ASC]; NULL sorts first. *)
Definition category_listing_leb (a b : CategoryListing) : bool :=
  String.ltb (cl_name a) (cl_name b)
  || (String.eqb (cl_name a) (cl_name b)
      && match cl_organizationName a, cl_organizationName b with
         | None, _ => true
         | Some _, None => false
         | Some x, Some y => string_leb x y
         end).

(** [listCategoriesForOrganizations]. *)
Definition listCategoriesForOrganizations (orgIds : list string)
  : Db (list CategoryListing) :=
  match orgIds with
  | [] => resolve []
  | _ :: _ =>
      select (fun st =>
        order_by category_listing_leb
          (map (category_listing st)
             (filter (fun c => IN (cat_organization_id c) orgIds) (categories st))))
  end.

(* ================================================================== *)
(** ** lib/audit.js *)
(* ================================================================== *)

(** The fields of an audit event that decide whether it is accepted; the
    [before], [after] and [metadata] payloads are stored as JSON text. *)
Record AuditEvent := mkAuditEvent {
  ev_action : string;
  ev_entity : string;
  ev_entityId : string;
  ev_actorId : option string;
  ev_organizationId : option string
}.

(** [logAudit] of [createAuditLogger]: the payload check, then the insert
    into audit_log, whose organization_id and actor_id reference stored
    rows. The audit_log table is outside the modelled tables and its ids
    are taken as new, so an accepted event leaves the store as it is. *)
Definition logAudit (event : AuditEvent) : Db unit :=
  if negb (truthy (ev_action event)) || negb (truthy (ev_entity event))
     || negb (truthy (ev_entityId event))
  then reject (mkError "Invalid audit event payload" None)
  else
    run (fun st =>
      let org_ok :=
        match ev_organizationId event with
        | None => true
        | Some o => existsb (fun x => String.eqb (org_id x) o) (organizations st)
        end in
      let actor_ok :=
        match ev_actorId event with
        | None => true
        | Some a => existsb (fun u => String.eqb (user_id u) a) (users st)
        end in
      if org_ok && actor_ok then ok st
      else throw (constraint_failed "FOREIGN KEY constraint failed")).

(* ================================================================== *)
(** ** The routers, continued *)
(* ================================================================== *)

(** A route [router.METHOD(path, guard, handler)]. *)
Definition guarded {A} (g : Store -> Verdict * Store)
    (handler : Store -> Reply A * Store) : Store -> Reply A * Store :=
  fun st =>
    match g st with
    | (next, st') => handler st'
    | (next_error e, st') => (next_error e, st')
    | (refuse s e p, st') => (refuse s e p, st')
    | (send body, _) => match body with end
    end.

(** Reading a property of [req.auth?.user] when there is no user. *)
Definition no_user (property : string) : Error :=
  TypeError ("Cannot read properties of undefined (reading '" ++ property ++ "')").

(** routes/tasks.js, the handler of [DELETE /:id]; it answers 204. The
    audit logger is the one handed to [createTaskRouter]. *)
Definition delete_task (auditLogger : AuditEvent -> Db unit) (id : string)
    (req : Request) : Store -> Reply Z * Store :=
  handle
    (let user := req_user req in
     let orgScope := set_of_list (req_orgScope req) in
     existing <- select (fun st => getTaskById st id) ;;
     match existing with
     | None => resolve (refuse 404 "Task not found" None)
     | Some existing =>
         if negb (set_has orgScope (organizationId existing))
         then resolve (refuse 403 "Task outside allowed scope" None)
         else
           run (deleteTask id) ;;;
           match user with
           | None => reject (no_user "id")
           | Some u =>
               auditLogger (mkAuditEvent "task.deleted" "task" id
                              (Some (user_id u)) (Some (organizationId existing))) ;;;
               resolve (send 204%Z)
           end
     end).

(** [router.delete('/:id', guard('tasks:delete'), handler)]. *)
Definition delete_task_route (auditLogger : AuditEvent -> Db unit) (id : string)
    (req : Request) : Store -> Reply Z * Store :=
  guarded (TaskRoutes.guard "tasks:delete" req) (delete_task auditLogger id req).

(** What [GET /categories] sends: the scoped listing for an owner, the
    accessible categories for everybody else. *)
Inductive CategoriesBody :=
| all_in_scope (items : list CategoryListing)
| accessible (items : list Category).

(** routes/categories.js, the handler of [GET /]. *)
Definition get_categories (req : Request) : Store -> Reply CategoriesBody * Store :=
  handle
    (let orgScope := req_orgScope req in
     match req_user req with
     | None => reject (no_user "role")
     | Some user =>
         if String.eqb (user_role user) ROLES.OWNER
         then items <- listCategoriesForOrganizations orgScope ;;
              resolve (send (all_in_scope items))
         else items <- listAccessibleCategoriesForRole orgScope (user_role user) ;;
              resolve (send (accessible items))
     end).

(** routes/categories.js, the handler of [DELETE /:id]. *)
Definition delete_category (auditLogger : AuditEvent -> Db unit) (id : string)
    (req : Request) : Store -> Reply Z * Store :=
  handle
    (let user := req_user req in
     let orgScope := set_of_list (req_orgScope req) in
     existing <- select (fun st => getCategoryById st id) ;;
     match existing with
     | None => resolve (refuse 404 "Category not found" None)
     | Some existing =>
         if negb (set_has orgScope (cat_organization_id existing))
         then resolve (refuse 403 "Category outside allowed scope" None)
         else if is_set (cat_is_system existing)
         then resolve (refuse 400 "System category cannot be deleted" None)
         else
           run (deleteCategory id) ;;;
           auditLogger (mkAuditEvent "category.deleted" "category" id
                          (option_map user_id user)
                          (Some (cat_organization_id existing))) ;;;
           resolve (send 204%Z)
     end).

Definition delete_category_route (auditLogger : AuditEvent -> Db unit) (id : string)
    (req : Request) : Store -> Reply Z * Store :=
  guarded (CategoryRoutes.route_guard DELETE "/:id" req)
          (delete_category auditLogger id req).

(** routes/categories.js, the handler of [PUT /:id/access]; [roles] is
    [req.body.roles] when that is an array. *)
Definition put_category_access (uuid : nat -> string) (id : string)
    (roles : option (list string)) (req : Request)
  : Store -> Reply (list string) * Store :=
  handle
    match req_user req with
    | None => reject (no_user "role")
    | Some user =>
        if negb (String.eqb (user_role user) ROLES.OWNER)
        then resolve (refuse 403 "Only owner can modify access" None)
        else
          existing <- select (fun st => getCategoryById st id) ;;
          match existing with
          | None => resolve (refuse 404 "Category not found" None)
          | Some _ =>
              updated <- setCategoryRoleAccess uuid id
                           (match roles with Some l => l | None => [] end) ;;
              resolve (send updated)
          end
    end.

Definition put_category_access_route (uuid : nat -> string) (id : string)
    (roles : option (list string)) (req : Request)
  : Store -> Reply (list string) * Store :=
  guarded (CategoryRoutes.route_guard PUT "/:id/access" req)
          (put_category_access uuid id roles req).

(** routes/admin.js: the permission keys shown for a role. *)
Definition permission_catalog : list string :=
  set_of_list ("admin:access" :: map fst PERMISSIONS).

(** routes/admin.js: the [enabled] shown for one key of the catalog. *)
Definition shown_enabled (roleName : string) (current : list PermissionRow)
    (key : string) : bool :=
  let found := find (fun r => String.eqb (pr_permission r) key) current in
  if String.eqb roleName ROLES.OWNER then true
  else if String.eqb roleName ROLES.ADMIN
  then match found with Some r => is_set (pr_enabled r) | None => true end
  else match found with Some r => is_set (pr_enabled r) | None => false end.

(** routes/admin.js, the handler of [GET /roles/:name/permissions]: the
    role's name and the catalog with what is shown for each key. *)
Definition get_role_permissions (name : string) (req : Request)
  : Store -> Reply (string * list (string * bool)) * Store :=
  handle
    (canViewRoles <-
       match req_user req with
       | None => resolve false
       | Some actor =>
           if String.eqb (user_role actor) ROLES.OWNER then resolve true
           else select (fun st => hasRolePermission st None (user_role actor) "roles:view")
       end ;;
     if negb canViewRoles then resolve (refuse 403 "Forbidden" None)
     else
       let roleName := toLowerCase (trim name) in
       role <- select (fun st => getRoleByName st roleName) ;;
       match role with
       | None => resolve (refuse 404 "Role not found" None)
       | Some role =>
           all <- select (fun st => listRolePermissions st None) ;;
           let current :=
             filter (fun r => String.eqb (toLowerCase (pr_role r)) roleName
                              && match pr_organizationId r with
                                 | None => true
                                 | Some _ => false
                                 end) all in
           resolve (send (role_name role,
                          map (fun key => (key, shown_enabled roleName current key))
                              permission_catalog))
       end).

(** routes/admin.js, the handler of [PUT /roles/:name/permissions/:permission],
    with the id that [setRolePermission] draws; [enabled] is
    [Boolean(req.body.enabled)]. *)
Definition put_role_permission (auditLogger : AuditEvent -> Db unit)
    (id name permission : string) (enabled : bool) (req : Request)
  : Store -> Reply (string * string * bool) * Store :=
  handle
    match req_user req with
    | None => reject (no_user "role")
    | Some actor =>
        if negb (String.eqb (user_role actor) ROLES.OWNER)
        then resolve (refuse 403 "Owner required" None)
        else
          let roleName := toLowerCase (trim name) in
          role <- select (fun st => getRoleByName st roleName) ;;
          match role with
          | None => resolve (refuse 404 "Role not found" None)
          | Some role =>
              if String.eqb (role_name role) ROLES.OWNER
              then resolve (refuse 400 "Cannot modify owner permissions" None)
              else
                let permission := trim permission in
                setRolePermission id None (role_name role) permission enabled ;;;
                auditLogger (mkAuditEvent "permission.updated" "role_permission"
                               (role_name role ++ ":" ++ permission)
                               (Some (user_id actor))
                               (Some (user_organization_id actor))) ;;;
                resolve (send (role_name role, permission, enabled))
          end
    end.

(** The route behind the router's access guard. *)
Definition put_role_permission_route (auditLogger : AuditEvent -> Db unit)
    (id name permission : string) (enabled : bool) (req : Request)
  : Store -> Reply (string * string * bool) * Store :=
  guarded (AdminRoutes.access_guard req)
          (put_role_permission auditLogger id name permission enabled req).

(* ================================================================== *)
(** ** Sample data *)
(* ================================================================== *)

Definition acme_orgs : list Organization :=
  [ mkOrganization "root" "Acme" None;
    mkOrganization "east" "Acme East" (Some "root");
    mkOrganization "west" "Acme West" (Some "root") ].

Definition olivia : User := mkUser "u-owner" "west" "owner@acme.test" "Olivia Owner" "owner" 1.
Definition avery : User := mkUser "u-admin" "root" "admin@acme.test" "Avery Admin" "admin" 1.
Definition vera : User := mkUser "u-viewer" "east" "viewer@acme.test" "Vera Viewer" "viewer" 1.
Definition eddie : User := mkUser "u-editor" "root" "editor@acme.test" "Eddie Editor" "editor" 1.

Definition acme_roles : list Role :=
  [ mkRole "r-owner" "owner" (Some "Full control of the organization") 1;
    mkRole "r-admin" "admin" (Some "Manage users and settings") 1;
    mkRole "r-viewer" "viewer" (Some "Read-only access") 1;
    mkRole "r-editor" "editor" (Some "Edits tasks") 0;
    mkRole "r-guest" "guest" None 0 ].

Definition acme_role_permissions : list RolePermission :=
  [ mkRolePermission "rp-1" None "admin" "admin:access" 1;
    mkRolePermission "rp-2" None "editor" "categories:create" 1;
    mkRolePermission "rp-3" (Some "root") "editor" "tasks:view" 1;
    mkRolePermission "rp-4" None "editor" "tasks:view" 0;
    mkRolePermission "rp-5" None "guest" "tasks:view" 1 ].

Definition acme_categories : list Category :=
  [ mkCategory "c-work" "root" "Work" 1 10;
    mkCategory "c-personal" "root" "Personal" 1 10;
    mkCategory "c-launch" "root" "Launch" 0 20;
    mkCategory "c-secret" "root" "Secret" 0 30 ].

Definition acme_category_role_access : list CategoryRoleAccess :=
  [ mkCategoryRoleAccess "a-1" "c-launch" "editor";
    mkCategoryRoleAccess "a-2" "c-launch" "admin" ].

Definition acme_tasks : list Task :=
  [ mkTask "t-1" "root" "Plan quarterly objectives" (Some "Draft OKRs") "todo" "Work"
      "high" (Some 700%Z) 1 (Some "u-owner") (Some "u-admin") 100 100;
    mkTask "t-2" "root" "Team social outing" None "todo" "Personal"
      "low" None 2 (Some "u-admin") (Some "u-viewer") 101 101;
    mkTask "t-3" "root" "Launch checklist" None "todo" "Launch"
      "medium" None 3 (Some "u-editor") None 102 102 ].

Definition acme : Store :=
  mkStore acme_orgs [olivia; avery; vera; eddie] acme_tasks acme_categories
    acme_category_role_access acme_role_permissions acme_roles.

(** The sample store after the server started twice: each start runs
    [ensureGlobalRolePermission(ROLES.ADMIN, 'roles:delete', 1)] of
    [seedInitialData] with a new id. *)
Definition acme_restarted : Store :=
  snd (ensureGlobalRolePermission "rp-s2" ROLES.ADMIN "roles:delete" true
         (snd (ensureGlobalRolePermission "rp-s1" ROLES.ADMIN "roles:delete" true acme))).

(** A source of ids for the sample runs. *)
Definition sample_uuid (prefix : string) (n : nat) : string :=
  prefix ++ String (ascii_of_nat (48 + n)) "".

Definition no_query : Query := mkQuery None None None None None.

(** A request of [user], authenticated against the sample store with the
    given organization scope. *)
Definition request_of (user : User) (scope : list string) : Request :=
  mkRequest (Some (mkAuth user scope)) no_query.

(* ================================================================== *)
(** ** Notions used in the statements *)
(* ================================================================== *)

(** The number of queue entries the traversal may still add: the sizes of
    the child lists of the nodes not yet in the accumulator. *)
Fixpoint pending_children (m : Map (option string) (list Organization)) (acc : StrSet)
  : nat :=
  match m with
  | [] => 0
  | (Some s, l) :: rest =>
      (if set_has acc s then 0 else List.length l) + pending_children rest acc
  | (None, _) :: rest => pending_children rest acc
  end.

(** The number of organizations filed in a children map. *)
Fixpoint filed_children (m : Map (option string) (list Organization)) : nat :=
  match m with
  | [] => 0
  | (_, l) :: rest => List.length l + filed_children rest
  end.

(** [c] is the id of an organization filed under the parent [p]. *)
Definition child_of (orgs : list Organization) (p c : string) : Prop :=
  exists o, In o orgs /\ parent_key o = Some p /\ org_id o = c.

(** [x] is [top] or one of its transitive descendants. *)
Inductive descends (orgs : list Organization) (top : string) : string -> Prop :=
| descends_self : descends orgs top top
| descends_child (p c : string) :
    descends orgs top p -> child_of orgs p c -> descends orgs top c.

(** An audit logger that writes to none of the modelled tables. *)
Definition leaves_store (auditLogger : AuditEvent -> Db unit) : Prop :=
  forall event st, snd (auditLogger event st) = st.

(** The categories that [listAccessibleCategoriesForRole] lists. *)
Definition accessible_to (st : Store) (orgIds : list string) (role : string)
    (c : Category) : Prop :=
  In c (categories st)
  /\ In (cat_organization_id c) orgIds
  /\ (((forall a, In a (category_role_access st) -> cra_category_id a <> cat_id c)
       /\ cat_is_system c = 1%Z)
      \/ (exists a, In a (category_role_access st)
                    /\ cra_category_id a = cat_id c /\ cra_role a = role)).

(** The [WHERE] clause of [hasRolePermission]. *)
Definition candidate (organizationId : option string) (role permission : string)
    (r : RolePermission) : bool :=
  (org_is_null r || org_equals organizationId r)
  && String.eqb (rp_role r) role && String.eqb (rp_permission r) permission.

(** The persisted rows of one (organization-or-null, role, permission)
    tuple. *)
Definition tuple_rows (st : Store) (organizationId : option string)
    (role permission : string) : list RolePermission :=
  filter (matches_tuple organizationId role permission) (role_permissions st).

(** The id is not the key of a stored permission row. *)
Definition fresh_permission_id (st : Store) (id : string) : Prop :=
  existsb (fun x => String.eqb (rp_id x) id) (role_permissions st) = false.

(** The organization of a tuple is [null] or a stored organization. *)
Definition known_scope (st : Store) (organizationId : option string) : Prop :=
  match organizationId with
  | None => True
  | Some org => existsb (fun o => String.eqb (org_id o) org) (organizations st) = true
  end.

(** [a] is not after [b] in the order tested by [leb]. *)
Definition not_after {A} (leb : A -> A -> bool) (a b : A) : Prop := leb a b = true.

(** The rows that iteration [i], [i+1], ... of [setCategoryRoleAccess]
    inserts for the roles [rs]. *)
Definition access_rows_from (uuid : nat -> string) (i : nat) (categoryId : string)
    (rs : list string) : list CategoryRoleAccess :=
  map (fun p => mkCategoryRoleAccess (uuid (fst p)) categoryId (snd p))
      (combine (seq i (List.length rs)) rs).

(** The first [n] ids drawn are pairwise distinct and none is the key of an
    access row of another category. *)
Definition fresh_access_ids (st : Store) (categoryId : string) (uuid : nat -> string)
    (n : nat) : Prop :=
  (forall k x, k < n -> In x (category_role_access st) ->
               cra_category_id x <> categoryId -> cra_id x <> uuid k)
  /\ (forall j k, j < n -> k < n -> j <> k -> uuid j <> uuid k).

(** The roles stored for a category, in scan order. *)
Definition stored_roles (st : Store) (categoryId : string) : list string :=
  map cra_role
    (filter (fun r => String.eqb (cra_category_id r) categoryId) (category_role_access st)).

(** The access rows of the other categories. *)
Definition other_access_rows (st : Store) (categoryId : string) : list CategoryRoleAccess :=
  filter (fun r => negb (String.eqb (cra_category_id r) categoryId)) (category_role_access st).


(* ================================================================== *)
(** ** Basic facts about the JavaScript containers *)
(* ================================================================== *)

Lemma includes_In (l : list string) (x : string) :
  includes l x = true <-> In x l.
Proof.
  unfold includes. rewrite existsb_exists. split.
  - intros [y [Hy Heq]]. apply String.eqb_eq in Heq. now subst.
  - intros H. exists x. split; [assumption | apply String.eqb_refl].
Qed.

Lemma set_has_In (s : StrSet) (x : string) : set_has s x = true <-> In x s.
Proof. apply includes_In. Qed.

Lemma set_add_In (s : StrSet) (x y : string) :
  In y (set_add s x) <-> In y s \/ y = x.
Proof.
  unfold set_add. destruct (set_has s x) eqn:E.
  - apply set_has_In in E. split; [now left | intros [H | ->]; assumption].
  - rewrite in_app_iff. simpl. intuition.
Qed.

Lemma fold_set_add_In {A} (f : A -> string) (l : list A) (s : StrSet) (y : string) :
  In y (fold_left (fun acc a => set_add acc (f a)) l s) <-> In y s \/ In y (map f l).
Proof.
  revert s. induction l as [| a l IH]; intros s; simpl.
  - intuition.
  - rewrite IH, set_add_In. intuition.
Qed.

(* ================================================================== *)
(** ** Organization scope *)
(* ================================================================== *)

(** The traversal skips a node that is already in the accumulator, and a
    queue holding only such a node leaves the accumulator as it was. *)
Lemma collectDescendants_visited fuel id childrenMap acc :
  set_has acc id = true ->
  collectDescendants (S (S fuel)) id childrenMap acc = Some acc.
Proof.
  intros H. unfold collectDescendants. simpl. rewrite H.
  now rewrite orb_true_r.
Qed.

Lemma opt_eqb_refl (k : option string) : opt_eqb k k = true.
Proof. destruct k; simpl; [apply String.eqb_refl | reflexivity]. Qed.

Lemma opt_eqb_eq (a b : option string) : opt_eqb a b = true -> a = b.
Proof.
  destruct a, b; simpl; try discriminate; try reflexivity.
  intros H. apply String.eqb_eq in H. now subst.
Qed.

Lemma pending_children_mono m acc x :
  pending_children m (set_add acc x) <= pending_children m acc.
Proof.
  induction m as [| [[s |] l] m IH]; simpl; [lia | | exact IH].
  destruct (set_has acc s) eqn:E.
  - assert (H : set_has (set_add acc x) s = true).
    { apply set_has_In, set_add_In. left. now apply set_has_In. }
    rewrite H. lia.
  - destruct (set_has (set_add acc x) s); lia.
Qed.

(** Visiting a new node pays for the children it queues. *)
Lemma pending_children_visit m acc current :
  set_has acc current = false ->
  List.length (match map_get opt_eqb m (Some current) with Some l => l | None => [] end)
  + pending_children m (set_add acc current)
  <= pending_children m acc.
Proof.
  intros Hnew. induction m as [| [k l] m IH]; simpl; [lia |].
  destruct k as [s |]; simpl.
  - destruct (String.eqb current s) eqn:E.
    + apply String.eqb_eq in E. subst s. rewrite Hnew.
      assert (H : set_has (set_add acc current) current = true).
      { apply set_has_In, set_add_In. now right. }
      rewrite H. pose proof (pending_children_mono m acc current). lia.
    + destruct (set_has acc s) eqn:Es.
      * assert (H : set_has (set_add acc current) s = true).
        { apply set_has_In, set_add_In. left. now apply set_has_In. }
        rewrite H. lia.
      * destruct (set_has (set_add acc current) s); lia.
  - exact IH.
Qed.

(** The loop of [collectDescendants] ends within the fuel that covers the
    queue and the pending children. *)
Lemma collectDescendants_loop_terminates fuel childrenMap :
  forall queue acc,
    List.length queue + pending_children childrenMap acc < fuel ->
    exists scope, collectDescendants_loop fuel childrenMap queue acc = Some scope.
Proof.
  induction fuel as [| fuel IH]; intros queue acc Hfuel; [lia |].
  destruct queue as [| current rest]; simpl; [now exists acc |].
  destruct (negb (truthy current) || set_has acc current) eqn:Hskip.
  - apply IH. simpl in Hfuel. lia.
  - apply orb_false_elim in Hskip. destruct Hskip as [_ Hnew].
    apply IH. rewrite length_app, length_map.
    pose proof (pending_children_visit childrenMap acc current Hnew).
    simpl in Hfuel. lia.
Qed.

Lemma pending_le_filed m acc : pending_children m acc <= filed_children m.
Proof.
  induction m as [| [[s |] l] m IH]; simpl; [lia | | lia].
  destruct (set_has acc s); lia.
Qed.

Lemma filed_children_set_present m k l v :
  map_get opt_eqb m k = Some l ->
  filed_children (map_set opt_eqb m k v) + List.length l
  = filed_children m + List.length v.
Proof.
  induction m as [| [k' l'] m IH]; simpl; [discriminate |].
  destruct (opt_eqb k k'); simpl.
  - intros H. injection H as <-. lia.
  - intros H. specialize (IH H). lia.
Qed.

Lemma filed_children_set_absent m k v :
  map_get opt_eqb m k = None ->
  filed_children (map_set opt_eqb m k v) = filed_children m + List.length v
  /\ map_get opt_eqb (map_set opt_eqb m k v) k = Some v.
Proof.
  induction m as [| [k' l'] m IH]; simpl.
  - intros _. rewrite opt_eqb_refl. split; [lia | reflexivity].
  - destruct (opt_eqb k k') eqn:E; [discriminate |]. simpl. rewrite E.
    intros H. destruct (IH H) as [H1 H2]. split; [lia | exact H2].
Qed.

Lemma buildOrgIndex_step_filed idx org :
  filed_children (children (buildOrgIndex_step idx org))
  = S (filed_children (children idx)).
Proof.
  unfold buildOrgIndex_step. simpl. unfold map_has.
  destruct (map_get opt_eqb (children idx) (parent_key org)) as [l |] eqn:Hget.
  - rewrite Hget.
    pose proof (filed_children_set_present (children idx) (parent_key org) l
                  (l ++ [org]) Hget) as H.
    rewrite length_app in H. simpl in H. lia.
  - destruct (filed_children_set_absent (children idx) (parent_key org) [] Hget)
      as [Hfiled Hnow].
    rewrite Hnow.
    pose proof (filed_children_set_present _ (parent_key org) [] ([] ++ [org]) Hnow) as H.
    simpl in H, Hfiled |- *. lia.
Qed.

Lemma buildOrgIndex_filed organizations :
  filed_children (children (buildOrgIndex organizations)) = List.length organizations.
Proof.
  unfold buildOrgIndex.
  assert (H : forall idx,
             filed_children (children (fold_left buildOrgIndex_step organizations idx))
             = List.length organizations + filed_children (children idx)).
  { induction organizations as [| o l IH]; intros idx; simpl; [reflexivity |].
    rewrite IH, buildOrgIndex_step_filed. lia. }
  rewrite H. simpl. lia.
Qed.

(** [collectDescendants] over the index of an organization list returns,
    from any start node and any accumulator. *)
Lemma collectDescendants_terminates organizations id acc :
  exists scope,
    collectDescendants (traversal_fuel organizations) id
      (children (buildOrgIndex organizations)) acc = Some scope.
Proof.
  apply collectDescendants_loop_terminates.
  pose proof (pending_le_filed (children (buildOrgIndex organizations)) acc) as H.
  rewrite buildOrgIndex_filed in H. unfold traversal_fuel. simpl List.length. nia.
Qed.

(** [resolveOrgScopeForUser] returns for every user and organization list. *)
Lemma resolveOrgScopeForUser_total user organizations :
  exists scope, resolveOrgScopeForUser user organizations = Some scope.
Proof.
  unfold resolveOrgScopeForUser. destruct user as [user |]; [| now eexists].
  destruct (negb (truthy (user_organization_id user))); [now eexists |].
  destruct (String.eqb _ ROLES.OWNER); [now eexists |].
  destruct (String.eqb _ ROLES.ADMIN); [| now eexists].
  match goal with |- context [if ?b then _ else _] => destruct b end;
    [apply collectDescendants_terminates | now eexists].
Qed.

(** X7. For an owner the scope is the user's organization together with every
    organization of the list. *)
Lemma resolveOrgScope_owner (user : User) (orgs : list Organization) :
  truthy (user_organization_id user) = true ->
  normalizeRole (user_role user) = "owner" ->
  exists scope,
    resolveOrgScopeForUser (Some user) orgs = Some scope /\
    forall x, In x scope <-> x = user_organization_id user \/ In x (map org_id orgs).
Proof.
  intros Horg Hrole. unfold resolveOrgScopeForUser.
  rewrite Horg, Hrole. simpl.
  eexists. split; [reflexivity |].
  intros x. rewrite fold_set_add_In. simpl. intuition.
Qed.

(** For an admin the scope is the user's organization alone, root or not:
    the organization is put in the scope before the traversal starts, and
    the traversal stops at a node it finds there. *)
Lemma resolveOrgScope_admin (user : User) (orgs : list Organization) :
  truthy (user_organization_id user) = true ->
  normalizeRole (user_role user) = "admin" ->
  resolveOrgScopeForUser (Some user) orgs = Some [user_organization_id user].
Proof.
  intros Horg Hrole. unfold resolveOrgScopeForUser.
  rewrite Horg, Hrole. simpl negb. cbv iota.
  change (String.eqb "admin" ROLES.OWNER) with false.
  change (String.eqb "admin" ROLES.ADMIN) with true. cbv iota.
  match goal with |- (if ?b then _ else _) = _ => destruct b end;
    [| reflexivity].
  unfold traversal_fuel. simpl Nat.mul.
  apply collectDescendants_visited.
  unfold set_add. simpl. now rewrite String.eqb_refl.
Qed.

(** X8. For every other role the scope is the user's organization alone. *)
Lemma resolveOrgScope_other (user : User) (orgs : list Organization) :
  truthy (user_organization_id user) = true ->
  normalizeRole (user_role user) <> "owner" ->
  normalizeRole (user_role user) <> "admin" ->
  resolveOrgScopeForUser (Some user) orgs = Some [user_organization_id user].
Proof.
  intros Horg Ho Ha. unfold resolveOrgScopeForUser. rewrite Horg. simpl negb. cbv iota.
  apply String.eqb_neq in Ho, Ha.
  unfold ROLES.OWNER, ROLES.ADMIN. rewrite Ho, Ha. reflexivity.
Qed.

(** C3. An admin of the root organization "root", which has the children
    "east" and "west", is scoped to "root" alone, although the traversal
    started from an empty accumulator reaches all three; the owner of the
    leaf "west" is scoped to all three and the viewer of "east" to "east". *)
Theorem C3_admin_root_scope_lacks_descendants :
  resolveOrgScopeForUser (Some avery) acme_orgs = Some ["root"]
  /\ collectDescendants (traversal_fuel acme_orgs) "root"
       (children (buildOrgIndex acme_orgs)) [] = Some ["root"; "east"; "west"]
  /\ resolveOrgScopeForUser (Some olivia) acme_orgs = Some ["west"; "root"; "east"]
  /\ resolveOrgScopeForUser (Some vera) acme_orgs = Some ["east"].
Proof. repeat split; vm_compute; reflexivity. Qed.

(* ================================================================== *)
(** ** Route guards *)
(* ================================================================== *)

(** X3. The task router's guard lets a non-owner through exactly when the
    static check returns and one of the two checks holds. *)
Lemma task_guard_allows_iff (st : Store) (req : Request) (user : User)
    (permission : string) :
  req_user req = Some user ->
  user_role user <> "owner" ->
  (fst (TaskRoutes.guard permission req st) = next <->
   exists allowedStatic,
     roleAllows (user_role user) permission = ok allowedStatic /\
     allowedStatic || hasRolePermission st None (user_role user) permission = true).
Proof.
  intros Hu Hrole. apply String.eqb_neq in Hrole.
  unfold TaskRoutes.guard, handle. rewrite Hu, Hrole.
  destruct (roleAllows (user_role user) permission) as [e | b] eqn:Hs.
  - unfold reject. simpl. split; [discriminate |].
    intros [b [Hb _]]. discriminate.
  - unfold bind, select, resolve. simpl.
    destruct (b || hasRolePermission st None (user_role user) permission) eqn:Hor; simpl.
    + split; [| reflexivity]. intros _. exists b. now split.
    + split; [discriminate |]. intros [b' [Hb' Hor']].
      unfold ok in Hb'. injection Hb' as <-. congruence.
Qed.

(** X6. The static guard never reads the store: [createPermissionGuard]
    calls [next()] exactly when [roleAllows] grants the permission to the
    user's role, whatever rows the store holds. *)
Lemma permission_guard_static (st : Store) (req : Request) (user : User)
    (permission : string) :
  req_user req = Some user ->
  (fst (AuthLib.createPermissionGuard permission req st) = next <->
   roleAllows (user_role user) permission = ok true).
Proof.
  intros Hu. unfold AuthLib.createPermissionGuard. rewrite Hu.
  destruct (roleAllows (user_role user) permission) as [e | [|]]; simpl;
    split; intros H; try reflexivity; try discriminate.
Qed.

(** On a guarded category route a role without the static entitlement is
    answered 403 in every state of the store, whatever rows it holds. *)
Lemma category_guard_denies_without_static (st : Store) (req : Request) (user : User)
    (m : Method) (path permission : string) :
  req_user req = Some user ->
  CategoryRoutes.route_permission m path = Some permission ->
  roleAllows (user_role user) permission = ok false ->
  CategoryRoutes.route_guard m path req st
  = (refuse 403 "Forbidden" (Some permission), st).
Proof.
  intros Hu Hroute Hstatic. unfold CategoryRoutes.route_guard. rewrite Hroute.
  unfold AuthLib.createPermissionGuard. now rewrite Hu, Hstatic.
Qed.

(** C1. The custom role "editor" holds the global dynamic grant
    "categories:create" and no static entitlement. The task router's
    combinator lets it through for that permission, but the guard of
    [POST /categories], which is [createPermissionGuard], answers 403. *)
Theorem C1_category_routes_ignore_dynamic_grant :
  let req := request_of eddie ["root"] in
  user_role eddie <> "owner"
  /\ roleAllows (user_role eddie) "categories:create" = ok false
  /\ hasRolePermission acme None (user_role eddie) "categories:create" = true
  /\ fst (TaskRoutes.guard "categories:create" req acme) = next
  /\ CategoryRoutes.route_permission POST "/" = Some "categories:create"
  /\ fst (CategoryRoutes.route_guard POST "/" req acme)
     = refuse 403 "Forbidden" (Some "categories:create").
Proof. repeat split; try (vm_compute; reflexivity). vm_compute. discriminate. Qed.

(** C8. For a user whose role is "owner" the task router's guard and the
    admin router's access guard call [next()] for every permission and in
    every state of the store, in particular before and after
    [setRolePermission(null, 'owner', 'tasks:delete', false)]; neither
    guard changes the store. *)
Theorem C8_owner_allowed_in_every_store
    (st1 st2 : Store) (req : Request) (user : User) (permission id : string) :
  req_user req = Some user ->
  user_role user = "owner" ->
  TaskRoutes.guard permission req st1 = (next, st1)
  /\ TaskRoutes.guard permission req st2 = (next, st2)
  /\ AdminRoutes.access_guard req st1 = (next, st1)
  /\ AdminRoutes.access_guard req st2 = (next, st2)
  /\ (let after := snd (setRolePermission id None "owner" "tasks:delete" false st1) in
      fst (TaskRoutes.guard "tasks:delete" req st1) = next
      /\ fst (TaskRoutes.guard "tasks:delete" req after) = next).
Proof.
  intros Hu Hrole.
  assert (Hg : forall p st, TaskRoutes.guard p req st = (next, st)).
  { intros p st. unfold TaskRoutes.guard, handle. rewrite Hu, Hrole. reflexivity. }
  assert (Ha : forall st, AdminRoutes.access_guard req st = (next, st)).
  { intros st. unfold AdminRoutes.access_guard, handle. rewrite Hu, Hrole. reflexivity. }
  repeat split; try apply Hg; try apply Ha; rewrite Hg; reflexivity.
Qed.

Lemma C8_owner_allowed_witness :
  TaskRoutes.guard "tasks:delete" (request_of olivia ["root"]) acme = (next, acme)
  /\ fst (TaskRoutes.guard "tasks:delete" (request_of olivia ["root"])
            (snd (setRolePermission "rp-9" None "owner" "tasks:delete" false acme))) = next.
Proof.
  pose proof (C8_owner_allowed_in_every_store acme acme (request_of olivia ["root"])
                olivia "tasks:delete" "rp-9" eq_refl eq_refl) as H.
  split; [apply H | apply H].
Defined.

(* ================================================================== *)
(** ** Dynamic permission store *)
(* ================================================================== *)

Lemma first_row_map {A B} (f : A -> B) (l : list A) :
  first_row (map f l) = option_map f (first_row l).
Proof. destruct l; reflexivity. Qed.

Lemma filter_map_stable {A} (p : A -> bool) (f : A -> A) (l : list A) :
  (forall x, p (f x) = p x) ->
  filter p (map f l) = map f (filter p l).
Proof.
  intros H. induction l as [| x l IH]; simpl; [reflexivity |].
  rewrite H. destruct (p x); simpl; now rewrite IH.
Qed.

Lemma first_row_find {A} (p : A -> bool) (l : list A) :
  first_row (filter p l) = find p l.
Proof.
  induction l as [| x l IH]; simpl; [reflexivity |].
  destruct (p x); simpl; [reflexivity | assumption].
Qed.

Lemma find_none_all {A} (p : A -> bool) (l : list A) :
  find p l = None -> forall x, In x l -> p x = false.
Proof. intros H x Hx. exact (find_none p l H x Hx). Qed.

(** [ORDER BY organization_id IS NULL DESC LIMIT 1] picks the first global
    row when there is one, and the first row otherwise. *)
Lemma first_row_global_first (l : list RolePermission) :
  first_row (order_by (fun a b => org_is_null a || negb (org_is_null b)) l)
  = match find org_is_null l with
    | Some g => Some g
    | None => first_row l
    end.
Proof.
  induction l as [| x l IH]; [reflexivity |].
  simpl order_by. simpl find.
  destruct (order_by _ l) as [| y s] eqn:Hs; simpl insert_row.
  - destruct (org_is_null x); [reflexivity |].
    simpl in IH. destruct (find org_is_null l); [discriminate |].
    destruct l; [reflexivity | discriminate].
  - simpl in IH. destruct (org_is_null x) eqn:Hx; simpl; [reflexivity |].
    destruct (find org_is_null l) as [g |] eqn:Hf.
    + injection IH as <-. apply find_some in Hf. destruct Hf as [_ Hy].
      now rewrite Hy.
    + destruct l as [| z l']; [discriminate |].
      simpl in IH. injection IH as <-.
      rewrite (find_none_all _ _ Hf y (or_introl eq_refl)). reflexivity.
Qed.

Lemma hasRolePermission_unfold st organizationId role permission :
  hasRolePermission st organizationId role permission
  = match find org_is_null
            (filter (candidate organizationId role permission) (role_permissions st)) with
    | Some g => (rp_enabled g =? 1)%Z
    | None =>
        match find (candidate organizationId role permission) (role_permissions st) with
        | Some r => (rp_enabled r =? 1)%Z
        | None => false
        end
    end.
Proof.
  unfold hasRolePermission, permission_rows.
  rewrite first_row_global_first. fold (candidate organizationId role permission).
  destruct (find org_is_null _); [reflexivity |].
  now rewrite first_row_find.
Qed.

(** Among the rows that the query of [hasRolePermission] selects, the
    first global one is the first row of the pair stored for the [null]
    organization. *)
Lemma find_global_candidate organizationId role permission (l : list RolePermission) :
  find org_is_null (filter (candidate organizationId role permission) l)
  = first_row (filter (matches_tuple None role permission) l).
Proof.
  induction l as [| x l IH]; [reflexivity |].
  simpl. unfold candidate, matches_tuple.
  destruct (org_is_null x) eqn:Hnull; simpl.
  - destruct (String.eqb (rp_role x) role && String.eqb (rp_permission x) permission);
      simpl; [now rewrite Hnull | exact IH].
  - destruct (org_equals organizationId x && String.eqb (rp_role x) role
              && String.eqb (rp_permission x) permission);
      simpl; [rewrite Hnull |]; exact IH.
Qed.

(** C2, as the code has it. When an organization-specific row and a global
    row are both stored for (role, permission), [hasRolePermission] called
    with that organization returns the enabled value of a global row of the
    pair, the first one in scan order, and so answers exactly as it does
    for the [null] organization: a global row is preferred and the
    organization-specific row is not consulted. In particular the answer
    is the enabled value of the given global row whenever all global rows
    of the pair carry that value, as when it is the only one. When no row
    matches the query the result is false. *)
Theorem C2_global_row_is_preferred :
  (forall (st : Store) (org role permission : string) (orgRow globalRow : RolePermission),
      In orgRow (role_permissions st) ->
      rp_organization_id orgRow = Some org ->
      rp_role orgRow = role -> rp_permission orgRow = permission ->
      In globalRow (role_permissions st) ->
      rp_organization_id globalRow = None ->
      rp_role globalRow = role -> rp_permission globalRow = permission ->
      (exists g,
          first_row (tuple_rows st None role permission) = Some g
          /\ In g (role_permissions st)
          /\ rp_organization_id g = None
          /\ rp_role g = role /\ rp_permission g = permission
          /\ hasRolePermission st (Some org) role permission = (rp_enabled g =? 1)%Z)
      /\ hasRolePermission st (Some org) role permission
         = hasRolePermission st None role permission
      /\ ((forall g, In g (role_permissions st) -> rp_organization_id g = None ->
                      rp_role g = role -> rp_permission g = permission ->
                      rp_enabled g = rp_enabled globalRow) ->
          hasRolePermission st (Some org) role permission
          = (rp_enabled globalRow =? 1)%Z))
  /\
  (forall (st : Store) (organizationId : option string) (role permission : string),
      (forall r, In r (role_permissions st) ->
                 candidate organizationId role permission r = false) ->
      hasRolePermission st organizationId role permission = false).
Proof.
  split.
  - intros st org role permission orgRow globalRow _ _ _ _ Hin Hnull Hrole Hperm.
    assert (Hglobal : In globalRow (tuple_rows st None role permission)).
    { apply filter_In. split; [assumption |]. unfold matches_tuple, org_is_null.
      rewrite Hnull, Hrole, Hperm. now rewrite !String.eqb_refl. }
    destruct (tuple_rows st None role permission) as [| g rows] eqn:Hrows;
      [contradiction |].
    assert (Hg : In g (tuple_rows st None role permission))
      by (rewrite Hrows; now left).
    apply filter_In in Hg. destruct Hg as [Hgin Hgm].
    unfold matches_tuple in Hgm.
    apply andb_prop in Hgm. destruct Hgm as [Hgm Hgperm].
    apply andb_prop in Hgm. destruct Hgm as [Hgnull Hgrole].
    apply String.eqb_eq in Hgperm, Hgrole.
    assert (Hgorg : rp_organization_id g = None)
      by (unfold org_is_null in Hgnull; now destruct (rp_organization_id g)).
    assert (Hscoped : hasRolePermission st (Some org) role permission
                      = (rp_enabled g =? 1)%Z).
    { rewrite hasRolePermission_unfold, find_global_candidate.
      fold (tuple_rows st None role permission). now rewrite Hrows. }
    assert (Hnullscope : hasRolePermission st None role permission
                         = (rp_enabled g =? 1)%Z).
    { rewrite hasRolePermission_unfold, find_global_candidate.
      fold (tuple_rows st None role permission). now rewrite Hrows. }
    split; [| split].
    + exists g. simpl. tauto.
    + now rewrite Hscoped, Hnullscope.
    + intros Hsame. rewrite Hscoped.
      now rewrite (Hsame g Hgin Hgorg Hgrole Hgperm).
  - intros st organizationId role permission Hnone.
    rewrite hasRolePermission_unfold.
    destruct (find org_is_null _) as [g |] eqn:Hf.
    + apply find_some in Hf. destruct Hf as [Hg _].
      apply filter_In in Hg. destruct Hg as [Hgin Hgc].
      rewrite (Hnone g Hgin) in Hgc. discriminate.
    + destruct (find (candidate organizationId role permission) _) as [r |] eqn:Hf2;
        [| reflexivity].
      apply find_some in Hf2. destruct Hf2 as [Hrin Hrc].
      rewrite (Hnone r Hrin) in Hrc. discriminate.
Qed.

(** In the sample store "editor" has "tasks:view" enabled for "root" and
    disabled globally: the answer for "root" is the global one. After two
    starts "admin" has two global rows for "roles:delete" and, say, a
    disabled row for "root": the answer for "root" is that of the global
    rows. *)
Lemma C2_global_row_is_preferred_witness :
  hasRolePermission acme (Some "root") "editor" "tasks:view" = false
  /\ hasRolePermission
       (set_role_permissions acme_restarted
          (mkRolePermission "rp-r" (Some "root") "admin" "roles:delete" 0
           :: role_permissions acme_restarted))
       (Some "root") "admin" "roles:delete" = true
  /\ hasRolePermission acme (Some "root") "editor" "roles:delete" = false.
Proof.
  split; [| split].
  - apply (proj2 (proj2 (proj1 C2_global_row_is_preferred acme "root" "editor" "tasks:view"
             (mkRolePermission "rp-3" (Some "root") "editor" "tasks:view" 1)
             (mkRolePermission "rp-4" None "editor" "tasks:view" 0)
             ltac:(simpl; tauto) eq_refl eq_refl eq_refl
             ltac:(simpl; tauto) eq_refl eq_refl eq_refl))).
    intros g Hg Hnull Hrole Hperm. simpl in Hg.
    destruct Hg as [<- | [<- | [<- | [<- | [<- | []]]]]];
      simpl in Hnull, Hrole, Hperm; try discriminate; reflexivity.
  - apply (proj2 (proj2 (proj1 C2_global_row_is_preferred
             (set_role_permissions acme_restarted
                (mkRolePermission "rp-r" (Some "root") "admin" "roles:delete" 0
                 :: role_permissions acme_restarted))
             "root" "admin" "roles:delete"
             (mkRolePermission "rp-r" (Some "root") "admin" "roles:delete" 0)
             (mkRolePermission "rp-s1" None "admin" "roles:delete" 1)
             ltac:(simpl; tauto) eq_refl eq_refl eq_refl
             ltac:(simpl; tauto) eq_refl eq_refl eq_refl))).
    intros g Hg Hnull Hrole Hperm. simpl in Hg.
    destruct Hg as [<- | [<- | [<- | [<- | [<- | [<- | [<- | [<- | []]]]]]]]];
      simpl in Hnull, Hrole, Hperm; try discriminate; reflexivity.
  - apply (proj2 C2_global_row_is_preferred acme (Some "root") "editor" "roles:delete").
    intros r Hr. simpl in Hr.
    repeat (destruct Hr as [<- | Hr]; [reflexivity |]). contradiction.
Defined.

(** C2 as stated fails: with both rows stored, the answer is not the
    enabled value of the organization-specific row. *)
Lemma C2_counterexample :
  ~ (forall (st : Store) (org role permission : string) (orgRow globalRow : RolePermission),
        In orgRow (role_permissions st) ->
        rp_organization_id orgRow = Some org ->
        rp_role orgRow = role -> rp_permission orgRow = permission ->
        In globalRow (role_permissions st) ->
        rp_organization_id globalRow = None ->
        rp_role globalRow = role -> rp_permission globalRow = permission ->
        hasRolePermission st (Some org) role permission = (rp_enabled orgRow =? 1)%Z).
Proof.
  intros H.
  specialize (H acme "root" "editor" "tasks:view"
                (mkRolePermission "rp-3" (Some "root") "editor" "tasks:view" 1)
                (mkRolePermission "rp-4" None "editor" "tasks:view" 0)).
  assert (Hfalse : false = true); [| discriminate Hfalse].
  apply H; try reflexivity; simpl; tauto.
Qed.

(** With a [null] organization the query of [hasRolePermission] sees the
    rows of the tuple, in scan order. *)
Lemma hasRolePermission_global st role permission :
  hasRolePermission st None role permission
  = match first_row (tuple_rows st None role permission) with
    | Some row => (rp_enabled row =? 1)%Z
    | None => false
    end.
Proof.
  rewrite hasRolePermission_unfold. unfold tuple_rows.
  assert (Heq : forall l,
             filter (candidate None role permission) l
             = filter (matches_tuple None role permission) l).
  { intros l. apply filter_ext. intros r. unfold candidate, matches_tuple, org_equals.
    now rewrite orb_false_r. }
  rewrite Heq.
  assert (Hfind : forall l,
             find org_is_null (filter (matches_tuple None role permission) l)
             = first_row (filter (matches_tuple None role permission) l)).
  { intros l. induction l as [| x l IH]; [reflexivity |]. simpl.
    destruct (matches_tuple None role permission x) eqn:Hm; [| exact IH].
    simpl. unfold matches_tuple in Hm.
    destruct (org_is_null x); [reflexivity | discriminate]. }
  rewrite Hfind.
  destruct (first_row _) eqn:Hf; [reflexivity |].
  rewrite <- first_row_find, Heq, Hf. reflexivity.
Qed.

Lemma same_scoped_key_matches org role permission r :
  same_scoped_key org role permission r = matches_tuple (Some org) role permission r.
Proof.
  unfold same_scoped_key, matches_tuple, org_equals, opt_eqb.
  destruct (rp_organization_id r); reflexivity.
Qed.

Lemma first_row_none_nil {A} (l : list A) : first_row l = None -> l = [].
Proof. destruct l; [reflexivity | discriminate]. Qed.

(** One call of [setRolePermission]: the store it leaves. *)
Lemma setRolePermission_step st id organizationId role permission enabled :
  tuple_rows st organizationId role permission <> []
  \/ (fresh_permission_id st id /\ known_scope st organizationId) ->
  exists st' rid,
    setRolePermission id organizationId role permission enabled st = (ok rid, st')
    /\ List.length (tuple_rows st' organizationId role permission)
       = Nat.max 1 (List.length (tuple_rows st organizationId role permission))
    /\ option_map rp_enabled (first_row (tuple_rows st' organizationId role permission))
       = Some (if enabled then 1%Z else 0%Z).
Proof.
  intros Hpre.
  unfold setRolePermission, withTransaction, bind, select, run, resolve. simpl.
  fold (tuple_rows st organizationId role permission).
  destruct (tuple_rows st organizationId role permission) as [| row rows] eqn:Hrows; simpl.
  - destruct Hpre as [Hne | [Hfresh Hknown]]; [congruence |].
    unfold insert_role_permission. simpl. unfold fresh_permission_id in Hfresh.
    rewrite Hfresh.
    assert (Hnew : matches_tuple organizationId role permission
              (mkRolePermission id organizationId role permission
                 (if enabled then 1%Z else 0%Z)) = true).
    { unfold matches_tuple, org_is_null, org_equals. simpl.
      destruct organizationId; now rewrite !String.eqb_refl. }
    assert (Hafter : forall v,
       filter (matches_tuple organizationId role permission)
         (role_permissions st ++ [mkRolePermission id organizationId role permission v])
       = [mkRolePermission id organizationId role permission v]).
    { intros v. rewrite filter_app. unfold tuple_rows in Hrows. rewrite Hrows. simpl.
      unfold matches_tuple, org_is_null, org_equals. simpl.
      destruct organizationId; now rewrite !String.eqb_refl. }
    destruct organizationId as [org |].
    + assert (Hnokey : existsb (same_scoped_key org role permission) (role_permissions st) = false).
      { apply not_true_is_false. intros Hex. apply existsb_exists in Hex.
        destruct Hex as [x [Hx Hk]]. rewrite same_scoped_key_matches in Hk.
        assert (Hin : In x (tuple_rows st (Some org) role permission))
          by (apply filter_In; now split).
        rewrite Hrows in Hin. contradiction. }
      rewrite Hnokey. simpl in Hknown. rewrite Hknown. simpl.
      eexists. eexists. split; [reflexivity |].
      unfold tuple_rows. simpl. rewrite Hafter. split; reflexivity.
    + simpl. eexists. eexists. split; [reflexivity |].
      unfold tuple_rows. simpl. rewrite Hafter. split; reflexivity.
  - unfold update_permission_enabled. simpl.
    eexists. eexists. split; [reflexivity |].
    unfold tuple_rows. simpl.
    rewrite filter_map_stable by (intros x; destruct (String.eqb (rp_id x) (rp_id row)); reflexivity).
    unfold tuple_rows in Hrows. rewrite Hrows. simpl.
    rewrite String.eqb_refl. simpl. rewrite length_map. split; reflexivity.
Qed.





(* ================================================================== *)
(** ** Role lifecycle *)
(* ================================================================== *)

Lemma is_set_true (z : Z) : z <> 0%Z -> is_set z = true.
Proof. intros H. unfold is_set. apply Z.eqb_neq in H. now rewrite H. Qed.

Lemma count_users_positive (st : Store) (name : string) :
  (count_users_with_role st name >? 0)%Z = true <->
  exists u, In u (users st) /\ user_role u = name.
Proof.
  unfold count_users_with_role. split.
  - intros H. destruct (filter _ (users st)) as [| u l] eqn:Hf; [discriminate |].
    assert (Hin : In u (filter (fun u => String.eqb (user_role u) name) (users st)))
      by (rewrite Hf; now left).
    apply filter_In in Hin. destruct Hin as [Hin Heq].
    exists u. split; [assumption | now apply String.eqb_eq].
  - intros [u [Hin Heq]].
    assert (Hf : In u (filter (fun u => String.eqb (user_role u) name) (users st))).
    { apply filter_In. split; [assumption | now apply String.eqb_eq]. }
    destruct (filter _ (users st)); [contradiction |]. simpl List.length.
    apply Z.gtb_lt. lia.
Qed.

(** X13. After [ensureSystemRoles] on an empty catalog the three system names
    are flagged, so [deleteRole] refuses each of them and changes nothing. *)
Lemma deleteRole_seeded_system_roles (st st' : Store) (id1 id2 id3 name : string) :
  roles st = [] ->
  id1 <> id2 -> id1 <> id3 -> id2 <> id3 ->
  ensureSystemRoles id1 id2 id3 st = (ok tt, st') ->
  In name [ROLES.OWNER; ROLES.ADMIN; ROLES.VIEWER] ->
  deleteRole name st' = (throw cannot_delete_system_role, st').
Proof.
  intros Hempty H12 H13 H23 Hseed Hname.
  apply String.eqb_neq in H12, H13, H23.
  unfold ensureSystemRoles, bind, run, insert_or_ignore_role in Hseed.
  rewrite Hempty in Hseed. simpl in Hseed.
  rewrite H12 in Hseed. simpl in Hseed.
  rewrite H13, H23 in Hseed. simpl in Hseed.
  injection Hseed as <-.
  unfold deleteRole, getRoleByName. simpl.
  destruct Hname as [<- | [<- | [<- | []]]]; reflexivity.
Qed.

(** C7. [deleteRole] on a name found in the catalog. A row flagged as a
    system role is refused with "Cannot delete system role" and the whole
    store is unchanged. A custom role held by at least one user is refused
    with the error whose code is ROLE_IN_USE, which is not the not-found
    error, and the whole store is unchanged. A custom role held by no user
    is deleted: its catalog row and every permission row of that role go,
    and nothing else changes. *)
Theorem C7_deleteRole_guards (st : Store) (name : string) (existing : Role) :
  getRoleByName st name = Some existing ->
  (role_is_system existing <> 0%Z ->
     deleteRole name st = (throw cannot_delete_system_role, st))
  /\
  (role_is_system existing = 0%Z ->
   (exists u, In u (users st) /\ user_role u = role_name existing) ->
     deleteRole name st = (throw role_in_use, st)
     /\ code role_in_use = Some "ROLE_IN_USE"
     /\ role_in_use <> role_not_found
     /\ role_in_use <> cannot_delete_system_role)
  /\
  (role_is_system existing = 0%Z ->
   (forall u, In u (users st) -> user_role u <> role_name existing) ->
     exists st',
       deleteRole name st = (ok true, st')
       /\ roles st' = filter (fun r => negb (String.eqb (role_id r) (role_id existing))) (roles st)
       /\ role_permissions st'
          = filter (fun r => negb (String.eqb (rp_role r) (role_name existing)))
                   (role_permissions st)
       /\ (forall r, In r (role_permissions st') -> rp_role r <> role_name existing)
       /\ (forall r, In r (roles st') -> role_id r <> role_id existing)
       /\ users st' = users st
       /\ organizations st' = organizations st
       /\ tasks st' = tasks st
       /\ categories st' = categories st
       /\ category_role_access st' = category_role_access st).
Proof.
  intros Hget. unfold deleteRole. rewrite Hget. split; [| split].
  - intros Hsys. now rewrite (is_set_true _ Hsys).
  - intros Hcustom Hused. unfold is_set. rewrite Hcustom. simpl.
    apply count_users_positive in Hused. rewrite Hused.
    repeat split; discriminate.
  - intros Hcustom Hunused. unfold is_set. rewrite Hcustom. simpl.
    destruct (count_users_with_role st (role_name existing) >? 0)%Z eqn:Hc.
    + apply count_users_positive in Hc. destruct Hc as [u [Hin Heq]].
      exfalso. exact (Hunused u Hin Heq).
    + eexists. split; [reflexivity |]. simpl.
      repeat split.
      * intros r Hr. apply filter_In in Hr. destruct Hr as [_ Hr].
        apply negb_true_iff in Hr. now apply String.eqb_neq.
      * intros r Hr. apply filter_In in Hr. destruct Hr as [_ Hr].
        apply negb_true_iff in Hr. now apply String.eqb_neq.
Qed.

(** In the sample store "owner" is a system role, "editor" is held by a
    user, and "guest" is held by nobody and owns one permission row. *)
Lemma C7_deleteRole_witness :
  deleteRole "owner" acme = (throw cannot_delete_system_role, acme)
  /\ deleteRole "Editor" acme = (throw role_in_use, acme)
  /\ exists st', deleteRole "guest" acme = (ok true, st')
       /\ (forall r, In r (role_permissions st') -> rp_role r <> "guest").
Proof.
  split; [| split].
  - apply (proj1 (C7_deleteRole_guards acme "owner"
                    (mkRole "r-owner" "owner" (Some "Full control of the organization") 1)
                    eq_refl)).
    discriminate.
  - apply (proj1 (proj2 (C7_deleteRole_guards acme "Editor"
                    (mkRole "r-editor" "editor" (Some "Edits tasks") 0) eq_refl))).
    + reflexivity.
    + exists eddie. split; [simpl; tauto | reflexivity].
  - destruct (proj2 (proj2 (C7_deleteRole_guards acme "guest"
                    (mkRole "r-guest" "guest" None 0) eq_refl)))
      as [st' [Hrun [_ [_ [Hperm _]]]]].
    + reflexivity.
    + intros u [<- | [<- | [<- | [<- | []]]]]; discriminate.
    + exists st'. split; [exact Hrun | exact Hperm].
Defined.

Lemma Forall2_map_right {A B} (R : A -> B -> Prop) (f : A -> B) (l : list A) :
  (forall x, R x (f x)) -> Forall2 R l (map f l).
Proof. intros H. induction l; simpl; constructor; auto. Qed.

Lemma updateRole_rename_store st st' oldName name description existing newName result :
  getRoleByName st oldName = Some existing ->
  normalized_update_name name = Some newName ->
  truthy newName = true ->
  newName <> role_name existing ->
  updateRole oldName name description st = (ok result, st') ->
  users st' = map (rename_user_role newName (role_name existing)) (users st)
  /\ role_permissions st'
     = map (rename_permission_role newName (role_name existing)) (role_permissions st)
  /\ (forall r', In r' (roles st') -> role_id r' = role_id existing -> role_name r' = newName)
  /\ map role_id (roles st') = map role_id (roles st)
  /\ organizations st' = organizations st /\ tasks st' = tasks st
  /\ categories st' = categories st
  /\ category_role_access st' = category_role_access st.
Proof.
  intros Hget Hname Htruthy Hneq Hrun.
  unfold updateRole in Hrun. rewrite Hget, Hname in Hrun.
  destruct (is_set (role_is_system existing)); [discriminate |].
  apply String.eqb_neq in Hneq.
  unfold truthy_opt, opt_eqb in Hrun. rewrite Htruthy, Hneq in Hrun.
  unfold withTransaction, bind, when, run, select, resolve in Hrun.
  change (true && negb false) with true in Hrun. cbv beta iota in Hrun.
  unfold update_role_name, update_users_role, update_role_permissions_role in Hrun.
  destruct (existsb _ (roles st) && existsb _ (roles st)); [discriminate |].
  simpl in Hrun.
  destruct (rename_collides newName (role_name existing) (role_permissions st));
    [discriminate |].
  assert (Hnamed : forall r', In r'
            (map (fun r => if String.eqb (role_id r) (role_id existing)
                           then mkRole (role_id r) newName (role_description r) (role_is_system r)
                           else r) (roles st)) ->
            role_id r' = role_id existing -> role_name r' = newName).
  { intros r' Hin Hid. apply in_map_iff in Hin. destruct Hin as [r [<- _]].
    destruct (String.eqb (role_id r) (role_id existing)) eqn:E; [reflexivity |].
    apply String.eqb_neq in E. contradiction. }
  assert (Hids : forall l : list Role,
            map role_id (map (fun r => if String.eqb (role_id r) (role_id existing)
                           then mkRole (role_id r) newName (role_description r) (role_is_system r)
                           else r) l) = map role_id l).
  { intros l. rewrite map_map. apply map_ext. intros r.
    now destruct (String.eqb (role_id r) (role_id existing)). }
  destruct description; simpl in Hrun; injection Hrun as _ <-; simpl;
    repeat split; auto.
  all: try (rewrite map_map; rewrite <- (Hids (roles st)); rewrite !map_map;
            apply map_ext; intros r;
            now repeat destruct (String.eqb _ (role_id existing))).
  all: intros r' Hin Hid; apply in_map_iff in Hin; destruct Hin as [r [<- Hr]];
       simpl in Hid |- *;
       destruct (String.eqb (role_id r) (role_id existing)) eqn:E; simpl;
       [apply Hnamed; [exact Hr | now apply String.eqb_eq] |].
  all: apply String.eqb_neq in E; contradiction.
Qed.

Lemma getRoleByName_In st name r : getRoleByName st name = Some r -> In r (roles st).
Proof.
  unfold getRoleByName. rewrite first_row_find. intros H.
  apply find_some in H. tauto.
Qed.

(** C6. A successful [updateRole] that renames a custom role: the catalog
    row (the row with the role's id) bears the new name; the users are the
    same users, those who held the old name now hold the new one and nobody
    holds the old one; the permission rows are the same rows with their
    organization, permission and enabled value, those of the old name now
    carry the new one and none carries the old one. And a call that fails,
    at any statement, leaves the store exactly as it was. *)
Theorem C6_updateRole_rename_all_or_nothing :
  (forall (st st' : Store) (oldName : string) (name description : Nullable)
          (existing : Role) (newName : string) (result : option Role),
      getRoleByName st oldName = Some existing ->
      normalized_update_name name = Some newName ->
      truthy newName = true ->
      newName <> role_name existing ->
      updateRole oldName name description st = (ok result, st') ->
      (exists r', In r' (roles st') /\ role_id r' = role_id existing)
      /\ (forall r', In r' (roles st') -> role_id r' = role_id existing ->
                     role_name r' = newName)
      /\ Forall2 (fun u u' =>
                    user_id u' = user_id u
                    /\ user_role u' = (if String.eqb (user_role u) (role_name existing)
                                       then newName else user_role u))
                 (users st) (users st')
      /\ (forall u', In u' (users st') -> user_role u' <> role_name existing)
      /\ Forall2 (fun r r' =>
                    rp_id r' = rp_id r
                    /\ rp_organization_id r' = rp_organization_id r
                    /\ rp_permission r' = rp_permission r
                    /\ rp_enabled r' = rp_enabled r
                    /\ rp_role r' = (if String.eqb (rp_role r) (role_name existing)
                                     then newName else rp_role r))
                 (role_permissions st) (role_permissions st')
      /\ (forall r', In r' (role_permissions st') -> rp_role r' <> role_name existing))
  /\
  (forall (st st' : Store) (oldName : string) (name description : Nullable) (e : Error),
      updateRole oldName name description st = (throw e, st') -> st' = st).
Proof.
  split.
  - intros st st' oldName name description existing newName result
           Hget Hname Htruthy Hneq Hrun.
    destruct (updateRole_rename_store st st' oldName name description existing newName
                result Hget Hname Htruthy Hneq Hrun)
      as [Husers [Hperms [Hnamed [Hids _]]]].
    repeat split.
    + assert (Hin : In (role_id existing) (map role_id (roles st')))
        by (rewrite Hids; apply in_map; exact (getRoleByName_In _ _ _ Hget)).
      apply in_map_iff in Hin. destruct Hin as [r' [Hid Hr']]. now exists r'.
    + exact Hnamed.
    + rewrite Husers. apply Forall2_map_right. intros u. unfold rename_user_role.
      destruct (String.eqb (user_role u) (role_name existing)); now split.
    + intros u' Hin. rewrite Husers in Hin. apply in_map_iff in Hin.
      destruct Hin as [u [<- _]]. unfold rename_user_role.
      destruct (String.eqb (user_role u) (role_name existing)) eqn:E; simpl.
      * exact Hneq.
      * now apply String.eqb_neq.
    + rewrite Hperms. apply Forall2_map_right. intros r. unfold rename_permission_role.
      destruct (String.eqb (rp_role r) (role_name existing)); repeat split.
    + intros r' Hin. rewrite Hperms in Hin. apply in_map_iff in Hin.
      destruct Hin as [r [<- _]]. unfold rename_permission_role.
      destruct (String.eqb (rp_role r) (role_name existing)) eqn:E; simpl.
      * exact Hneq.
      * now apply String.eqb_neq.
  - intros st st' oldName name description e Hrun.
    unfold updateRole in Hrun.
    destruct (getRoleByName st oldName) as [existing |];
      [| unfold reject in Hrun; now injection Hrun].
    destruct (is_set (role_is_system existing));
      [unfold reject in Hrun; now injection Hrun |].
    unfold withTransaction in Hrun.
    match type of Hrun with
    | (let (_, _) := ?body in _) = _ => destruct body as [[e1 | a] st1]
    end.
    + now injection Hrun.
    + discriminate.
Qed.

(** Renaming "editor" to "contributor" in the sample store, where one user
    holds "editor" and three permission rows reference it; renaming it to
    "admin" fails on the catalog's UNIQUE(name) and changes nothing. *)
Lemma C6_updateRole_rename_witness :
  let st' := snd (updateRole "editor" (str " Contributor ") undefined acme) in
  (forall u', In u' (users st') -> user_role u' <> "editor")
  /\ (forall r', In r' (role_permissions st') -> rp_role r' <> "editor")
  /\ snd (updateRole "editor" (str "Admin") undefined acme) = acme.
Proof.
  intros st'.
  assert (Hrun : updateRole "editor" (str " Contributor ") undefined acme
                 = (ok (Some (mkRole "r-editor" "contributor" (Some "Edits tasks") 0)), st'))
    by (vm_compute; reflexivity).
  destruct (proj1 C6_updateRole_rename_all_or_nothing acme st' "editor"
              (str " Contributor ") undefined
              (mkRole "r-editor" "editor" (Some "Edits tasks") 0) "contributor" _
              eq_refl eq_refl eq_refl ltac:(discriminate) Hrun)
    as [_ [_ [_ [Hu [_ Hp]]]]].
  split; [exact Hu | split; [exact Hp |]].
  apply (proj2 C6_updateRole_rename_all_or_nothing acme _ "editor" (str "Admin") undefined
           (constraint_failed "UNIQUE constraint failed: roles.name")).
  vm_compute. reflexivity.
Defined.

(* ================================================================== *)
(** ** Category access *)
(* ================================================================== *)

Lemma insert_row_In {A} (leb : A -> A -> bool) (x y : A) (l : list A) :
  In y (insert_row leb x l) <-> y = x \/ In y l.
Proof.
  induction l as [| z l IH]; simpl.
  - intuition.
  - destruct (leb x z); simpl; [intuition |]. rewrite IH. intuition.
Qed.

Lemma order_by_In {A} (leb : A -> A -> bool) (y : A) (l : list A) :
  In y (order_by leb l) <-> In y l.
Proof.
  induction l as [| x l IH]; simpl; [tauto |].
  rewrite insert_row_In, IH. intuition.
Qed.

Lemma filter_nil_iff {A} (p : A -> bool) (l : list A) :
  filter p l = [] <-> forall x, In x l -> p x = false.
Proof.
  induction l as [| a l IH]; simpl.
  - split; [intros _ x [] | reflexivity].
  - destruct (p a) eqn:E.
    + split; [discriminate |]. intros H. specialize (H a (or_introl eq_refl)). congruence.
    + rewrite IH. split.
      * intros H x [<- | Hx]; [assumption | now apply H].
      * intros H x Hx. apply H. now right.
Qed.

(** The rows a category contributes to the join, and whether one of them
    passes the [WHERE] clause. *)
Lemma left_join_access_visible st orgIds role c :
  (exists row, In row (left_join_access st role c)
               /\ accessible_row orgIds row = true)
  <->
  In (cat_organization_id c) orgIds
  /\ (((forall a, In a (category_role_access st) -> cra_category_id a <> cat_id c)
       /\ cat_is_system c = 1%Z)
      \/ (exists a, In a (category_role_access st)
                    /\ cra_category_id a = cat_id c /\ cra_role a = role)).
Proof.
  unfold left_join_access.
  destruct (filter (fun r => String.eqb (cra_category_id r) (cat_id c)
                             && String.eqb (cra_role r) role)
                   (category_role_access st)) as [| m ms] eqn:Hm.
  - assert (Hnomatch : ~ exists a, In a (category_role_access st)
                         /\ cra_category_id a = cat_id c /\ cra_role a = role).
    { intros [a [Ha [Hc Hr]]].
      pose proof (proj1 (filter_nil_iff _ _) Hm a Ha) as Hf. cbv beta in Hf.
      rewrite Hc, Hr, !String.eqb_refl in Hf. discriminate. }
    assert (Hcount : access_count st c = None <->
              forall a, In a (category_role_access st) -> cra_category_id a <> cat_id c).
    { unfold access_count.
      destruct (filter (fun r => String.eqb (cra_category_id r) (cat_id c))
                       (category_role_access st)) as [| x xs] eqn:Hx.
      - split; [| reflexivity]. intros _ a Ha.
        apply String.eqb_neq. exact (proj1 (filter_nil_iff _ _) Hx a Ha).
      - split; [discriminate |]. intros H. exfalso.
        assert (Hin : In x (filter (fun r => String.eqb (cra_category_id r) (cat_id c))
                              (category_role_access st))) by (rewrite Hx; now left).
        apply filter_In in Hin. destruct Hin as [Hin Heq].
        apply String.eqb_eq in Heq. exact (H x Hin Heq). }
    split.
    + intros [row [[<- | []] Hacc]]. simpl in Hacc.
      apply andb_prop in Hacc. destruct Hacc as [Hin Hrest].
      rewrite orb_false_r in Hrest. apply andb_prop in Hrest.
      destruct Hrest as [Hcnt Hsys].
      split; [now apply includes_In |]. left. split.
      * apply Hcount. now destruct (access_count st c).
      * now apply Z.eqb_eq.
    + intros [Hin [[Hnone Hsys] | Hex]]; [| contradiction].
      exists (c, access_count st c, None). split; [now left |]. simpl.
      apply Hcount in Hnone. rewrite Hnone.
      apply includes_In in Hin. unfold IN. rewrite Hin.
      apply Z.eqb_eq in Hsys. now rewrite Hsys.
  - assert (Hmatch : In m (category_role_access st)
                     /\ cra_category_id m = cat_id c /\ cra_role m = role).
    { assert (Hin : In m (filter (fun r => String.eqb (cra_category_id r) (cat_id c)
                             && String.eqb (cra_role r) role) (category_role_access st)))
        by (rewrite Hm; now left).
      apply filter_In in Hin. destruct Hin as [Hin Heq].
      apply andb_prop in Heq. destruct Heq as [H1 H2].
      apply String.eqb_eq in H1, H2. tauto. }
    split.
    + intros [row [Hrow Hacc]]. apply in_map_iff in Hrow.
      destruct Hrow as [a [<- _]]. simpl in Hacc.
      apply andb_prop in Hacc. destruct Hacc as [Hin _].
      split; [now apply includes_In |]. right. now exists m.
    + intros [Hin _]. exists (c, access_count st c, Some m).
      split; [now left |]. simpl. apply includes_In in Hin. unfold IN. rewrite Hin.
      now rewrite orb_true_r.
Qed.

Lemma left_join_access_fst st role c row :
  In row (left_join_access st role c) -> fst (fst row) = c.
Proof.
  unfold left_join_access. destruct (filter _ _) as [| m ms].
  - intros [<- | []]. reflexivity.
  - intros H. apply in_map_iff in H. destruct H as [a [<- _]]. reflexivity.
Qed.

(** C4. [listAccessibleCategoriesForRole] resolves, leaves the store as it
    is, and lists exactly the stored categories whose organization is in
    [orgIds] and that either have no access row and are system categories,
    or have an access row for the role. A non-system category without
    access rows is listed for no role, and an empty [orgIds] gives the
    empty list. *)
Theorem C4_listAccessibleCategoriesForRole_filter :
  (forall (st : Store) (orgIds : list string) (role : string),
      exists cats,
        listAccessibleCategoriesForRole orgIds role st = (ok cats, st)
        /\ forall c,
             In c cats <->
             In c (categories st)
             /\ In (cat_organization_id c) orgIds
             /\ (((forall a, In a (category_role_access st) ->
                             cra_category_id a <> cat_id c)
                  /\ cat_is_system c = 1%Z)
                 \/ (exists a, In a (category_role_access st)
                               /\ cra_category_id a = cat_id c /\ cra_role a = role)))
  /\
  (forall (st st' : Store) (orgIds : list string) (role : string)
          (cats : list Category) (c : Category),
      listAccessibleCategoriesForRole orgIds role st = (ok cats, st') ->
      cat_is_system c <> 1%Z ->
      (forall a, In a (category_role_access st) -> cra_category_id a <> cat_id c) ->
      ~ In c cats)
  /\
  (forall (st : Store) (role : string),
      listAccessibleCategoriesForRole [] role st = (ok [], st)).
Proof.
  assert (Hmain : forall (st : Store) (orgIds : list string) (role : string),
      exists cats,
        listAccessibleCategoriesForRole orgIds role st = (ok cats, st)
        /\ forall c,
             In c cats <->
             In c (categories st)
             /\ In (cat_organization_id c) orgIds
             /\ (((forall a, In a (category_role_access st) ->
                             cra_category_id a <> cat_id c)
                  /\ cat_is_system c = 1%Z)
                 \/ (exists a, In a (category_role_access st)
                               /\ cra_category_id a = cat_id c /\ cra_role a = role))).
  { intros st orgIds role. unfold listAccessibleCategoriesForRole.
    destruct orgIds as [| o orgIds'].
    - exists []. split; [reflexivity |]. intros c. simpl. tauto.
    - eexists. split; [reflexivity |]. intros c.
      set (orgIds := o :: orgIds').
      rewrite order_by_In, in_map_iff. split.
      + intros [row [Hfst Hrow]]. apply filter_In in Hrow. destruct Hrow as [Hrow Hacc].
        apply in_flat_map in Hrow. destruct Hrow as [c0 [Hc0 Hrow]].
        pose proof (left_join_access_fst _ _ _ _ Hrow) as Hc. rewrite Hfst in Hc. subst c0.
        split; [assumption |].
        apply (left_join_access_visible st orgIds role c). now exists row.
      + intros [Hc Hvis].
        apply (left_join_access_visible st orgIds role c) in Hvis.
        destruct Hvis as [row [Hrow Hacc]]. exists row. split.
        * exact (left_join_access_fst _ _ _ _ Hrow).
        * apply filter_In. split; [| assumption].
          apply in_flat_map. now exists c. }
  split; [exact Hmain | split].
  - intros st st' orgIds role cats c Hrun Hcustom Hnone Hin.
    destruct (Hmain st orgIds role) as [cats' [Hrun' Hiff]].
    rewrite Hrun' in Hrun. injection Hrun as <- _.
    apply Hiff in Hin. destruct Hin as [_ [_ [[_ Hsys] | [a [Ha [Hc _]]]]]].
    + contradiction.
    + exact (Hnone a Ha Hc).
  - reflexivity.
Qed.

(** In the sample store "Secret" is a custom category without access rows:
    the viewer of "root" does not see it. *)
Lemma C4_listAccessibleCategoriesForRole_witness :
  ~ In (mkCategory "c-secret" "root" "Secret" 0 30)
       (match fst (listAccessibleCategoriesForRole ["root"] "viewer" acme) with
        | inr cats => cats
        | inl _ => []
        end).
Proof.
  apply (proj1 (proj2 C4_listAccessibleCategoriesForRole_filter)
           acme acme ["root"] "viewer" _ (mkCategory "c-secret" "root" "Secret" 0 30)).
  - vm_compute. reflexivity.
  - discriminate.
  - intros a [<- | [<- | []]]; discriminate.
Defined.

(** *** Ordering *)

Section OrderByFacts.
Context {A : Type} (leb : A -> A -> bool).
Hypothesis leb_total : forall a b, leb a b = true \/ leb b a = true.

Lemma insert_row_HdRel (a x : A) (l : list A) :
  not_after leb a x -> HdRel (not_after leb) a l ->
  HdRel (not_after leb) a (insert_row leb x l).
Proof.
  intros Hax Hal. destruct l as [| y l]; simpl.
  - now constructor.
  - destruct (leb x y); constructor; [assumption |].
    now apply HdRel_inv in Hal.
Qed.

Lemma insert_row_Sorted (x : A) (l : list A) :
  Sorted (not_after leb) l -> Sorted (not_after leb) (insert_row leb x l).
Proof.
  induction l as [| y l IH]; intros Hs; simpl.
  - repeat constructor.
  - apply Sorted_inv in Hs. destruct Hs as [Hs Hhd].
    destruct (leb x y) eqn:E.
    + constructor; [now constructor |]. now constructor.
    + constructor; [now apply IH |].
      apply insert_row_HdRel; [| assumption].
      destruct (leb_total x y) as [H | H]; [congruence | exact H].
Qed.

Lemma order_by_Sorted (l : list A) : Sorted (not_after leb) (order_by leb l).
Proof.
  induction l as [| x l IH]; simpl; [constructor |].
  now apply insert_row_Sorted.
Qed.
End OrderByFacts.

Lemma insert_row_Permutation {A} (leb : A -> A -> bool) (x : A) (l : list A) :
  Permutation (insert_row leb x l) (x :: l).
Proof.
  induction l as [| y l IH]; simpl; [reflexivity |].
  destruct (leb x y); [reflexivity |].
  rewrite IH. apply perm_swap.
Qed.

Lemma order_by_Permutation {A} (leb : A -> A -> bool) (l : list A) :
  Permutation (order_by leb l) l.
Proof.
  induction l as [| x l IH]; simpl; [reflexivity |].
  rewrite insert_row_Permutation. now constructor.
Qed.

(** Sorting rows by a key and then projecting the key is sorting the keys. *)
Lemma order_by_map {A B} (f : A -> B) (leb : B -> B -> bool) (l : list A) :
  map f (order_by (fun a b => leb (f a) (f b)) l) = order_by leb (map f l).
Proof.
  induction l as [| x l IH]; simpl; [reflexivity |].
  rewrite <- IH. generalize (order_by (fun a b => leb (f a) (f b)) l) as s.
  induction s as [| y s IHs]; simpl; [reflexivity |].
  destruct (leb (f x) (f y)); simpl; [reflexivity | now rewrite IHs].
Qed.

(** *** [uniqueRoles] *)

Lemma truthy_nonempty (s : string) : truthy s = true <-> s <> "".
Proof. destruct s; simpl; split; congruence. Qed.

Lemma set_add_NoDup (s : StrSet) (x : string) : NoDup s -> NoDup (set_add s x).
Proof.
  intros Hs. unfold set_add. destruct (set_has s x) eqn:E; [assumption |].
  apply NoDup_app; [assumption | repeat constructor; intros [] |].
  intros y Hy [<- | []]. apply set_has_In in Hy. congruence.
Qed.

Lemma fold_set_add_NoDup (l : list string) (s : StrSet) :
  NoDup s -> NoDup (fold_left set_add l s).
Proof.
  revert s. induction l as [| x l IH]; intros s Hs; simpl; [assumption |].
  apply IH. now apply set_add_NoDup.
Qed.

Lemma uniqueRoles_NoDup (roles : list string) : NoDup (uniqueRoles roles).
Proof. apply fold_set_add_NoDup. constructor. Qed.

Lemma uniqueRoles_In (roles : list string) (x : string) :
  In x (uniqueRoles roles) <->
  x <> "" /\ exists r, In r roles /\ x = toLowerCase (trim r).
Proof.
  unfold uniqueRoles, set_of_list.
  rewrite (fold_set_add_In (fun a => a)
             (filter truthy (map (fun r => toLowerCase (trim r)) roles)) [] x).
  rewrite map_id, filter_In, in_map_iff, truthy_nonempty. simpl. split.
  - intros [[] | [[r [<- Hr]] Hne]]. split; [assumption |]. now exists r.
  - intros [Hne [r [Hr ->]]]. right. split; [now exists r | assumption].
Qed.

(** *** [setCategoryRoleAccess] *)

Lemma access_rows_from_cons uuid i categoryId role rest :
  access_rows_from uuid i categoryId (role :: rest)
  = mkCategoryRoleAccess (uuid i) categoryId role
    :: access_rows_from uuid (S i) categoryId rest.
Proof. reflexivity. Qed.

Lemma access_rows_from_roles uuid i categoryId rs :
  map cra_role (access_rows_from uuid i categoryId rs) = rs.
Proof.
  revert i. induction rs as [| r rs IH]; intros i; [reflexivity |].
  rewrite access_rows_from_cons. simpl. now rewrite IH.
Qed.

Lemma access_rows_from_category uuid i categoryId rs x :
  In x (access_rows_from uuid i categoryId rs) -> cra_category_id x = categoryId.
Proof.
  unfold access_rows_from. intros H. apply in_map_iff in H.
  destruct H as [p [<- _]]. reflexivity.
Qed.

(** The insertion loop succeeds when the category is stored, the roles are
    pairwise distinct and not yet granted, and the ids drawn are new. *)
Lemma insert_access_rows_ok uuid categoryId rs :
  forall i st,
    NoDup rs ->
    existsb (fun c => String.eqb (cat_id c) categoryId) (categories st) = true ->
    (forall x, In x (category_role_access st) ->
               cra_category_id x = categoryId -> ~ In (cra_role x) rs) ->
    (forall k x, k < List.length rs -> In x (category_role_access st) ->
                 cra_id x <> uuid (i + k)) ->
    (forall j k, j < List.length rs -> k < List.length rs -> j <> k ->
                 uuid (i + j) <> uuid (i + k)) ->
    insert_access_rows uuid i categoryId rs st
    = (ok tt, set_category_role_access st
                (category_role_access st ++ access_rows_from uuid i categoryId rs)).
Proof.
  induction rs as [| role rest IH]; intros i st Hnd Hcat Hnew Hfresh Hinj.
  - simpl. unfold resolve, access_rows_from. simpl. rewrite List.app_nil_r.
    now destruct st.
  - simpl insert_access_rows. unfold bind, run, insert_category_access. simpl.
    assert (Hid : existsb (fun x => String.eqb (cra_id x) (uuid i))
                    (category_role_access st) = false).
    { apply not_true_is_false. intros H. apply existsb_exists in H.
      destruct H as [x [Hx Heq]]. apply String.eqb_eq in Heq.
      apply (Hfresh 0 x); [simpl; lia | assumption |].
      now rewrite Nat.add_0_r. }
    assert (Hkey : existsb (fun x => String.eqb (cra_category_id x) categoryId
                                     && String.eqb (cra_role x) role)
                     (category_role_access st) = false).
    { apply not_true_is_false. intros H. apply existsb_exists in H.
      destruct H as [x [Hx Heq]]. apply andb_prop in Heq. destruct Heq as [Hc Hr].
      apply String.eqb_eq in Hc, Hr.
      apply (Hnew x Hx Hc). rewrite Hr. now left. }
    rewrite Hid, Hkey, Hcat. simpl.
    inversion Hnd as [| ? ? Hnotin Hnd']; subst.
    rewrite IH; try assumption.
    + simpl. rewrite access_rows_from_cons, <- app_assoc. reflexivity.
    + simpl. intros x Hx Hc Hin. apply in_app_iff in Hx. destruct Hx as [Hx | [<- | []]].
      * apply (Hnew x Hx Hc). now right.
      * simpl in Hin. contradiction.
    + simpl. intros k x Hk Hx. apply in_app_iff in Hx. destruct Hx as [Hx | [<- | []]].
      * replace (S (i + k)) with (i + S k) by lia. apply Hfresh; [simpl; lia | assumption].
      * simpl. replace (S (i + k)) with (i + S k) by lia.
        replace i with (i + 0) at 1 by lia.
        apply Hinj; simpl; lia.
    + intros j k Hj Hk Hjk. simpl.
      replace (S (i + j)) with (i + S j) by lia.
      replace (S (i + k)) with (i + S k) by lia.
      apply Hinj; simpl; lia.
Qed.

Lemma filter_all {A} (p : A -> bool) (l : list A) :
  (forall x, In x l -> p x = true) -> filter p l = l.
Proof.
  induction l as [| x l IH]; intros H; simpl; [reflexivity |].
  rewrite (H x (or_introl eq_refl)). f_equal. apply IH. intros y Hy. apply H. now right.
Qed.

Lemma filter_filter_negb {A} (p : A -> bool) (l : list A) :
  filter p (filter (fun x => negb (p x)) l) = [].
Proof.
  apply filter_nil_iff. intros x Hx. apply filter_In in Hx.
  destruct Hx as [_ Hx]. now apply negb_true_iff.
Qed.

(** One call of [setCategoryRoleAccess] on a stored category. *)
Lemma setCategoryRoleAccess_spec (st : Store) (uuid : nat -> string)
    (categoryId : string) (roles : list string) :
  existsb (fun c => String.eqb (cat_id c) categoryId) (categories st) = true ->
  fresh_access_ids st categoryId uuid (List.length (uniqueRoles roles)) ->
  exists st',
    setCategoryRoleAccess uuid categoryId roles st
    = (ok (order_by string_leb (uniqueRoles roles)), st')
    /\ stored_roles st' categoryId = uniqueRoles roles
    /\ listCategoryRoleAccess st' categoryId = order_by string_leb (uniqueRoles roles)
    /\ other_access_rows st' categoryId = other_access_rows st categoryId
    /\ categories st' = categories st.
Proof.
  intros Hcat [Hfresh Hinj].
  set (rs := uniqueRoles roles) in *.
  set (st1 := set_category_role_access st (other_access_rows st categoryId)).
  assert (Hloop : insert_access_rows uuid 0 categoryId rs st1
                  = (ok tt, set_category_role_access st1
                              (category_role_access st1
                               ++ access_rows_from uuid 0 categoryId rs))).
  { apply insert_access_rows_ok.
    - apply uniqueRoles_NoDup.
    - exact Hcat.
    - intros x Hx Hc. simpl in Hx. apply filter_In in Hx. destruct Hx as [_ Hx].
      apply negb_true_iff, String.eqb_neq in Hx. contradiction.
    - intros k x Hk Hx. simpl in Hx. apply filter_In in Hx. destruct Hx as [Hx Hne].
      apply negb_true_iff, String.eqb_neq in Hne. simpl. now apply Hfresh.
    - intros j k Hj Hk Hjk. simpl. now apply Hinj. }
  assert (Hmine : filter (fun r => String.eqb (cra_category_id r) categoryId)
                    (other_access_rows st categoryId
                     ++ access_rows_from uuid 0 categoryId rs)
                  = access_rows_from uuid 0 categoryId rs).
  { rewrite filter_app. unfold other_access_rows.
    rewrite (filter_filter_negb (fun r => String.eqb (cra_category_id r) categoryId)).
    simpl. apply filter_all. intros x Hx.
    apply String.eqb_eq. exact (access_rows_from_category _ _ _ _ _ Hx). }
  assert (Hothers : filter (fun r => negb (String.eqb (cra_category_id r) categoryId))
                    (other_access_rows st categoryId
                     ++ access_rows_from uuid 0 categoryId rs)
                    = other_access_rows st categoryId).
  { rewrite filter_app.
    assert (H1 : filter (fun r => negb (String.eqb (cra_category_id r) categoryId))
                   (other_access_rows st categoryId) = other_access_rows st categoryId).
    { apply filter_all. intros x Hx. apply filter_In in Hx. tauto. }
    assert (H2 : filter (fun r => negb (String.eqb (cra_category_id r) categoryId))
                   (access_rows_from uuid 0 categoryId rs) = []).
    { apply filter_nil_iff. intros x Hx. apply negb_false_iff, String.eqb_eq.
      exact (access_rows_from_category _ _ _ _ _ Hx). }
    rewrite H1, H2. apply List.app_nil_r. }
  assert (Hlist : map cra_role
                    (order_by (fun a b => string_leb (cra_role a) (cra_role b))
                       (access_rows_from uuid 0 categoryId rs))
                  = order_by string_leb rs).
  { rewrite (order_by_map cra_role string_leb), access_rows_from_roles. reflexivity. }
  eexists. split; [| split; [| split; [| split]]].
  - unfold setCategoryRoleAccess, withTransaction, bind.
    fold rs. unfold run at 1, delete_category_access. simpl.
    fold (other_access_rows st categoryId). fold st1.
    rewrite Hloop. unfold select. simpl.
    unfold listCategoryRoleAccess. simpl. rewrite Hmine, Hlist. reflexivity.
  - unfold stored_roles. simpl. rewrite Hmine. apply access_rows_from_roles.
  - unfold listCategoryRoleAccess. simpl. rewrite Hmine. exact Hlist.
  - unfold other_access_rows at 1. simpl. exact Hothers.
  - reflexivity.
Qed.

(** C10. On a stored category, and with ids that are new, a call of
    [setCategoryRoleAccess] resolves and replaces the category's access
    rows: the roles stored for it afterwards are exactly [uniqueRoles]
    of the input, that is the pairwise distinct, non-empty, trimmed and
    lowercased entries, whatever rows existed before; the rows of the other
    categories are untouched; the list returned is that set in ascending
    order; and a second call with the same list returns the same list and
    stores the same roles. *)
Theorem C10_setCategoryRoleAccess_replaces_access
    (st : Store) (uuid : nat -> string) (categoryId : string) (roles : list string) :
  existsb (fun c => String.eqb (cat_id c) categoryId) (categories st) = true ->
  fresh_access_ids st categoryId uuid (List.length (uniqueRoles roles)) ->
  exists st' returned,
    setCategoryRoleAccess uuid categoryId roles st = (ok returned, st')
    /\ stored_roles st' categoryId = uniqueRoles roles
    /\ NoDup (uniqueRoles roles)
    /\ (forall x, In x (uniqueRoles roles) <->
                  x <> "" /\ exists r, In r roles /\ x = toLowerCase (trim r))
    /\ other_access_rows st' categoryId = other_access_rows st categoryId
    /\ returned = listCategoryRoleAccess st' categoryId
    /\ Permutation returned (uniqueRoles roles)
    /\ Sorted (not_after String.leb) returned
    /\ (forall uuid2,
          fresh_access_ids st' categoryId uuid2 (List.length (uniqueRoles roles)) ->
          exists st'',
            setCategoryRoleAccess uuid2 categoryId roles st' = (ok returned, st'')
            /\ stored_roles st'' categoryId = stored_roles st' categoryId
            /\ other_access_rows st'' categoryId = other_access_rows st' categoryId).
Proof.
  intros Hcat Hfresh.
  destruct (setCategoryRoleAccess_spec st uuid categoryId roles Hcat Hfresh)
    as [st' [Hrun [Hstored [Hlist [Hothers Hcats]]]]].
  exists st', (order_by string_leb (uniqueRoles roles)).
  split; [exact Hrun |].
  split; [exact Hstored |].
  split; [apply uniqueRoles_NoDup |].
  split; [intros x; apply uniqueRoles_In |].
  split; [exact Hothers |].
  split; [now rewrite Hlist |].
  split; [apply order_by_Permutation |].
  split.
  - apply (order_by_Sorted string_leb). intros a b. apply String.leb_total.
  - intros uuid2 Hfresh2.
    assert (Hcat' : existsb (fun c => String.eqb (cat_id c) categoryId) (categories st') = true)
      by (now rewrite Hcats).
    destruct (setCategoryRoleAccess_spec st' uuid2 categoryId roles Hcat' Hfresh2)
      as [st'' [Hrun2 [Hstored2 [_ [Hothers2 _]]]]].
    exists st''. repeat split; [exact Hrun2 | congruence | exact Hothers2].
Qed.

(** In the sample store "Launch" is granted to "editor" and "admin";
    setting [" Admin"; "viewer"; "ADMIN"; "  "; "guest"] stores "admin",
    "viewer" and "guest" and returns them in ascending order. *)
Lemma C10_setCategoryRoleAccess_witness :
  exists st',
    setCategoryRoleAccess (sample_uuid "a-new-") "c-launch"
      [" Admin"; "viewer"; "ADMIN"; "  "; "guest"] acme
    = (ok ["admin"; "guest"; "viewer"], st')
    /\ stored_roles st' "c-launch" = ["admin"; "viewer"; "guest"].
Proof.
  destruct (C10_setCategoryRoleAccess_replaces_access acme (sample_uuid "a-new-")
              "c-launch" [" Admin"; "viewer"; "ADMIN"; "  "; "guest"])
    as [st' [returned [Hrun [Hstored _]]]].
  - reflexivity.
  - split.
    + intros k x _ [<- | [<- | []]] Hne; exfalso; now apply Hne.
    + intros j k Hj Hk Hjk. change (List.length _) with 3 in Hj, Hk.
      destruct j as [| [| [| j]]]; destruct k as [| [| [| k]]];
        try lia; discriminate.
  - exists st'. split; [| exact Hstored].
    rewrite Hrun. f_equal. f_equal.
    assert (H : fst (setCategoryRoleAccess (sample_uuid "a-new-") "c-launch"
                       [" Admin"; "viewer"; "ADMIN"; "  "; "guest"] acme)
                = ok ["admin"; "guest"; "viewer"]) by (vm_compute; reflexivity).
    rewrite Hrun in H. simpl in H. unfold ok in H. now injection H.
Defined.

(* ================================================================== *)
(** ** Task listing *)
(* ================================================================== *)

Lemma listTasksForOrganizations_resolves orgIds filters st :
  exists rows, listTasksForOrganizations orgIds filters st = (ok rows, st).
Proof.
  unfold listTasksForOrganizations. destruct orgIds; eexists; reflexivity.
Qed.

Lemma listAccessibleCategoriesForRole_resolves orgIds role st :
  exists cats, listAccessibleCategoriesForRole orgIds role st = (ok cats, st).
Proof.
  unfold listAccessibleCategoriesForRole. destruct orgIds; eexists; reflexivity.
Qed.

Lemma sanitizeTask_id (t : TaskRow) : TaskRoutes.sanitizeTask t = t.
Proof. now destruct t. Qed.

(** What the handler of [GET /tasks] sends to a user: every row passed the
    creator test of the Personal category. *)
Lemma list_tasks_personal (st st' : Store) (req : Request) (user : User)
    (listing : list TaskRow) :
  req_user req = Some user ->
  TaskRoutes.list_tasks req st = (send listing, st') ->
  forall t, In t listing -> category t = "Personal" ->
            createdBy t = Some (user_id user).
Proof.
  intros Hu Hrun t Hin Hcat.
  unfold TaskRoutes.list_tasks, handle, bind in Hrun. rewrite Hu in Hrun.
  destruct (listTasksForOrganizations_resolves (req_orgScope req)
              (TaskRoutes.normalizeTaskFilters (query req)) st) as [rows Hrows].
  rewrite Hrows in Hrun.
  assert (Hkept : forall rows', In t (map TaskRoutes.sanitizeTask
             (filter (fun t0 => String.eqb (category t0) "Personal"
                                || set_has rows' (category t0))
               (filter (fun t0 => if String.eqb (category t0) "Personal"
                                  then opt_eqb (createdBy t0) (Some (user_id user))
                                  else true) rows))) ->
           createdBy t = Some (user_id user)).
  { intros rows' H. apply in_map_iff in H. destruct H as [t0 [Heq H]].
    rewrite sanitizeTask_id in Heq. subst t0.
    apply filter_In in H. destruct H as [H _].
    apply filter_In in H. destruct H as [_ H].
    rewrite Hcat in H. simpl in H. unfold opt_eqb in H.
    destruct (createdBy t) as [c |]; [| discriminate].
    apply String.eqb_eq in H. now subst. }
  destruct (negb (String.eqb (user_role user) "owner")).
  - destruct (listAccessibleCategoriesForRole_resolves (req_orgScope req)
                (user_role user) st) as [cats Hcats].
    rewrite Hcats in Hrun. unfold resolve in Hrun. simpl in Hrun.
    injection Hrun as <- _. exact (Hkept _ Hin).
  - unfold resolve in Hrun. simpl in Hrun. injection Hrun as <- _.
    apply in_map_iff in Hin. destruct Hin as [t0 [Heq H]].
    rewrite sanitizeTask_id in Heq. subst t0.
    apply filter_In in H. destruct H as [_ H].
    rewrite Hcat in H. simpl in H. unfold opt_eqb in H.
    destruct (createdBy t) as [c |]; [| discriminate].
    apply String.eqb_eq in H. now subst.
Qed.

(** C5. Let A and B be two users with distinct ids and let B, holding any
    role, request the task listing. Whenever the route sends a listing,
    every Personal task in it was created by B; so no Personal task created
    by A is in it, and in particular no stored Personal task of A. *)
Theorem C5_personal_task_hidden_from_other_users
    (st st' : Store) (req : Request) (A B : User) (listing : list TaskRow) :
  user_id A <> user_id B ->
  req_user req = Some B ->
  TaskRoutes.get_tasks req st = (send listing, st') ->
  (forall t, In t listing -> category t = "Personal" ->
             createdBy t = Some (user_id B) /\ createdBy t <> Some (user_id A))
  /\
  (forall task, In task (tasks st) ->
                task_category task = "Personal" ->
                task_created_by task = Some (user_id A) ->
                ~ In (task_row st task) listing).
Proof.
  intros Hdistinct Hu Hrun.
  assert (Hmine : forall t, In t listing -> category t = "Personal" ->
                            createdBy t = Some (user_id B)).
  { unfold TaskRoutes.get_tasks in Hrun.
    destruct (TaskRoutes.guard "tasks:view" req st) as [[| e | s e p | body] st1];
      try discriminate; [| destruct body].
    exact (list_tasks_personal st1 st' req B listing Hu Hrun). }
  split.
  - intros t Hin Hcat. pose proof (Hmine t Hin Hcat) as Hb.
    split; [assumption |]. rewrite Hb. intros Heq. injection Heq as Heq.
    now apply Hdistinct.
  - intros task _ Hcat Hby Hin.
    pose proof (Hmine (task_row st task) Hin Hcat) as Hb. simpl in Hb.
    rewrite Hby in Hb. injection Hb as Hb. now apply Hdistinct.
Qed.

(** In the sample store Avery created the Personal task "t-2"; the owner
    Olivia, scoped to every organization, gets a listing without it. *)
Lemma C5_personal_task_hidden_witness :
  exists listing,
    TaskRoutes.get_tasks (request_of olivia ["west"; "root"; "east"]) acme
    = (send listing, acme)
    /\ map id listing = ["t-1"; "t-3"]
    /\ forall t, In t listing -> category t = "Personal" ->
                 createdBy t <> Some (user_id avery).
Proof.
  eexists. split; [vm_compute; reflexivity |].
  split; [reflexivity |].
  intros t Hin Hcat.
  refine (proj2 (proj1 (C5_personal_task_hidden_from_other_users acme acme
            (request_of olivia ["west"; "root"; "east"]) avery olivia _
            ltac:(discriminate) eq_refl _) t Hin Hcat)).
  vm_compute. reflexivity.
Defined.

(* ================================================================== *)
(** ** Static catalog *)
(* ================================================================== *)

Lemma own_property_In {A} (obj : list (string * A)) (key : string) :
  own_property obj key = None <-> ~ In key (map fst obj).
Proof.
  induction obj as [| [k v] obj IH]; simpl.
  - split; [intros _ [] | reflexivity].
  - destruct (String.eqb key k) eqn:E.
    + apply String.eqb_eq in E. subst. split; [discriminate | intros H; exfalso; apply H; now left].
    + apply String.eqb_neq in E. rewrite IH. split.
      * intros H [Hk | Hin]; [now apply E | now apply H].
      * intros H Hin. apply H. now right.
Qed.

(** X1. Whatever the case and the surrounding white space of the role string,
    an owner is statically entitled to every permission of the catalog. *)
Theorem roleAllows_owner_catalog (role permission : string) :
  normalizeRole role = "owner" ->
  In permission (map fst PERMISSIONS) ->
  roleAllows role permission = ok true.
Proof.
  intros Hrole Hin. unfold roleAllows. rewrite Hrole.
  simpl in Hin.
  repeat (destruct Hin as [<- | Hin]; [reflexivity |]). contradiction.
Qed.

Lemma roleAllows_owner_catalog_witness :
  roleAllows "  OWNER " "roles:delete" = ok true.
Proof.
  apply roleAllows_owner_catalog.
  - reflexivity.
  - simpl. tauto.
Defined.

(** X2. The static hierarchy is monotone in every permission key: what a
    viewer may do an admin may do, and what an admin may do an owner may. *)
Theorem roleAllows_hierarchy_monotone (permission : string) :
  (roleAllows "viewer" permission = ok true -> roleAllows "admin" permission = ok true)
  /\ (roleAllows "admin" permission = ok true -> roleAllows "owner" permission = ok true).
Proof.
  unfold roleAllows.
  change (get_property ROLE_HIERARCHY (normalizeRole "viewer")) with (Own ["viewer"]).
  change (get_property ROLE_HIERARCHY (normalizeRole "admin")) with (Own ["admin"; "viewer"]).
  change (get_property ROLE_HIERARCHY (normalizeRole "owner"))
    with (Own ["owner"; "admin"; "viewer"]).
  destruct (get_property PERMISSIONS permission) as [allowed | |]; simpl;
    split; try discriminate.
  - intros H. unfold ok in *. injection H as H. rewrite orb_false_r in H.
    rewrite H. now rewrite orb_true_r.
  - intros H. unfold ok in *. injection H as H. rewrite H. now rewrite orb_true_r.
Qed.

Lemma roleAllows_hierarchy_witness :
  roleAllows "admin" "tasks:view" = ok true /\ roleAllows "owner" "tasks:create" = ok true.
Proof.
  split.
  - apply (proj1 (roleAllows_hierarchy_monotone "tasks:view")). reflexivity.
  - apply (proj2 (roleAllows_hierarchy_monotone "tasks:create")). reflexivity.
Defined.

(** A role outside the hierarchy whose name is no property of
    [Object.prototype] has no static entitlement at all. *)
Lemma roleAllows_custom (role permission : string) :
  ~ In (normalizeRole role) [ROLES.OWNER; ROLES.ADMIN; ROLES.VIEWER] ->
  ~ In (normalizeRole role) Object_prototype_keys ->
  roleAllows role permission = ok false.
Proof.
  intros Hsys Hproto. unfold roleAllows.
  assert (Hh : get_property ROLE_HIERARCHY (normalizeRole role) = Undefined).
  { unfold get_property.
    rewrite (proj2 (own_property_In ROLE_HIERARCHY (normalizeRole role)) Hsys).
    destruct (includes Object_prototype_keys (normalizeRole role)) eqn:E; [| reflexivity].
    apply includes_In in E. contradiction. }
  rewrite Hh. now destruct (get_property PERMISSIONS permission).
Qed.

(** X4. For a role outside the hierarchy whose normalized name is no
    property of [Object.prototype], the task router's guard decides by the
    dynamic store alone: it calls [next()] exactly when the global row of
    (role, permission) is enabled, and answers 403 otherwise. *)
Theorem task_guard_custom_role_dynamic_only
    (st : Store) (req : Request) (user : User) (permission : string) :
  req_user req = Some user ->
  ~ In (normalizeRole (user_role user)) [ROLES.OWNER; ROLES.ADMIN; ROLES.VIEWER] ->
  ~ In (normalizeRole (user_role user)) Object_prototype_keys ->
  TaskRoutes.guard permission req st
  = (if hasRolePermission st None (user_role user) permission
     then next else refuse 403 "Forbidden" (Some permission), st).
Proof.
  intros Hu Hsys Hproto. unfold TaskRoutes.guard, handle. rewrite Hu.
  assert (Hnot : String.eqb (user_role user) "owner" = false).
  { apply String.eqb_neq. intros Heq. apply Hsys. rewrite Heq. now left. }
  rewrite Hnot, (roleAllows_custom _ permission Hsys Hproto).
  unfold bind, select, resolve. simpl.
  now destruct (hasRolePermission st None (user_role user) permission).
Qed.

Lemma task_guard_custom_role_witness :
  TaskRoutes.guard "tasks:view" (request_of eddie ["root"]) acme
  = (refuse 403 "Forbidden" (Some "tasks:view"), acme).
Proof.
  apply (task_guard_custom_role_dynamic_only acme (request_of eddie ["root"]) eddie
           "tasks:view" eq_refl).
  - simpl. intros [H | [H | [H | []]]]; discriminate.
  - simpl. intuition discriminate.
Defined.

(** X5. A role whose normalized name is "constructor" or "__proto__" makes
    [roleAllows] throw on every permission of the catalog, so the task
    router's guard hands the error to [next] and the request is not let
    through, whatever the dynamic store grants. *)
Theorem task_guard_prototype_role_errors
    (st : Store) (req : Request) (user : User) (permission : string) :
  req_user req = Some user ->
  In (normalizeRole (user_role user)) ["constructor"; "__proto__"] ->
  In permission (map fst PERMISSIONS) ->
  roleAllows (user_role user) permission
  = throw (TypeError "inherited.some is not a function")
  /\ TaskRoutes.guard permission req st
     = (next_error (TypeError "inherited.some is not a function"), st).
Proof.
  intros Hu Hrole Hperm.
  assert (Hthrow : roleAllows (user_role user) permission
                   = throw (TypeError "inherited.some is not a function")).
  { unfold roleAllows. simpl in Hperm.
    destruct Hrole as [<- | [<- | []]];
      repeat (destruct Hperm as [<- | Hperm]; [reflexivity |]); contradiction. }
  split; [exact Hthrow |].
  unfold TaskRoutes.guard, handle. rewrite Hu, Hthrow.
  assert (Hnot : String.eqb (user_role user) "owner" = false).
  { apply String.eqb_neq. intros Heq. rewrite Heq in Hrole.
    destruct Hrole as [H | [H | []]]; discriminate. }
  now rewrite Hnot.
Qed.

Lemma task_guard_prototype_role_witness :
  let connie := mkUser "u-c" "root" "c@acme.test" "Connie" "Constructor" 1 in
  let st := snd (setRolePermission "rp-9" None "Constructor" "tasks:view" true acme) in
  hasRolePermission st None "Constructor" "tasks:view" = true
  /\ TaskRoutes.guard "tasks:view" (request_of connie ["root"]) st
     = (next_error (TypeError "inherited.some is not a function"), st).
Proof.
  intros connie st. split; [reflexivity |].
  apply (task_guard_prototype_role_errors st (request_of connie ["root"]) connie "tasks:view").
  - reflexivity.
  - simpl. tauto.
  - simpl. tauto.
Defined.

(* ================================================================== *)
(** ** Organization tree *)
(* ================================================================== *)

Lemma resolveOrgScope_owner_witness :
  exists scope,
    resolveOrgScopeForUser (Some olivia) acme_orgs = Some scope /\
    forall x, In x scope <-> x = "west" \/ In x ["root"; "east"; "west"].
Proof.
  apply (resolveOrgScope_owner olivia acme_orgs); reflexivity.
Defined.

Lemma resolveOrgScope_other_witness :
  resolveOrgScopeForUser (Some vera) acme_orgs = Some ["east"].
Proof.
  apply (resolveOrgScope_other vera acme_orgs); [reflexivity | discriminate | discriminate].
Defined.

Lemma map_get_set_same {V} (m : Map (option string) V) k v :
  map_get opt_eqb (map_set opt_eqb m k v) k = Some v.
Proof.
  induction m as [| [k' v'] m IH]; simpl.
  - now rewrite opt_eqb_refl.
  - destruct (opt_eqb k k') eqn:E; simpl; rewrite E; [reflexivity | exact IH].
Qed.

Lemma map_get_set_other {V} (m : Map (option string) V) k k' v :
  opt_eqb k k' = false ->
  map_get opt_eqb (map_set opt_eqb m k' v) k = map_get opt_eqb m k.
Proof.
  intros Hne. induction m as [| [k0 v0] m IH]; simpl.
  - now rewrite Hne.
  - destruct (opt_eqb k' k0) eqn:E; simpl.
    + apply opt_eqb_eq in E. subst k0. now rewrite Hne.
    + destruct (opt_eqb k k0); [reflexivity | exact IH].
Qed.

Lemma opt_eqb_sym (a b : option string) : opt_eqb a b = opt_eqb b a.
Proof. destruct a, b; simpl; try reflexivity. apply String.eqb_sym. Qed.

(** The children map files every organization under its parent key, in
    the order of the list. *)
Lemma buildOrgIndex_children (organizations : list Organization) (k : option string) :
  match map_get opt_eqb (children (buildOrgIndex organizations)) k with
  | Some l => l
  | None => []
  end
  = filter (fun o => opt_eqb k (parent_key o)) organizations.
Proof.
  unfold buildOrgIndex.
  assert (H : forall idx,
    match map_get opt_eqb (children (fold_left buildOrgIndex_step organizations idx)) k with
    | Some l => l | None => [] end
    = match map_get opt_eqb (children idx) k with Some l => l | None => [] end
      ++ filter (fun o => opt_eqb k (parent_key o)) organizations).
  { induction organizations as [| org rest IH]; intros idx; simpl.
    - now rewrite List.app_nil_r.
    - rewrite IH. unfold buildOrgIndex_step at 1. simpl. unfold map_has.
      destruct (opt_eqb k (parent_key org)) eqn:E.
      + apply opt_eqb_eq in E. subst k. rewrite map_get_set_same.
        destruct (map_get opt_eqb (children idx) (parent_key org)) as [l |] eqn:Hg.
        * rewrite Hg. now rewrite <- app_assoc.
        * rewrite map_get_set_same. reflexivity.
      + rewrite map_get_set_other by exact E.
        destruct (map_get opt_eqb (children idx) (parent_key org)); [reflexivity |].
        now rewrite map_get_set_other by exact E. }
  rewrite H. reflexivity.
Qed.

Lemma kids_child_of (organizations : list Organization) (p c : string) :
  In c (map org_id
          (match map_get opt_eqb (children (buildOrgIndex organizations)) (Some p) with
           | Some l => l
           | None => []
           end))
  <-> child_of organizations p c.
Proof.
  rewrite buildOrgIndex_children, in_map_iff. unfold child_of. split.
  - intros [o [Hid Ho]]. apply filter_In in Ho. destruct Ho as [Ho Hk].
    apply opt_eqb_eq in Hk. exists o. now repeat split.
  - intros [o [Ho [Hk Hid]]]. exists o. split; [assumption |].
    apply filter_In. split; [assumption |]. rewrite Hk. apply opt_eqb_refl.
Qed.

Lemma descends_trans orgs a b c :
  descends orgs a b -> descends orgs b c -> descends orgs a c.
Proof.
  intros Hab Hbc. induction Hbc as [| p c' _ IH Hchild]; [assumption |].
  now apply (descends_child orgs a p c').
Qed.

(** What the loop of [collectDescendants] leaves in the accumulator. *)
Lemma collectDescendants_loop_scope (organizations : list Organization) (fuel : nat) :
  forall queue acc scope,
    collectDescendants_loop fuel (children (buildOrgIndex organizations)) queue acc
    = Some scope ->
    (NoDup acc -> NoDup scope)
    /\ (forall x, In x acc -> In x scope)
    /\ (forall q, In q queue -> truthy q = true -> In q scope)
    /\ (forall x, In x scope ->
                  In x acc \/ exists q, In q queue /\ descends organizations q x)
    /\ (forall x c, In x scope -> ~ In x acc -> child_of organizations x c ->
                    truthy c = true -> In c scope).
Proof.
  induction fuel as [| fuel IH]; intros queue acc scope Hrun; [discriminate |].
  destruct queue as [| current rest]; simpl in Hrun.
  - injection Hrun as <-.
    split; [tauto |]. split; [tauto |]. split; [intros q [] |].
    split; [intros x Hx; now left |].
    intros x c Hx Hnx. contradiction.
  - destruct (negb (truthy current) || set_has acc current) eqn:Hskip.
    + destruct (IH rest acc scope Hrun) as [Hnd [Hacc [Hq [Hsound Hclosed]]]].
      split; [assumption |]. split; [assumption |]. split; [| split; [| assumption]].
      * intros q [<- | Hin] Ht; [| now apply Hq].
        rewrite Ht in Hskip. simpl in Hskip. apply Hacc. now apply set_has_In.
      * intros x Hx. destruct (Hsound x Hx) as [H | [q [Hin Hd]]]; [now left | right].
        exists q. split; [now right | assumption].
    + apply orb_false_elim in Hskip. destruct Hskip as [Htruthy Hnew].
      apply negb_false_iff in Htruthy.
      destruct (IH _ _ scope Hrun) as [Hnd [Hacc [Hq [Hsound Hclosed]]]].
      assert (Hcur : In current scope) by (apply Hacc, set_add_In; now right).
      split; [| split; [| split; [| split]]].
      * intros H. apply Hnd. now apply set_add_NoDup.
      * intros x Hx. apply Hacc, set_add_In. now left.
      * intros q [<- | Hin] Ht; [assumption |]. apply Hq; [| assumption].
        apply in_app_iff. now left.
      * intros x Hx. destruct (Hsound x Hx) as [H | [q [Hin Hd]]].
        -- apply set_add_In in H. destruct H as [H | ->]; [now left | right].
           exists current. split; [now left | constructor].
        -- right. apply in_app_iff in Hin. destruct Hin as [Hin | Hin].
           ++ exists q. split; [now right | assumption].
           ++ exists current. split; [now left |].
              apply (descends_trans organizations current q x); [| assumption].
              apply (descends_child organizations current current q); [constructor |].
              now apply kids_child_of.
      * intros x c Hx Hnx Hchild Ht.
        destruct (String.eqb x current) eqn:E.
        -- apply String.eqb_eq in E. subst x. apply Hq; [| assumption].
           apply in_app_iff. right. now apply kids_child_of.
        -- apply String.eqb_neq in E. apply (Hclosed x c); try assumption.
           intros H. apply set_add_In in H. destruct H; contradiction.
Qed.

(** X9. Started from an empty accumulator on a truthy id, [collectDescendants]
    returns, without duplicates, exactly the start node and its transitive
    descendants in the organization list (ids being non-empty). *)
Theorem collectDescendants_reaches_descendants
    (organizations : list Organization) (id : string) :
  truthy id = true ->
  (forall o, In o organizations -> truthy (org_id o) = true) ->
  exists scope,
    collectDescendants (traversal_fuel organizations) id
      (children (buildOrgIndex organizations)) [] = Some scope
    /\ NoDup scope
    /\ forall x, In x scope <-> descends organizations id x.
Proof.
  intros Hid Hids.
  destruct (collectDescendants_terminates organizations id []) as [scope Hrun].
  exists scope. split; [exact Hrun |].
  destruct (collectDescendants_loop_scope organizations _ _ _ _ Hrun)
    as [Hnd [_ [Hq [Hsound Hclosed]]]].
  split; [apply Hnd; constructor |].
  intros x. split.
  - intros Hx. destruct (Hsound x Hx) as [[] | [q [[<- | []] Hd]]]. exact Hd.
  - intros Hd. induction Hd as [| p c _ IH Hchild].
    + apply Hq; [now left | assumption].
    + apply (Hclosed p c IH); [intros [] | assumption |].
      destruct Hchild as [o [Ho [_ <-]]]. now apply Hids.
Qed.

Lemma collectDescendants_reaches_witness :
  exists scope,
    collectDescendants (traversal_fuel acme_orgs) "root"
      (children (buildOrgIndex acme_orgs)) [] = Some scope
    /\ NoDup scope
    /\ forall x, In x scope <-> descends acme_orgs "root" x.
Proof.
  apply (collectDescendants_reaches_descendants acme_orgs "root").
  - reflexivity.
  - intros o [<- | [<- | [<- | []]]]; reflexivity.
Defined.

(* ================================================================== *)
(** ** Dynamic permission store, continued *)
(* ================================================================== *)

Lemma NoDup_map_eq {A B} (f : A -> B) (l : list A) (x y : A) :
  NoDup (map f l) -> In x l -> In y l -> f x = f y -> x = y.
Proof.
  induction l as [| a l IH]; simpl; intros Hnd Hx Hy Heq; [contradiction |].
  inversion Hnd as [| ? ? Hnotin Hnd']; subst.
  destruct Hx as [-> | Hx], Hy as [-> | Hy]; auto.
  - exfalso. apply Hnotin. rewrite Heq. now apply in_map.
  - exfalso. apply Hnotin. rewrite <- Heq. now apply in_map.
Qed.

Lemma filter_map_fixed {A} (p : A -> bool) (f : A -> A) (l : list A) :
  (forall x, In x l -> p (f x) = p x /\ (p x = true -> f x = x)) ->
  filter p (map f l) = filter p l.
Proof.
  induction l as [| a l IH]; intros H; simpl; [reflexivity |].
  destruct (H a (or_introl eq_refl)) as [Hp Hfix]. rewrite Hp.
  destruct (p a) eqn:E.
  - rewrite (Hfix eq_refl). f_equal. apply IH. intros x Hx. apply H. now right.
  - apply IH. intros x Hx. apply H. now right.
Qed.

Lemma hasRolePermission_by_candidates st1 st2 organizationId role permission :
  filter (candidate organizationId role permission) (role_permissions st1)
  = filter (candidate organizationId role permission) (role_permissions st2) ->
  hasRolePermission st1 organizationId role permission
  = hasRolePermission st2 organizationId role permission.
Proof.
  intros H. unfold hasRolePermission, permission_rows.
  fold (candidate organizationId role permission). now rewrite H.
Qed.

(** X10. With ids that are keys, a call of [setRolePermission] on one
    (role, permission) pair changes the answer of [hasRolePermission] for no
    other pair, in any scope, whether the call succeeds or not. *)
Theorem setRolePermission_leaves_other_pairs
    (st : Store) (id : string) (organizationId organizationId' : option string)
    (role permission role' permission' : string) (enabled : bool) :
  NoDup (map rp_id (role_permissions st)) ->
  role' <> role \/ permission' <> permission ->
  hasRolePermission
    (snd (setRolePermission id organizationId role permission enabled st))
    organizationId' role' permission'
  = hasRolePermission st organizationId' role' permission'.
Proof.
  intros Hkeys Hother.
  assert (Hmiss : forall r,
            String.eqb (rp_role r) role && String.eqb (rp_permission r) permission = true ->
            candidate organizationId' role' permission' r = false).
  { intros r Hr. apply andb_prop in Hr. destruct Hr as [H1 H2].
    apply String.eqb_eq in H1, H2. unfold candidate.
    destruct (String.eqb (rp_role r) role') eqn:E1;
      [| now rewrite andb_false_r].
    destruct (String.eqb (rp_permission r) permission') eqn:E2;
      [| now rewrite andb_false_r].
    apply String.eqb_eq in E1, E2. exfalso. destruct Hother as [H | H]; apply H; congruence. }
  apply hasRolePermission_by_candidates.
  unfold setRolePermission, withTransaction, bind, select, run, resolve. simpl.
  destruct (first_row (filter (matches_tuple organizationId role permission)
                              (role_permissions st))) as [row |] eqn:Hfirst; simpl.
  - unfold update_permission_enabled. simpl.
    assert (Hrow : In row (role_permissions st)
                   /\ matches_tuple organizationId role permission row = true).
    { rewrite first_row_find in Hfirst. apply find_some in Hfirst. exact Hfirst. }
    destruct Hrow as [Hin Hmatch].
    apply filter_map_fixed. intros x Hx.
    destruct (String.eqb (rp_id x) (rp_id row)) eqn:E.
    + apply String.eqb_eq in E.
      pose proof (NoDup_map_eq rp_id _ x row Hkeys Hx Hin E) as ->.
      unfold matches_tuple in Hmatch. rewrite <- andb_assoc in Hmatch.
      apply andb_prop in Hmatch. destruct Hmatch as [_ Hmatch].
      rewrite (Hmiss row Hmatch).
      split; [| discriminate].
      apply Hmiss. simpl. exact Hmatch.
    + split; [reflexivity | reflexivity].
  - unfold insert_role_permission. simpl.
    assert (Hadd : forall v,
       filter (candidate organizationId' role' permission')
         (role_permissions st ++ [mkRolePermission id organizationId role permission v])
       = filter (candidate organizationId' role' permission') (role_permissions st)).
    { intros v. rewrite filter_app. simpl.
      rewrite (Hmiss (mkRolePermission id organizationId role permission v));
        [apply List.app_nil_r | simpl; now rewrite !String.eqb_refl]. }
    destruct (existsb _ (role_permissions st)); simpl; [reflexivity |].
    destruct organizationId as [org |]; simpl.
    + destruct (existsb (same_scoped_key org role permission) (role_permissions st));
        simpl; [reflexivity |].
      destruct (existsb _ (organizations st)); simpl; [apply Hadd | reflexivity].
    + apply Hadd.
Qed.

Lemma setRolePermission_leaves_other_pairs_witness :
  hasRolePermission
    (snd (setRolePermission "rp-9" None "editor" "tasks:view" true acme))
    None "guest" "tasks:view" = true.
Proof.
  rewrite (setRolePermission_leaves_other_pairs acme "rp-9" None None
             "editor" "tasks:view" "guest" "tasks:view" true).
  - reflexivity.
  - simpl. repeat constructor; simpl; intuition discriminate.
  - left. discriminate.
Defined.

(** X11. The seed's [INSERT OR IGNORE] of a global row is no upsert: with each
    new id it adds one more row for the tuple, whether or not the tuple is
    stored already, since NULL organizations never meet the UNIQUE key. *)
Theorem ensureGlobalRolePermission_adds_a_row
    (st : Store) (id role permission : string) (enabled : bool) :
  fresh_permission_id st id ->
  exists st',
    ensureGlobalRolePermission id role permission enabled st = (ok tt, st')
    /\ List.length (tuple_rows st' None role permission)
       = S (List.length (tuple_rows st None role permission)).
Proof.
  intros Hfresh. unfold ensureGlobalRolePermission, run.
  unfold fresh_permission_id in Hfresh. rewrite Hfresh.
  eexists. split; [reflexivity |].
  unfold tuple_rows. simpl. rewrite filter_app, length_app. simpl.
  unfold matches_tuple, org_is_null. simpl. rewrite !String.eqb_refl. simpl. lia.
Qed.

Lemma ensureGlobalRolePermission_witness :
  exists st',
    ensureGlobalRolePermission "rp-9" "admin" "admin:access" true acme = (ok tt, st')
    /\ List.length (tuple_rows st' None "admin" "admin:access") = 2.
Proof.
  destruct (ensureGlobalRolePermission_adds_a_row acme "rp-9" "admin" "admin:access" true)
    as [st' [Hrun Hlen]]; [reflexivity |].
  exists st'. split; [exact Hrun | exact Hlen].
Defined.

(* ================================================================== *)
(** ** Role lifecycle, continued *)
(* ================================================================== *)

Lemma filter_app_fresh_id (id : string) (l : list Role) (r : Role) :
  existsb (fun x => String.eqb (role_id x) id) l = false ->
  role_id r = id ->
  first_row (filter (fun x => String.eqb (role_id x) id) (l ++ [r])) = Some r.
Proof.
  intros Hfresh Hid. rewrite filter_app.
  assert (H : filter (fun x => String.eqb (role_id x) id) l = []).
  { apply filter_nil_iff. intros x Hx.
    destruct (String.eqb (role_id x) id) eqn:E; [| reflexivity].
    assert (Hex : existsb (fun x => String.eqb (role_id x) id) l = true)
      by (apply existsb_exists; now exists x).
    congruence. }
  rewrite H. simpl. now rewrite Hid, String.eqb_refl.
Qed.

(** The two ways [createRole] ends. *)
Lemma createRole_cases
    (st st' : Store) (id : string) (name description : Nullable)
    (result : Result (option Role)) :
  createRole id name description st = (result, st') ->
  (exists e, result = throw e /\ st' = st)
  \/ (exists row,
        result = ok (Some row)
        /\ st' = set_roles st (roles st ++ [row])
        /\ role_id row = id
        /\ role_is_system row = 0%Z
        /\ (exists s, name = str s /\ role_name row = toLowerCase (trim s))
        /\ role_name row <> ""
        /\ ~ In (role_name row) [ROLES.OWNER; ROLES.ADMIN; ROLES.VIEWER]
        /\ (forall r, In r (roles st) ->
                      role_id r <> id /\ role_name r <> role_name row)).
Proof.
  unfold createRole. cbv zeta. intros Hrun.
  set (roleName := match name with str s => toLowerCase (trim s) | _ => "" end) in *.
  destruct (truthy roleName) eqn:Htruthy; simpl negb in Hrun; cbv iota in Hrun;
    [| left; unfold reject in Hrun; injection Hrun as <- <-; eauto].
  destruct (includes [ROLES.OWNER; ROLES.ADMIN; ROLES.VIEWER] roleName) eqn:Hsys;
    [left; unfold reject in Hrun; injection Hrun as <- <-; eauto |].
  unfold bind, run, insert_role, select in Hrun. simpl in Hrun.
  destruct (existsb (fun x => String.eqb (role_id x) id) (roles st)) eqn:Hid;
    [left; injection Hrun as <- <-; eauto |].
  destruct (existsb (fun x => String.eqb (role_name x) roleName) (roles st)) eqn:Hname;
    [left; injection Hrun as <- <-; eauto |].
  simpl in Hrun. right.
  unfold getRoleById in Hrun. simpl in Hrun.
  match type of Hrun with
  | context [roles st ++ [?r]] =>
      rewrite (filter_app_fresh_id id (roles st) r Hid eq_refl) in Hrun
  end.
  injection Hrun as <- <-.
  eexists. split; [reflexivity |]. split; [reflexivity |].
  split; [reflexivity |]. split; [reflexivity |]. simpl.
  split.
  { destruct name as [| | s]; try discriminate. now exists s. }
  split; [now apply truthy_nonempty |].
  split.
  { intros Hin.
    assert (H : includes [ROLES.OWNER; ROLES.ADMIN; ROLES.VIEWER] roleName = true)
      by (apply includes_In; exact Hin).
    congruence. }
  intros r Hr. split.
  - intros Heq. assert (Hex : existsb (fun x => String.eqb (role_id x) id) (roles st) = true).
    { apply existsb_exists. exists r. split; [assumption | now apply String.eqb_eq]. }
    congruence.
  - intros Heq.
    assert (Hex : existsb (fun x => String.eqb (role_name x) roleName) (roles st) = true).
    { apply existsb_exists. exists r. split; [assumption | now apply String.eqb_eq]. }
    congruence.
Qed.

(** X14. [createRole] either fails and leaves the store as it was, or appends
    one catalog row and resolves with it: a custom role (is_system = 0)
    under the trimmed, lowercased, non-empty name, which is none of the
    system names and was not stored before. *)
Theorem createRole_outcome
    (st st' : Store) (id : string) (name description : Nullable)
    (result : Result (option Role)) :
  createRole id name description st = (result, st') ->
  (exists e, result = throw e /\ st' = st)
  \/ (exists row,
        result = ok (Some row)
        /\ st' = set_roles st (roles st ++ [row])
        /\ role_id row = id
        /\ role_is_system row = 0%Z
        /\ (exists s, name = str s /\ role_name row = toLowerCase (trim s))
        /\ role_name row <> ""
        /\ ~ In (role_name row) [ROLES.OWNER; ROLES.ADMIN; ROLES.VIEWER]
        /\ (forall r, In r (roles st) ->
                      role_id r <> id /\ role_name r <> role_name row)).
Proof. apply createRole_cases. Qed.

Lemma createRole_outcome_witness :
  (exists e, fst (createRole "r-9" (str " Owner ") null acme) = throw e)
  /\ (exists row, fst (createRole "r-9" (str " Auditor ") null acme) = ok (Some row)
                  /\ role_name row = "auditor" /\ role_is_system row = 0%Z).
Proof.
  split.
  - destruct (createRole_outcome acme _ "r-9" (str " Owner ") null _ eq_refl)
      as [[e [He _]] | [row [Hr _]]].
    + exists e. exact He.
    + vm_compute in Hr. discriminate.
  - destruct (createRole_outcome acme _ "r-9" (str " Auditor ") null _ eq_refl)
      as [[e [He _]] | [row [Hr [_ [_ [Hsys [[s [Hs Hname]] _]]]]]]].
    + vm_compute in He. discriminate.
    + exists row. split; [exact Hr |]. split; [| exact Hsys].
      injection Hs as <-. rewrite Hname. reflexivity.
Defined.

(** X15. Creating a role and deleting it again restores the store, when the
    name was not in the catalog in any ASCII case and no user or permission
    row carried it. *)
Theorem createRole_then_deleteRole
    (st st1 : Store) (id : string) (name description : Nullable) (row : Role) :
  createRole id name description st = (ok (Some row), st1) ->
  (forall r, In r (roles st) -> LOWER (role_name r) <> LOWER (role_name row)) ->
  (forall u, In u (users st) -> user_role u <> role_name row) ->
  (forall p, In p (role_permissions st) -> rp_role p <> role_name row) ->
  deleteRole (role_name row) st1 = (ok true, st).
Proof.
  intros Hcreate Hnames Husers Hperms.
  destruct (createRole_cases st st1 id name description _ Hcreate)
    as [[e [He _]] | [row' [Hres [Hst [Hid [Hsys [_ [_ [_ Hfresh]]]]]]]]];
    [discriminate |].
  unfold ok in Hres. injection Hres as <-. subst st1.
  unfold deleteRole.
  assert (Hget : getRoleByName (set_roles st (roles st ++ [row])) (role_name row) = Some row).
  { unfold getRoleByName. simpl. rewrite filter_app.
    rewrite (proj2 (filter_nil_iff _ (roles st))).
    - simpl. now rewrite String.eqb_refl.
    - intros r Hr. apply String.eqb_neq. now apply Hnames. }
  rewrite Hget. unfold is_set. rewrite Hsys. simpl.
  assert (Hcount : (count_users_with_role (set_roles st (roles st ++ [row])) (role_name row)
                    >? 0)%Z = false).
  { apply not_true_is_false. intros H. apply count_users_positive in H.
    destruct H as [u [Hu Heq]]. exact (Husers u Hu Heq). }
  rewrite Hcount. unfold withTransaction, bind, run, resolve. simpl.
  rewrite filter_app. simpl. rewrite String.eqb_refl. simpl.
  rewrite List.app_nil_r.
  rewrite (filter_all _ (role_permissions st));
    [| intros p Hp; apply negb_true_iff, String.eqb_neq; now apply Hperms].
  rewrite (filter_all _ (roles st));
    [| intros r Hr; apply negb_true_iff, String.eqb_neq; rewrite Hid;
       exact (proj1 (Hfresh r Hr))].
  now destruct st.
Qed.

Lemma createRole_then_deleteRole_witness :
  deleteRole "auditor" (snd (createRole "r-9" (str " Auditor ") null acme)) = (ok true, acme).
Proof.
  apply (createRole_then_deleteRole acme _ "r-9" (str " Auditor ") null
           (mkRole "r-9" "auditor" None 0)).
  - reflexivity.
  - intros r [<- | [<- | [<- | [<- | [<- | []]]]]]; discriminate.
  - intros u [<- | [<- | [<- | [<- | []]]]]; discriminate.
  - intros p [<- | [<- | [<- | [<- | [<- | []]]]]]; discriminate.
Defined.

(** X16. [updateRole] called without a new name, with an empty one or with the
    current one is a description update: it succeeds and keeps every user,
    every permission row and every role name; without a description it
    keeps the whole store. *)
Theorem updateRole_without_rename
    (st : Store) (oldName : string) (name description : Nullable) (existing : Role) :
  getRoleByName st oldName = Some existing ->
  role_is_system existing = 0%Z ->
  normalized_update_name name = None
  \/ normalized_update_name name = Some ""
  \/ normalized_update_name name = Some (role_name existing) ->
  exists st' result,
    updateRole oldName name description st = (ok result, st')
    /\ users st' = users st
    /\ role_permissions st' = role_permissions st
    /\ map role_name (roles st') = map role_name (roles st)
    /\ map role_id (roles st') = map role_id (roles st)
    /\ (description = undefined -> st' = st).
Proof.
  intros Hget Hcustom Hname. unfold updateRole. rewrite Hget.
  unfold is_set. rewrite Hcustom. simpl.
  assert (Hcond : truthy_opt (normalized_update_name name)
                  && negb (opt_eqb (normalized_update_name name) (Some (role_name existing)))
                  = false).
  { destruct Hname as [-> | [-> | ->]]; simpl; try reflexivity.
    rewrite String.eqb_refl. now rewrite andb_false_r. }
  rewrite Hcond. unfold withTransaction, bind, when, run, select, resolve,
    update_role_description. simpl.
  assert (Hnames : forall d,
            map role_name
              (map (fun r => if String.eqb (role_id r) (role_id existing)
                             then mkRole (role_id r) (role_name r) d (role_is_system r)
                             else r) (roles st)) = map role_name (roles st)).
  { intros d. rewrite map_map. apply map_ext. intros r.
    now destruct (String.eqb (role_id r) (role_id existing)). }
  assert (Hids : forall d,
            map role_id
              (map (fun r => if String.eqb (role_id r) (role_id existing)
                             then mkRole (role_id r) (role_name r) d (role_is_system r)
                             else r) (roles st)) = map role_id (roles st)).
  { intros d. rewrite map_map. apply map_ext. intros r.
    now destruct (String.eqb (role_id r) (role_id existing)). }
  destruct description; simpl; eexists; eexists;
    (split; [reflexivity |]); simpl;
    repeat split; auto; discriminate.
Qed.

Lemma updateRole_without_rename_witness :
  exists st' result,
    updateRole "EDITOR" null (str "Edits and reviews") acme = (ok result, st')
    /\ users st' = users acme
    /\ role_permissions st' = role_permissions acme.
Proof.
  destruct (updateRole_without_rename acme "EDITOR" null (str "Edits and reviews")
              (mkRole "r-editor" "editor" (Some "Edits tasks") 0) eq_refl eq_refl)
    as [st' [result [Hrun [Hu [Hp _]]]]].
  - left. reflexivity.
  - exists st', result. now repeat split.
Defined.

(** X17. The refusals of [updateRole]: an unknown name, a system role, and a new
    name that another catalog row already bears. Each leaves the store as
    it was. *)
Theorem updateRole_refusals (st : Store) (oldName : string) (name description : Nullable) :
  (getRoleByName st oldName = None ->
     updateRole oldName name description st = (throw role_not_found, st))
  /\
  (forall existing,
     getRoleByName st oldName = Some existing ->
     role_is_system existing <> 0%Z ->
     updateRole oldName name description st = (throw cannot_modify_system_role, st))
  /\
  (forall existing newName other,
     getRoleByName st oldName = Some existing ->
     role_is_system existing = 0%Z ->
     normalized_update_name name = Some newName ->
     truthy newName = true ->
     newName <> role_name existing ->
     In other (roles st) ->
     role_id other <> role_id existing ->
     role_name other = newName ->
     updateRole oldName name description st
     = (throw (constraint_failed "UNIQUE constraint failed: roles.name"), st)).
Proof.
  split; [| split].
  - intros Hget. unfold updateRole. now rewrite Hget.
  - intros existing Hget Hsys. unfold updateRole. rewrite Hget.
    now rewrite (is_set_true _ Hsys).
  - intros existing newName other Hget Hcustom Hname Htruthy Hneq Hother Hid Hsame.
    unfold updateRole. rewrite Hget, Hname. unfold is_set. rewrite Hcustom. simpl.
    apply String.eqb_neq in Hneq. rewrite Htruthy, Hneq. simpl.
    unfold withTransaction, bind, when, run, update_role_name. simpl.
    assert (Htouched : existsb (fun r => String.eqb (role_id r) (role_id existing))
                         (roles st) = true).
    { apply existsb_exists. exists existing.
      split; [exact (getRoleByName_In _ _ _ Hget) | apply String.eqb_refl]. }
    assert (Htaken : existsb (fun r => negb (String.eqb (role_id r) (role_id existing))
                                       && String.eqb (role_name r) newName)
                       (roles st) = true).
    { apply existsb_exists. exists other. split; [assumption |].
      apply String.eqb_neq in Hid. rewrite Hid, Hsame, String.eqb_refl. reflexivity. }
    rewrite Htouched, Htaken. reflexivity.
Qed.

Lemma updateRole_refusals_witness :
  updateRole "nobody" (str "x") undefined acme = (throw role_not_found, acme)
  /\ updateRole "Admin" (str "root") undefined acme = (throw cannot_modify_system_role, acme)
  /\ updateRole "editor" (str "Guest") undefined acme
     = (throw (constraint_failed "UNIQUE constraint failed: roles.name"), acme).
Proof.
  split; [| split].
  - apply (proj1 (updateRole_refusals acme "nobody" (str "x") undefined)). reflexivity.
  - apply (proj1 (proj2 (updateRole_refusals acme "Admin" (str "root") undefined))
             (mkRole "r-admin" "admin" (Some "Manage users and settings") 1)).
    + reflexivity.
    + discriminate.
  - apply (proj2 (proj2 (updateRole_refusals acme "editor" (str "Guest") undefined))
             (mkRole "r-editor" "editor" (Some "Edits tasks") 0) "guest"
             (mkRole "r-guest" "guest" None 0)).
    + reflexivity.
    + reflexivity.
    + reflexivity.
    + reflexivity.
    + discriminate.
    + simpl. tauto.
    + discriminate.
    + reflexivity.
Defined.

Lemma filter_map_translate {A} (p q : A -> bool) (f : A -> A) (l : list A) :
  (forall x, In x l -> p (f x) = q x) ->
  filter p (map f l) = map f (filter q l).
Proof.
  induction l as [| a l IH]; intros H; simpl; [reflexivity |].
  rewrite (H a (or_introl eq_refl)).
  destruct (q a); simpl; rewrite IH; auto; intros x Hx; apply H; now right.
Qed.

Lemma order_by_map_commute {A} (leb : A -> A -> bool) (f : A -> A) (l : list A) :
  (forall a b, leb (f a) (f b) = leb a b) ->
  order_by leb (map f l) = map f (order_by leb l).
Proof.
  intros H. induction l as [| x l IH]; simpl; [reflexivity |].
  rewrite IH. generalize (order_by leb l) as s.
  induction s as [| y s IHs]; simpl; [reflexivity |].
  rewrite H. destruct (leb x y); simpl; [reflexivity | now rewrite IHs].
Qed.

Lemma hasRolePermission_no_candidate st organizationId role permission :
  (forall r, In r (role_permissions st) ->
             candidate organizationId role permission r = false) ->
  hasRolePermission st organizationId role permission = false.
Proof.
  intros H. unfold hasRolePermission, permission_rows.
  fold (candidate organizationId role permission).
  now rewrite (proj2 (filter_nil_iff _ _) H).
Qed.

(** X18. After a successful rename to a name that no permission row carried,
    the permissions follow the role: in every scope the new name is
    answered as the old one was, and the old name is answered false. *)
Theorem updateRole_rename_carries_permissions
    (st st' : Store) (oldName : string) (name description : Nullable)
    (existing : Role) (newName : string) (result : option Role) :
  getRoleByName st oldName = Some existing ->
  normalized_update_name name = Some newName ->
  truthy newName = true ->
  newName <> role_name existing ->
  (forall r, In r (role_permissions st) -> rp_role r <> newName) ->
  updateRole oldName name description st = (ok result, st') ->
  forall organizationId permission,
    hasRolePermission st' organizationId newName permission
    = hasRolePermission st organizationId (role_name existing) permission
    /\ hasRolePermission st' organizationId (role_name existing) permission = false.
Proof.
  intros Hget Hname Htruthy Hneq Hunused Hrun organizationId permission.
  destruct (updateRole_rename_store st st' oldName name description existing newName
              result Hget Hname Htruthy Hneq Hrun) as [_ [Hperms _]].
  set (f := rename_permission_role newName (role_name existing)) in *.
  assert (Hf : forall r, rp_organization_id (f r) = rp_organization_id r
                         /\ rp_permission (f r) = rp_permission r
                         /\ rp_enabled (f r) = rp_enabled r
                         /\ rp_role (f r) = (if String.eqb (rp_role r) (role_name existing)
                                             then newName else rp_role r)).
  { intros r. unfold f, rename_permission_role.
    destruct (String.eqb (rp_role r) (role_name existing)); repeat split. }
  split.
  - unfold hasRolePermission, permission_rows. rewrite Hperms.
    fold (candidate organizationId newName permission).
    fold (candidate organizationId (role_name existing) permission).
    rewrite (filter_map_translate (candidate organizationId newName permission)
               (candidate organizationId (role_name existing) permission) f).
    + rewrite order_by_map_commute.
      * rewrite first_row_map.
        destruct (first_row _) as [row |]; simpl; [| reflexivity].
        now rewrite (proj1 (proj2 (proj2 (Hf row)))).
      * intros a b. unfold org_is_null.
        now rewrite (proj1 (Hf a)), (proj1 (Hf b)).
    + intros r Hr. unfold candidate, org_is_null, org_equals.
      destruct (Hf r) as [Ho [Hp [_ Hrole]]]. rewrite Ho, Hp, Hrole.
      destruct (String.eqb (rp_role r) (role_name existing)) eqn:E.
      * now rewrite String.eqb_refl.
      * pose proof (Hunused r Hr) as Hn. apply String.eqb_neq in Hn. now rewrite Hn.
  - apply hasRolePermission_no_candidate.
    intros r Hr. rewrite Hperms in Hr. apply in_map_iff in Hr.
    destruct Hr as [r0 [<- _]]. unfold candidate.
    destruct (Hf r0) as [_ [_ [_ Hrole]]]. rewrite Hrole.
    destruct (String.eqb (rp_role r0) (role_name existing)) eqn:E.
    + apply String.eqb_neq in Hneq. rewrite Hneq. now rewrite andb_false_r.
    + rewrite E. now rewrite andb_false_r.
Qed.

Lemma updateRole_rename_carries_witness :
  let st' := snd (updateRole "editor" (str "Contributor") undefined acme) in
  hasRolePermission st' None "contributor" "categories:create" = true
  /\ hasRolePermission st' None "editor" "categories:create" = false.
Proof.
  intros st'.
  assert (Hrun : updateRole "editor" (str "Contributor") undefined acme
                 = (ok (Some (mkRole "r-editor" "contributor" (Some "Edits tasks") 0)), st'))
    by (vm_compute; reflexivity).
  destruct (updateRole_rename_carries_permissions acme st' "editor" (str "Contributor")
              undefined (mkRole "r-editor" "editor" (Some "Edits tasks") 0)
              "contributor" _ eq_refl eq_refl eq_refl ltac:(discriminate)
              ltac:(intros r [<- | [<- | [<- | [<- | [<- | []]]]]]; discriminate)
              Hrun None "categories:create") as [Hnew Hold].
  split; [rewrite Hnew; reflexivity | exact Hold].
Defined.

(** The store that a successful [deleteRole] leaves. *)
Lemma deleteRole_success_store (st st' : Store) (name : string) (existing : Role) :
  getRoleByName st name = Some existing ->
  deleteRole name st = (ok true, st') ->
  role_permissions st'
  = filter (fun r => negb (String.eqb (rp_role r) (role_name existing))) (role_permissions st)
  /\ roles st' = filter (fun r => negb (String.eqb (role_id r) (role_id existing))) (roles st)
  /\ users st' = users st.
Proof.
  intros Hget Hrun. unfold deleteRole in Hrun. rewrite Hget in Hrun.
  destruct (is_set (role_is_system existing)); [discriminate |].
  destruct (count_users_with_role st (role_name existing) >? 0)%Z; [discriminate |].
  unfold withTransaction, bind, run, resolve in Hrun. simpl in Hrun.
  injection Hrun as <-. now repeat split.
Qed.

(** X19. Once [deleteRole] has succeeded no dynamic permission is left for the
    role: [hasRolePermission] answers false for its name in every scope and
    for every permission, and no user holds the name. *)
Theorem deleteRole_revokes_permissions
    (st st' : Store) (name : string) (existing : Role) :
  getRoleByName st name = Some existing ->
  deleteRole name st = (ok true, st') ->
  (forall organizationId permission,
      hasRolePermission st' organizationId (role_name existing) permission = false)
  /\ (forall u, In u (users st') -> user_role u <> role_name existing).
Proof.
  intros Hget Hrun.
  destruct (deleteRole_success_store st st' name existing Hget Hrun) as [Hperms [_ Husers]].
  split.
  - intros organizationId permission. apply hasRolePermission_no_candidate.
    intros r Hr. rewrite Hperms in Hr. apply filter_In in Hr. destruct Hr as [_ Hr].
    apply negb_true_iff in Hr. unfold candidate. rewrite Hr.
    now rewrite andb_false_r.
  - intros u Hu Heq. rewrite Husers in Hu.
    unfold deleteRole in Hrun. rewrite Hget in Hrun.
    destruct (is_set (role_is_system existing)); [discriminate |].
    destruct (count_users_with_role st (role_name existing) >? 0)%Z eqn:Hc; [discriminate |].
    assert (Hpos : (count_users_with_role st (role_name existing) >? 0)%Z = true)
      by (apply count_users_positive; now exists u).
    congruence.
Qed.

Lemma deleteRole_revokes_permissions_witness :
  hasRolePermission acme None "guest" "tasks:view" = true
  /\ hasRolePermission (snd (deleteRole "Guest" acme)) None "guest" "tasks:view" = false.
Proof.
  split; [reflexivity |].
  apply (proj1 (deleteRole_revokes_permissions acme _ "Guest"
                  (mkRole "r-guest" "guest" None 0) eq_refl eq_refl)).
Defined.

(* ================================================================== *)
(** ** Listings of the store *)
(* ================================================================== *)

Lemma Sorted_weaken {A} (R R' : A -> A -> Prop) (l : list A) :
  (forall a b, R a b -> R' a b) -> Sorted R l -> Sorted R' l.
Proof.
  intros H Hs. induction Hs as [| a l Hs IH Hhd]; constructor; [assumption |].
  destruct Hhd; constructor. now apply H.
Qed.

Lemma StronglySorted_after {A} (R : A -> A -> Prop) (l1 l2 : list A) (a : A) :
  StronglySorted R (l1 ++ a :: l2) -> Forall (R a) l2.
Proof.
  induction l1 as [| x l1 IH]; simpl; intros H.
  - now apply StronglySorted_inv in H.
  - apply StronglySorted_inv in H. now apply IH.
Qed.

Lemma role_listing_leb_total (a b : Role) :
  role_listing_leb a b = true \/ role_listing_leb b a = true.
Proof.
  unfold role_listing_leb.
  destruct (Z.ltb_spec (role_is_system b) (role_is_system a)); [now left |].
  destruct (Z.ltb_spec (role_is_system a) (role_is_system b)); [now right |].
  assert (Heq : role_is_system a = role_is_system b) by lia.
  rewrite Heq, Z.eqb_refl. simpl. unfold string_leb. apply String.leb_total.
Qed.

(** X20. [listRoles] lists every catalog row once, flags first: a row never
    comes before a row with a larger is_system, so no custom role precedes
    a system role; neighbours with equal flags are in ascending name
    order. *)
Theorem listRoles_system_roles_first (st : Store) :
  Permutation (listRoles st) (roles st)
  /\ Sorted (not_after role_listing_leb) (listRoles st)
  /\ (forall l1 a l2 b,
        listRoles st = l1 ++ a :: l2 -> In b l2 ->
        (role_is_system b <= role_is_system a)%Z)
  /\ (forall l1 a b l2,
        listRoles st = l1 ++ a :: b :: l2 ->
        role_is_system a = role_is_system b ->
        String.leb (role_name a) (role_name b) = true).
Proof.
  assert (Hsorted : Sorted (not_after role_listing_leb) (listRoles st))
    by (apply order_by_Sorted; exact role_listing_leb_total).
  split; [apply order_by_Permutation |]. split; [exact Hsorted |]. split.
  - intros l1 a l2 b Heq Hb.
    set (R := fun x y : Role => (role_is_system y <= role_is_system x)%Z).
    assert (Hs : StronglySorted R (listRoles st)).
    { apply Sorted_StronglySorted.
      - intros x y z Hxy Hyz. unfold R in *. lia.
      - apply (Sorted_weaken (not_after role_listing_leb)); [| exact Hsorted].
        intros x y Hxy. unfold not_after, role_listing_leb in Hxy. unfold R.
        apply orb_prop in Hxy. destruct Hxy as [H | H].
        + apply Z.ltb_lt in H. lia.
        + apply andb_prop in H. destruct H as [H _]. apply Z.eqb_eq in H. lia. }
    rewrite Heq in Hs. apply StronglySorted_after in Hs.
    rewrite Forall_forall in Hs. exact (Hs b Hb).
  - intros l1 a b l2 Heq Hflag. rewrite Heq in Hsorted.
    assert (Hab : not_after role_listing_leb a b).
    { clear Heq. induction l1 as [| x l1 IH]; simpl in Hsorted.
      - apply Sorted_inv in Hsorted. destruct Hsorted as [_ Hhd].
        now apply HdRel_inv in Hhd.
      - apply Sorted_inv in Hsorted. now apply IH. }
    unfold not_after, role_listing_leb in Hab. rewrite Hflag in Hab.
    rewrite Z.ltb_irrefl, Z.eqb_refl in Hab. exact Hab.
Qed.

Lemma fold_max_ge (ps : list Z) (p : Z) :
  (p <= fold_left Z.max ps p)%Z
  /\ (forall x, In x ps -> (x <= fold_left Z.max ps p)%Z)
  /\ (fold_left Z.max ps p = p \/ In (fold_left Z.max ps p) ps).
Proof.
  revert p. induction ps as [| q ps IH]; intros p; simpl.
  - split; [lia |]. split; [intros x [] | now left].
  - destruct (IH (Z.max p q)) as [H1 [H2 H3]]. split; [lia |]. split.
    + intros x [<- | Hx]; [lia | now apply H2].
    + destruct H3 as [H3 | H3]; [| right; now right].
      rewrite H3. destruct (Z.max_spec p q) as [[_ ->] | [_ ->]]; [right | left]; auto.
Qed.

(** X21. [getMaxTaskPosition] is 0 for an organization without tasks and
    otherwise the largest position among its tasks, reached by one of
    them. *)
Theorem getMaxTaskPosition_is_maximum (st : Store) (organizationId : string) :
  (forall t, In t (tasks st) -> task_organization_id t = organizationId ->
             (task_position t <= getMaxTaskPosition st organizationId)%Z)
  /\ ((forall t, In t (tasks st) -> task_organization_id t <> organizationId) ->
      getMaxTaskPosition st organizationId = 0%Z)
  /\ (forall t, In t (tasks st) -> task_organization_id t = organizationId ->
        exists top, In top (tasks st) /\ task_organization_id top = organizationId
                    /\ task_position top = getMaxTaskPosition st organizationId).
Proof.
  unfold getMaxTaskPosition.
  set (mine := filter (fun t => String.eqb (task_organization_id t) organizationId) (tasks st)).
  assert (Hmine : forall t, In t mine <->
                            In t (tasks st) /\ task_organization_id t = organizationId).
  { intros t. unfold mine. rewrite filter_In, String.eqb_eq. tauto. }
  split; [| split].
  - intros t Ht Horg.
    assert (Hin : In (task_position t) (map task_position mine))
      by (apply in_map, Hmine; now split).
    destruct (map task_position mine) as [| p ps]; [contradiction |].
    destruct (fold_max_ge ps p) as [H1 [H2 _]].
    destruct Hin as [<- | Hin]; [assumption | now apply H2].
  - intros Hnone. destruct mine as [| t l] eqn:E; [reflexivity |].
    exfalso. assert (Ht : In t (t :: l)) by now left.
    apply Hmine in Ht. destruct Ht as [Ht Horg]. exact (Hnone t Ht Horg).
  - intros t Ht Horg.
    assert (Hin : In (task_position t) (map task_position mine))
      by (apply in_map, Hmine; now split).
    destruct (map task_position mine) as [| p ps] eqn:E; [contradiction |].
    destruct (fold_max_ge ps p) as [_ [_ H3]].
    assert (Htop : In (fold_left Z.max ps p) (map task_position mine)).
    { rewrite E. destruct H3 as [-> | H3]; [now left | now right]. }
    apply in_map_iff in Htop. destruct Htop as [top [Hpos Htop]].
    apply Hmine in Htop. exists top. tauto.
Qed.

Lemma getMaxTaskPosition_witness :
  getMaxTaskPosition acme "east" = 0%Z
  /\ (2 <= getMaxTaskPosition acme "root")%Z.
Proof.
  split.
  - apply (proj1 (proj2 (getMaxTaskPosition_is_maximum acme "east"))).
    intros t [<- | [<- | [<- | []]]]; discriminate.
  - apply (proj1 (getMaxTaskPosition_is_maximum acme "root")
             (mkTask "t-2" "root" "Team social outing" None "todo" "Personal"
                "low" None 2 (Some "u-admin") (Some "u-viewer") 101 101)).
    + simpl. tauto.
    + reflexivity.
Defined.

Lemma clause_holds (f : option string) (test : string -> bool) (v : string) :
  clause f test = true -> f = Some v -> truthy v = true -> test v = true.
Proof. intros H -> Hv. unfold clause in H. now rewrite Hv in H. Qed.

(** X22. [listTasksForOrganizations] resolves, leaves the store as it is, and
    lists only stored tasks of the given organizations that meet each
    filter that is set; an empty organization list gives the empty list. *)
Theorem listTasksForOrganizations_scoped
    (st : Store) (orgIds : list string) (filters : TaskFilters) :
  exists rows,
    listTasksForOrganizations orgIds filters st = (ok rows, st)
    /\ (orgIds = [] -> rows = [])
    /\ forall row, In row rows ->
         In (organizationId row) orgIds
         /\ (exists t, In t (tasks st) /\ row = task_row st t)
         /\ (forall v, f_status filters = Some v -> truthy v = true -> status row = v)
         /\ (forall v, f_category filters = Some v -> truthy v = true -> category row = v)
         /\ (forall v, f_assignedTo filters = Some v -> truthy v = true ->
                       assignedTo row = Some v).
Proof.
  unfold listTasksForOrganizations. destruct orgIds as [| o orgIds'].
  - exists []. split; [reflexivity |]. split; [reflexivity | intros row []].
  - eexists. split; [reflexivity |]. split; [discriminate |].
    intros row Hrow. apply in_map_iff in Hrow. destruct Hrow as [t [<- Ht]].
    apply order_by_In in Ht. apply filter_In in Ht. destruct Ht as [Ht Hm].
    unfold task_matches in Hm.
    repeat (apply andb_prop in Hm; destruct Hm as [Hm ?]).
    split; [now apply includes_In |]. split; [now exists t |]. simpl.
    split; [| split].
    + intros v Hf Hv. symmetry.
      pose proof (clause_holds _ _ v H2 Hf Hv) as Hc. now apply String.eqb_eq in Hc.
    + intros v Hf Hv. symmetry.
      pose proof (clause_holds _ _ v H1 Hf Hv) as Hc. now apply String.eqb_eq in Hc.
    + intros v Hf Hv.
      pose proof (clause_holds _ _ v H Hf Hv) as Hc. now apply opt_eqb_eq in Hc.
Qed.

(* ================================================================== *)
(** ** Routes *)
(* ================================================================== *)

Lemma task_guard_store (permission : string) (req : Request) (st : Store) :
  snd (TaskRoutes.guard permission req st) = st.
Proof.
  unfold TaskRoutes.guard, handle. destruct (req_user req) as [u |]; [| reflexivity].
  destruct (String.eqb (user_role u) "owner"); [reflexivity |].
  destruct (roleAllows (user_role u) permission) as [e | b]; [reflexivity |].
  unfold bind, select, resolve. simpl.
  destruct (b || hasRolePermission st None (user_role u) permission); reflexivity.
Qed.

Lemma permission_guard_store (permission : string) (req : Request) (st : Store) :
  snd (AuthLib.createPermissionGuard permission req st) = st.
Proof.
  unfold AuthLib.createPermissionGuard. destruct (req_user req) as [u |]; [| reflexivity].
  destruct (roleAllows (user_role u) permission) as [e | [|]]; reflexivity.
Qed.

Lemma category_guard_store (m : Method) (path : string) (req : Request) (st : Store) :
  snd (CategoryRoutes.route_guard m path req st) = st.
Proof.
  unfold CategoryRoutes.route_guard.
  destruct (CategoryRoutes.route_permission m path);
    [apply permission_guard_store | reflexivity].
Qed.

Lemma access_guard_store (req : Request) (st : Store) :
  snd (AdminRoutes.access_guard req st) = st.
Proof.
  unfold AdminRoutes.access_guard, handle. destruct (req_user req) as [u |]; [| reflexivity].
  destruct (String.eqb (user_role u) ROLES.OWNER); [reflexivity |].
  unfold bind, select, resolve. simpl.
  destruct (hasRolePermission st None (user_role u) "admin:access"); reflexivity.
Qed.

(** A route whose guard does not call [next] leaves the store as the guard
    found it and sends no body; otherwise it is its handler. *)
Lemma guarded_cases {A} (g : Store -> Verdict * Store)
    (handler : Store -> Reply A * Store) (st : Store) :
  (forall s, snd (g s) = s) ->
  (fst (g st) = next /\ guarded g handler st = handler st)
  \/ (fst (g st) <> next /\ snd (guarded g handler st) = st
      /\ forall body, fst (guarded g handler st) <> send body).
Proof.
  intros Hg. specialize (Hg st). unfold guarded.
  destruct (g st) as [[| e | s e p | body] st1]; simpl in Hg; subst st1;
    [left; now split | right | right | destruct body];
    (split; [discriminate | split; [reflexivity | intros body; discriminate]]).
Qed.

Lemma set_of_list_In (l : list string) (x : string) : In x (set_of_list l) <-> In x l.
Proof.
  unfold set_of_list.
  rewrite (fold_set_add_In (fun a : string => a) l [] x), map_id. simpl. tauto.
Qed.

Lemma listTasksForOrganizations_rows orgIds filters st st' rows :
  listTasksForOrganizations orgIds filters st = (ok rows, st') ->
  st' = st
  /\ forall row, In row rows ->
       In (organizationId row) orgIds
       /\ exists t, In t (tasks st) /\ row = task_row st t.
Proof.
  unfold listTasksForOrganizations. destruct orgIds as [| o orgIds'].
  - intros H. injection H as <- <-. split; [reflexivity | intros row []].
  - intros H. unfold select in H. injection H as <- <-. split; [reflexivity |].
    intros row Hrow. apply in_map_iff in Hrow. destruct Hrow as [t [<- Ht]].
    apply order_by_In in Ht. apply filter_In in Ht. destruct Ht as [Ht Hm].
    unfold task_matches in Hm.
    repeat (apply andb_prop in Hm; destruct Hm as [Hm ?]).
    split; [now apply includes_In | now exists t].
Qed.

Lemma listAccessibleCategoriesForRole_In orgIds role st st' cats :
  listAccessibleCategoriesForRole orgIds role st = (ok cats, st') ->
  st' = st /\ forall c, In c cats <-> accessible_to st orgIds role c.
Proof.
  unfold listAccessibleCategoriesForRole, accessible_to.
  destruct orgIds as [| o orgIds'].
  - intros H. injection H as <- <-. split; [reflexivity |]. intros c. simpl. tauto.
  - intros H. unfold select in H. injection H as <- <-. split; [reflexivity |].
    intros c. set (orgIds := o :: orgIds').
    rewrite order_by_In, in_map_iff. split.
    + intros [row [Hfst Hrow]]. apply filter_In in Hrow. destruct Hrow as [Hrow Hacc].
      apply in_flat_map in Hrow. destruct Hrow as [c0 [Hc0 Hrow]].
      pose proof (left_join_access_fst _ _ _ _ Hrow) as Hc. rewrite Hfst in Hc. subst c0.
      split; [assumption |].
      apply (left_join_access_visible st orgIds role c). now exists row.
    + intros [Hc Hvis].
      apply (left_join_access_visible st orgIds role c) in Hvis.
      destruct Hvis as [row [Hrow Hacc]]. exists row. split.
      * exact (left_join_access_fst _ _ _ _ Hrow).
      * apply filter_In. split; [| assumption].
        apply in_flat_map. now exists c.
Qed.

(** X23. Whatever [GET /tasks] sends is read from the store, which it leaves as
    it is: every task shown belongs to an organization of the caller's
    scope, and a caller who is not an owner is shown a task outside the
    Personal category only when its category carries the name of a
    category of the scope that is open to the caller's role. *)
Theorem get_tasks_scope_and_category_access
    (st st' : Store) (req : Request) (user : User) (listing : list TaskRow) :
  req_user req = Some user ->
  TaskRoutes.get_tasks req st = (send listing, st') ->
  st' = st
  /\ forall t, In t listing ->
       In (organizationId t) (req_orgScope req)
       /\ (exists task, In task (tasks st) /\ t = task_row st task)
       /\ (user_role user <> "owner" -> category t <> "Personal" ->
           exists c, accessible_to st (req_orgScope req) (user_role user) c
                     /\ cat_name c = category t).
Proof.
  intros Hu Hrun. unfold TaskRoutes.get_tasks in Hrun.
  pose proof (task_guard_store "tasks:view" req st) as Hg.
  destruct (TaskRoutes.guard "tasks:view" req st) as [[| e | s e p | body] st1];
    try discriminate; [| destruct body].
  simpl in Hg. subst st1.
  unfold TaskRoutes.list_tasks, handle, bind in Hrun. rewrite Hu in Hrun.
  destruct (listTasksForOrganizations_resolves (req_orgScope req)
              (TaskRoutes.normalizeTaskFilters (query req)) st) as [rows Hrows].
  rewrite Hrows in Hrun.
  destruct (listTasksForOrganizations_rows _ _ _ _ _ Hrows) as [_ Hscope].
  destruct (negb (String.eqb (user_role user) "owner")) eqn:Howner.
  - destruct (listAccessibleCategoriesForRole_resolves (req_orgScope req)
                (user_role user) st) as [cats Hcats].
    rewrite Hcats in Hrun. unfold resolve in Hrun. simpl in Hrun.
    injection Hrun as <- <-. split; [reflexivity |].
    destruct (listAccessibleCategoriesForRole_In _ _ _ _ _ Hcats) as [_ Hacc].
    intros t Hin. apply in_map_iff in Hin. destruct Hin as [t0 [Heq H]].
    rewrite sanitizeTask_id in Heq. subst t0.
    apply filter_In in H. destruct H as [H Hcat].
    apply filter_In in H. destruct H as [H _].
    destruct (Hscope t H) as [Horg Htask].
    split; [assumption |]. split; [assumption |].
    intros _ Hnot. apply String.eqb_neq in Hnot. rewrite Hnot in Hcat. simpl in Hcat.
    apply set_has_In, set_of_list_In, in_map_iff in Hcat.
    destruct Hcat as [c [Hname Hc]]. exists c. split; [now apply Hacc | assumption].
  - unfold resolve in Hrun. simpl in Hrun. injection Hrun as <- <-.
    split; [reflexivity |].
    intros t Hin. apply in_map_iff in Hin. destruct Hin as [t0 [Heq H]].
    rewrite sanitizeTask_id in Heq. subst t0.
    apply filter_In in H. destruct H as [H _].
    destruct (Hscope t H) as [Horg Htask].
    split; [assumption |]. split; [assumption |].
    intros Hrole. apply String.eqb_neq in Hrole. rewrite Hrole in Howner. discriminate.
Qed.

(** In the sample store the viewer Vera, scoped to "root", is shown the
    task of the system category "Work" and nothing of "Launch", which is
    granted to other roles only. *)
Lemma get_tasks_scope_and_category_access_witness :
  exists listing,
    TaskRoutes.get_tasks (request_of vera ["root"]) acme = (send listing, acme)
    /\ map id listing = ["t-1"]
    /\ forall t, In t listing -> In (organizationId t) ["root"].
Proof.
  eexists. split; [vm_compute; reflexivity |]. split; [reflexivity |].
  intros t Hin.
  refine (proj1 (proj2 (get_tasks_scope_and_category_access acme acme
            (request_of vera ["root"]) vera _ eq_refl _) t Hin)).
  vm_compute. reflexivity.
Defined.

Lemma logAudit_leaves_store : leaves_store logAudit.
Proof.
  intros event st. unfold logAudit.
  destruct (negb (truthy (ev_action event)) || negb (truthy (ev_entity event))
            || negb (truthy (ev_entityId event))); [reflexivity |].
  unfold run.
  match goal with |- context [if ?b then _ else _] => destruct b end; reflexivity.
Qed.

Lemma first_row_In {A} (l : list A) (x : A) : first_row l = Some x -> In x l.
Proof. destruct l; [discriminate | intros H; injection H as ->; now left]. Qed.

Lemma getTaskById_deleted (st : Store) (id : string) :
  getTaskById (set_tasks st (filter (fun t => negb (String.eqb (task_id t) id)) (tasks st))) id
  = None.
Proof.
  unfold getTaskById. simpl.
  assert (H : filter (fun t => String.eqb (task_id t) id)
                (filter (fun t => negb (String.eqb (task_id t) id)) (tasks st)) = []).
  { apply (proj2 (filter_nil_iff _ _)). intros t Ht.
    apply filter_In in Ht. destruct Ht as [_ Ht]. now apply negb_true_iff in Ht. }
  now rewrite H.
Qed.

Lemma delete_task_cases
    (auditLogger : AuditEvent -> Db unit) (id : string) (req : Request) (st : Store) :
  leaves_store auditLogger ->
  (snd (delete_task auditLogger id req st) = st
   /\ forall body, fst (delete_task auditLogger id req st) <> send body)
  \/ (exists existing,
        getTaskById st id = Some existing
        /\ In (organizationId existing) (req_orgScope req)
        /\ snd (delete_task auditLogger id req st)
           = set_tasks st (filter (fun t => negb (String.eqb (task_id t) id)) (tasks st))
        /\ (fst (delete_task auditLogger id req st) = send 204%Z
            \/ exists e, fst (delete_task auditLogger id req st) = next_error e)).
Proof.
  intros Hquiet. unfold delete_task, handle, bind, select. simpl.
  destruct (getTaskById st id) as [existing |] eqn:Hget;
    [| left; split; [reflexivity | intros body; discriminate]].
  destruct (set_has (set_of_list (req_orgScope req)) (organizationId existing)) eqn:Hscope;
    simpl; [| left; split; [reflexivity | intros body; discriminate]].
  apply set_has_In in Hscope. apply (proj1 (set_of_list_In _ _)) in Hscope.
  right. exists existing. split; [reflexivity |]. split; [assumption |].
  unfold run, deleteTask. simpl.
  set (st1 := set_tasks st (filter (fun t => negb (String.eqb (task_id t) id)) (tasks st))).
  destruct (req_user req) as [u |]; simpl.
  - pose proof (Hquiet (mkAuditEvent "task.deleted" "task" id (Some (user_id u))
                          (Some (organizationId existing))) st1) as Hq.
    destruct (auditLogger _ st1) as [[e | []] st2]; simpl in Hq; subst st2; simpl;
      (split; [reflexivity |]).
    + right. now exists e.
    + now left.
  - split; [reflexivity |]. right. eexists. reflexivity.
Qed.

(** X24. [DELETE /tasks/:id]. Unless the guard lets the caller through, the
    task exists and its organization is in the caller's scope, the store
    stays as it is and no body is sent. Otherwise the rows with that id
    are deleted and nothing else is touched, and the answer is 204; when
    the audit logger rejects, the error goes to the error handler and the
    task stays deleted. *)
Theorem delete_task_route_outcome
    (auditLogger : AuditEvent -> Db unit) (id : string) (req : Request) (st : Store) :
  leaves_store auditLogger ->
  (snd (delete_task_route auditLogger id req st) = st
   /\ forall body, fst (delete_task_route auditLogger id req st) <> send body)
  \/ (exists existing,
        fst (TaskRoutes.guard "tasks:delete" req st) = next
        /\ getTaskById st id = Some existing
        /\ In (organizationId existing) (req_orgScope req)
        /\ snd (delete_task_route auditLogger id req st)
           = set_tasks st (filter (fun t => negb (String.eqb (task_id t) id)) (tasks st))
        /\ getTaskById (snd (delete_task_route auditLogger id req st)) id = None
        /\ (fst (delete_task_route auditLogger id req st) = send 204%Z
            \/ exists e, fst (delete_task_route auditLogger id req st) = next_error e)).
Proof.
  intros Hquiet. unfold delete_task_route.
  destruct (guarded_cases (TaskRoutes.guard "tasks:delete" req)
              (delete_task auditLogger id req) st
              (task_guard_store "tasks:delete" req)) as [[Hnext ->] | [_ Hstop]];
    [| now left].
  destruct (delete_task_cases auditLogger id req st Hquiet)
    as [Hsame | [existing [Hget [Hscope [Hst Hreply]]]]]; [now left |].
  right. exists existing.
  split; [assumption |]. split; [assumption |]. split; [assumption |].
  split; [assumption |]. split; [| assumption].
  rewrite Hst. apply getTaskById_deleted.
Qed.

(** The owner Olivia, scoped to "root", deletes the task "t-3" of the
    sample store: 204, and the task is gone. *)
Lemma delete_task_route_outcome_witness :
  fst (delete_task_route logAudit "t-3" (request_of olivia ["root"]) acme) = send 204%Z
  /\ ((snd (delete_task_route logAudit "t-3" (request_of olivia ["root"]) acme) = acme
       /\ forall body,
            fst (delete_task_route logAudit "t-3" (request_of olivia ["root"]) acme)
            <> send body)
      \/ (exists existing,
            fst (TaskRoutes.guard "tasks:delete" (request_of olivia ["root"]) acme) = next
            /\ getTaskById acme "t-3" = Some existing
            /\ In (organizationId existing) (req_orgScope (request_of olivia ["root"]))
            /\ snd (delete_task_route logAudit "t-3" (request_of olivia ["root"]) acme)
               = set_tasks acme
                   (filter (fun t => negb (String.eqb (task_id t) "t-3")) (tasks acme))
            /\ getTaskById
                 (snd (delete_task_route logAudit "t-3" (request_of olivia ["root"]) acme))
                 "t-3" = None
            /\ (fst (delete_task_route logAudit "t-3" (request_of olivia ["root"]) acme)
                = send 204%Z
                \/ exists e,
                     fst (delete_task_route logAudit "t-3" (request_of olivia ["root"]) acme)
                     = next_error e))).
Proof.
  split; [vm_compute; reflexivity |].
  exact (delete_task_route_outcome logAudit "t-3" (request_of olivia ["root"]) acme
           logAudit_leaves_store).
Defined.

Lemma getCategoryById_deleted (st : Store) (id : string) (a : list CategoryRoleAccess) :
  getCategoryById
    (set_categories st (filter (fun c => negb (String.eqb (cat_id c) id)) (categories st)) a)
    id = None.
Proof.
  unfold getCategoryById. simpl.
  assert (H : filter (fun c => String.eqb (cat_id c) id)
                (filter (fun c => negb (String.eqb (cat_id c) id)) (categories st)) = []).
  { apply (proj2 (filter_nil_iff _ _)). intros c Hc.
    apply filter_In in Hc. destruct Hc as [_ Hc]. now apply negb_true_iff in Hc. }
  now rewrite H.
Qed.

Lemma getCategoryById_exists (st : Store) (id : string) (c : Category) :
  getCategoryById st id = Some c ->
  existsb (fun c => String.eqb (cat_id c) id) (categories st) = true.
Proof.
  unfold getCategoryById. intros H. apply first_row_In, filter_In in H.
  apply existsb_exists. now exists c.
Qed.

Lemma delete_category_cases
    (auditLogger : AuditEvent -> Db unit) (id : string) (req : Request) (st : Store) :
  leaves_store auditLogger ->
  (snd (delete_category auditLogger id req st) = st
   /\ forall body, fst (delete_category auditLogger id req st) <> send body)
  \/ (exists existing,
        getCategoryById st id = Some existing
        /\ In (cat_organization_id existing) (req_orgScope req)
        /\ is_set (cat_is_system existing) = false
        /\ snd (delete_category auditLogger id req st)
           = set_categories st
               (filter (fun c => negb (String.eqb (cat_id c) id)) (categories st))
               (filter (fun r => negb (String.eqb (cra_category_id r) id))
                       (category_role_access st))
        /\ (fst (delete_category auditLogger id req st) = send 204%Z
            \/ exists e, fst (delete_category auditLogger id req st) = next_error e)).
Proof.
  intros Hquiet. unfold delete_category, handle, bind, select. simpl.
  destruct (getCategoryById st id) as [existing |] eqn:Hget;
    [| left; split; [reflexivity | intros body; discriminate]].
  destruct (set_has (set_of_list (req_orgScope req)) (cat_organization_id existing))
    eqn:Hscope; simpl; [| left; split; [reflexivity | intros body; discriminate]].
  apply set_has_In in Hscope. apply (proj1 (set_of_list_In _ _)) in Hscope.
  destruct (is_set (cat_is_system existing)) eqn:Hsys;
    [left; split; [reflexivity | intros body; discriminate] |].
  right. exists existing. split; [reflexivity |]. split; [assumption |].
  split; [assumption |].
  unfold run, deleteCategory. rewrite (getCategoryById_exists _ _ _ Hget).
  match goal with |- context [auditLogger ?ev ?s] =>
    pose proof (Hquiet ev s) as Hq; destruct (auditLogger ev s) as [[e | []] st2]
  end; simpl in Hq; subst st2; simpl; (split; [reflexivity |]).
  - right. now exists e.
  - now left.
Qed.

(** X26. [DELETE /categories/:id]. The store changes only when the caller's
    role holds "categories:delete" in the static catalog, the category
    exists, is in the caller's scope and is not a system category; then
    the category and its access rows are deleted and nothing else is
    touched. In every other case the store stays as it is and no body is
    sent. *)
Theorem delete_category_route_outcome
    (auditLogger : AuditEvent -> Db unit) (id : string) (req : Request) (st : Store) :
  leaves_store auditLogger ->
  (snd (delete_category_route auditLogger id req st) = st
   /\ forall body, fst (delete_category_route auditLogger id req st) <> send body)
  \/ (exists user existing,
        req_user req = Some user
        /\ roleAllows (user_role user) "categories:delete" = ok true
        /\ getCategoryById st id = Some existing
        /\ In (cat_organization_id existing) (req_orgScope req)
        /\ is_set (cat_is_system existing) = false
        /\ snd (delete_category_route auditLogger id req st)
           = set_categories st
               (filter (fun c => negb (String.eqb (cat_id c) id)) (categories st))
               (filter (fun r => negb (String.eqb (cra_category_id r) id))
                       (category_role_access st))
        /\ getCategoryById (snd (delete_category_route auditLogger id req st)) id = None
        /\ (fst (delete_category_route auditLogger id req st) = send 204%Z
            \/ exists e, fst (delete_category_route auditLogger id req st) = next_error e)).
Proof.
  intros Hquiet. unfold delete_category_route.
  destruct (guarded_cases (CategoryRoutes.route_guard DELETE "/:id" req)
              (delete_category auditLogger id req) st
              (category_guard_store DELETE "/:id" req)) as [[Hnext ->] | [_ Hstop]];
    [| now left].
  assert (Huser : exists user, req_user req = Some user
                               /\ roleAllows (user_role user) "categories:delete" = ok true).
  { unfold CategoryRoutes.route_guard in Hnext. simpl in Hnext.
    unfold AuthLib.createPermissionGuard in Hnext.
    destruct (req_user req) as [u |]; [| discriminate]. exists u. split; [reflexivity |].
    destruct (roleAllows (user_role u) "categories:delete") as [e | [|]];
      [discriminate | reflexivity | discriminate]. }
  destruct Huser as [user [Hu Hstatic]].
  destruct (delete_category_cases auditLogger id req st Hquiet)
    as [Hsame | [existing [Hget [Hscope [Hsys [Hst Hreply]]]]]]; [now left |].
  right. exists user, existing.
  split; [assumption |]. split; [assumption |]. split; [assumption |].
  split; [assumption |]. split; [assumption |]. split; [assumption |].
  split; [| assumption].
  rewrite Hst. apply getCategoryById_deleted.
Qed.

(** The admin Avery, scoped to "root", deletes the custom category
    "c-launch" of the sample store: 204, and its two access rows go with
    it. *)
Lemma delete_category_route_outcome_witness :
  fst (delete_category_route logAudit "c-launch" (request_of avery ["root"]) acme)
  = send 204%Z
  /\ category_role_access
       (snd (delete_category_route logAudit "c-launch" (request_of avery ["root"]) acme))
     = []
  /\ ((snd (delete_category_route logAudit "c-launch" (request_of avery ["root"]) acme)
       = acme
       /\ forall body,
            fst (delete_category_route logAudit "c-launch" (request_of avery ["root"]) acme)
            <> send body)
      \/ (exists user existing,
            req_user (request_of avery ["root"]) = Some user
            /\ roleAllows (user_role user) "categories:delete" = ok true
            /\ getCategoryById acme "c-launch" = Some existing
            /\ In (cat_organization_id existing) (req_orgScope (request_of avery ["root"]))
            /\ is_set (cat_is_system existing) = false
            /\ snd (delete_category_route logAudit "c-launch"
                      (request_of avery ["root"]) acme)
               = set_categories acme
                   (filter (fun c => negb (String.eqb (cat_id c) "c-launch"))
                           (categories acme))
                   (filter (fun r => negb (String.eqb (cra_category_id r) "c-launch"))
                           (category_role_access acme))
            /\ getCategoryById
                 (snd (delete_category_route logAudit "c-launch"
                         (request_of avery ["root"]) acme)) "c-launch" = None
            /\ (fst (delete_category_route logAudit "c-launch"
                       (request_of avery ["root"]) acme) = send 204%Z
                \/ exists e,
                     fst (delete_category_route logAudit "c-launch"
                            (request_of avery ["root"]) acme) = next_error e))).
Proof.
  split; [vm_compute; reflexivity |]. split; [vm_compute; reflexivity |].
  exact (delete_category_route_outcome logAudit "c-launch" (request_of avery ["root"]) acme
           logAudit_leaves_store).
Defined.

(** X27. [PUT /categories/:id/access] changes the store or sends a body only
    for a caller whose role is exactly "owner" and a category that
    exists. *)
Theorem put_category_access_owner_only
    (uuid : nat -> string) (id : string) (roles : option (list string))
    (req : Request) (st : Store) :
  snd (put_category_access_route uuid id roles req st) <> st
  \/ (exists body, fst (put_category_access_route uuid id roles req st) = send body) ->
  exists user existing,
    req_user req = Some user
    /\ user_role user = "owner"
    /\ getCategoryById st id = Some existing.
Proof.
  unfold put_category_access_route.
  destruct (guarded_cases (CategoryRoutes.route_guard PUT "/:id/access" req)
              (put_category_access uuid id roles req) st
              (category_guard_store PUT "/:id/access" req))
    as [[Hnext ->] | [_ [Hst Hsend]]].
  - unfold put_category_access, handle.
    destruct (req_user req) as [user |].
    + destruct (String.eqb (user_role user) ROLES.OWNER) eqn:Howner; simpl.
      * apply String.eqb_eq in Howner. unfold bind, select.
        destruct (getCategoryById st id) as [existing |].
        -- intros _. now exists user, existing.
        -- simpl. intros [H | [body H]]; [now contradiction H | discriminate].
      * intros [H | [body H]]; [now contradiction H | discriminate].
    + simpl. intros [H | [body H]]; [now contradiction H | discriminate].
  - intros [H | [body H]]; [contradiction | exact (False_ind _ (Hsend body H))].
Qed.

(** The owner Olivia grants "viewer" access to "c-launch" in the sample
    store; the route answers with the new list. *)
Lemma put_category_access_owner_only_witness :
  fst (put_category_access_route (sample_uuid "n-") "c-launch" (Some ["viewer"])
         (request_of olivia ["root"]) acme) = send ["viewer"]
  /\ exists user existing,
       req_user (request_of olivia ["root"]) = Some user
       /\ user_role user = "owner"
       /\ getCategoryById acme "c-launch" = Some existing.
Proof.
  split; [vm_compute; reflexivity |].
  apply (put_category_access_owner_only (sample_uuid "n-") "c-launch" (Some ["viewer"])
           (request_of olivia ["root"]) acme).
  right. eexists. vm_compute. reflexivity.
Defined.

(** X25. [GET /categories] answers every user from the store, which it leaves
    as it is. An owner is sent the categories of the organizations in the
    request's scope, all of them; anybody else is sent only categories of
    that scope that are open to the caller's role. *)
Theorem get_categories_by_role (req : Request) (st : Store) (user : User) :
  req_user req = Some user ->
  exists body,
    get_categories req st = (send body, st)
    /\ match body with
       | all_in_scope items =>
           user_role user = "owner"
           /\ forall l, In l items <->
                exists c, In c (categories st)
                          /\ In (cat_organization_id c) (req_orgScope req)
                          /\ l = category_listing st c
       | accessible items =>
           user_role user <> "owner"
           /\ forall c, In c items <->
                accessible_to st (req_orgScope req) (user_role user) c
       end.
Proof.
  intros Hu. unfold get_categories, handle, bind. rewrite Hu.
  destruct (String.eqb (user_role user) ROLES.OWNER) eqn:Howner.
  - apply String.eqb_eq in Howner. unfold listCategoriesForOrganizations.
    destruct (req_orgScope req) as [| o scope'] eqn:Hscope.
    + eexists. split; [reflexivity |]. split; [assumption |].
      intros l. split; [intros [] | intros [c [_ [[] _]]]].
    + eexists. split; [reflexivity |]. split; [assumption |].
      intros l. rewrite order_by_In, in_map_iff. split.
      * intros [c [<- Hc]]. apply filter_In in Hc. destruct Hc as [Hc Hin].
        exists c. split; [assumption |]. split; [| reflexivity].
        now apply includes_In.
      * intros [c [Hc [Hin ->]]]. exists c. split; [reflexivity |].
        apply filter_In. split; [assumption |]. now apply includes_In.
  - apply String.eqb_neq in Howner.
    destruct (listAccessibleCategoriesForRole_resolves (req_orgScope req)
                (user_role user) st) as [cats Hcats].
    rewrite Hcats. eexists. split; [reflexivity |]. split; [assumption |].
    exact (proj2 (listAccessibleCategoriesForRole_In _ _ _ _ _ Hcats)).
Qed.

(** The viewer Vera, scoped to "root", is sent the two system categories
    of the sample store and neither "Launch" nor "Secret". *)
Lemma get_categories_by_role_witness :
  map cat_name [mkCategory "c-personal" "root" "Personal" 1 10;
                mkCategory "c-work" "root" "Work" 1 10] = ["Personal"; "Work"]
  /\ get_categories (request_of vera ["root"]) acme
     = (send (accessible [mkCategory "c-personal" "root" "Personal" 1 10;
                          mkCategory "c-work" "root" "Work" 1 10]), acme)
  /\ exists body,
       get_categories (request_of vera ["root"]) acme = (send body, acme)
       /\ match body with
          | all_in_scope items =>
              user_role vera = "owner"
              /\ forall l, In l items <->
                   exists c, In c (categories acme)
                             /\ In (cat_organization_id c)
                                   (req_orgScope (request_of vera ["root"]))
                             /\ l = category_listing acme c
          | accessible items =>
              user_role vera <> "owner"
              /\ forall c, In c items <->
                   accessible_to acme (req_orgScope (request_of vera ["root"]))
                     (user_role vera) c
          end.
Proof.
  split; [reflexivity |]. split; [vm_compute; reflexivity |].
  exact (get_categories_by_role (request_of vera ["root"]) acme vera eq_refl).
Defined.

Lemma lower_char_idempotent (c : ascii) : lower_char (lower_char c) = lower_char c.
Proof. destruct c as [[] [] [] [] [] [] [] []]; vm_compute; reflexivity. Qed.

Lemma toLowerCase_idempotent (s : string) : toLowerCase (toLowerCase s) = toLowerCase s.
Proof.
  unfold toLowerCase. induction s as [| c s IH]; simpl; [reflexivity |].
  now rewrite lower_char_idempotent, IH.
Qed.

(** X28. What [GET /roles/:name/permissions] shows, whenever it answers: one
    entry for each key of the catalog, in its order; every entry enabled
    for the owner role; and for a key of which the role has no global
    row, enabled for "owner" and "admin" and disabled for every other
    role, although [hasRolePermission] answers false for each of them. *)
Theorem get_role_permissions_defaults
    (name : string) (req : Request) (st : Store)
    (shown : string) (permissions : list (string * bool)) :
  fst (get_role_permissions name req st) = send (shown, permissions) ->
  map fst permissions = permission_catalog
  /\ (toLowerCase (trim name) = "owner" ->
      forall key enabled, In (key, enabled) permissions -> enabled = true)
  /\ forall key,
       In key permission_catalog ->
       (forall r, In r (role_permissions st) ->
                  rp_organization_id r = None -> rp_permission r = key ->
                  toLowerCase (rp_role r) <> toLowerCase (trim name)) ->
       In (key, String.eqb (toLowerCase (trim name)) "owner"
                || String.eqb (toLowerCase (trim name)) "admin") permissions
       /\ hasRolePermission st None (toLowerCase (trim name)) key = false.
Proof.
  unfold get_role_permissions, handle, bind.
  set (roleName := toLowerCase (trim name)).
  assert (Hview : forall b,
    fst (let (r, st') :=
           (if negb b then resolve (refuse 403 "Forbidden" None)
            else
              fun st0 =>
                match select (fun st => getRoleByName st roleName) st0 with
                | (inl e, st') => (inl e, st')
                | (inr role, st') =>
                    match role with
                    | None => resolve (refuse 404 "Role not found" None)
                    | Some role =>
                        fun st1 =>
                          match select (fun st => listRolePermissions st None) st1 with
                          | (inl e, st') => (inl e, st')
                          | (inr all, st') =>
                              resolve
                                (send (role_name role,
                                       map (fun key =>
                                              (key, shown_enabled roleName
                                                 (filter (fun r =>
                                                    String.eqb (toLowerCase (pr_role r)) roleName
                                                    && match pr_organizationId r with
                                                       | None => true
                                                       | Some _ => false
                                                       end) all) key))
                                           permission_catalog)) st'
                          end
                    end st'
                end) st in
         match r with
         | inl e => (next_error e, st')
         | inr r => (r, st')
         end) = send (shown, permissions) ->
    permissions
    = map (fun key =>
             (key, shown_enabled roleName
                     (filter (fun r => String.eqb (toLowerCase (pr_role r)) roleName
                                       && match pr_organizationId r with
                                          | None => true
                                          | Some _ => false
                                          end)
                             (listRolePermissions st None)) key))
          permission_catalog).
  { intros [|]; simpl; [| discriminate]. unfold select.
    destruct (getRoleByName st roleName) as [role |]; simpl; [| discriminate].
    intros H. now injection H as _ <-. }
  intros Hrun.
  assert (Hperms : permissions
    = map (fun key =>
             (key, shown_enabled roleName
                     (filter (fun r => String.eqb (toLowerCase (pr_role r)) roleName
                                       && match pr_organizationId r with
                                          | None => true
                                          | Some _ => false
                                          end)
                             (listRolePermissions st None)) key))
          permission_catalog).
  { destruct (req_user req) as [actor |].
    - destruct (String.eqb (user_role actor) ROLES.OWNER).
      + exact (Hview true Hrun).
      + exact (Hview (hasRolePermission st None (user_role actor) "roles:view") Hrun).
    - exact (Hview false Hrun). }
  clear Hrun Hview. subst permissions. split; [| split].
  - rewrite map_map. apply map_id.
  - intros Howner key enabled Hin. apply in_map_iff in Hin.
    destruct Hin as [k [Heq _]]. injection Heq as _ <-.
    unfold shown_enabled. now rewrite Howner.
  - intros key Hkey Hnone. split.
    + apply in_map_iff. exists key. split; [| assumption]. f_equal.
      unfold shown_enabled.
      match goal with |- context [find ?p ?l] => destruct (find p l) as [r |] eqn:Hfind end.
      * exfalso. apply find_some in Hfind. destruct Hfind as [Hin Hk].
        apply String.eqb_eq in Hk. apply filter_In in Hin. destruct Hin as [Hin Hr].
        apply andb_prop in Hr. destruct Hr as [Hrole Horg].
        apply String.eqb_eq in Hrole.
        unfold listRolePermissions in Hin. apply in_map_iff in Hin.
        destruct Hin as [r0 [<- Hin]]. simpl in *.
        destruct (rp_organization_id r0) eqn:Ho; [discriminate |].
        exact (Hnone r0 Hin Ho Hk Hrole).
      * unfold ROLES.OWNER, ROLES.ADMIN.
        destruct (String.eqb roleName "owner"); [reflexivity |].
        destruct (String.eqb roleName "admin"); reflexivity.
    + apply hasRolePermission_no_candidate. intros r Hin.
      unfold candidate, org_is_null, org_equals.
      destruct (rp_organization_id r) eqn:Ho; [reflexivity |]. simpl.
      destruct (String.eqb (rp_role r) roleName) eqn:Hrole; [| reflexivity].
      destruct (String.eqb (rp_permission r) key) eqn:Hk; [| reflexivity].
      exfalso. apply String.eqb_eq in Hrole, Hk.
      apply (Hnone r Hin Ho Hk). rewrite Hrole. apply toLowerCase_idempotent.
Qed.

(** In the sample store the role "admin" has no global row for
    "tasks:view": the owner is shown it as enabled, and
    [hasRolePermission] answers false. *)
Lemma get_role_permissions_defaults_witness :
  exists shown permissions,
    fst (get_role_permissions " Admin" (request_of olivia ["root"]) acme)
    = send (shown, permissions)
    /\ In ("tasks:view", true) permissions
    /\ hasRolePermission acme None "admin" "tasks:view" = false.
Proof.
  eexists. eexists. split; [vm_compute; reflexivity |].
  apply (proj2 (proj2 (get_role_permissions_defaults " Admin"
                         (request_of olivia ["root"]) acme _ _ eq_refl)) "tasks:view").
  - vm_compute. tauto.
  - intros r [<- | [<- | [<- | [<- | [<- | []]]]]] Horg Hkey; vm_compute; discriminate.
Defined.

(** X29. [PUT /roles/:name/permissions/:permission] changes the store or sends
    a body only for a caller whose role is exactly "owner" and a target
    role that is in the catalog under another name than "owner": an admin
    holding "admin:access" passes the router's guard and is refused. *)
Theorem put_role_permission_owner_only
    (auditLogger : AuditEvent -> Db unit) (id name permission : string)
    (enabled : bool) (req : Request) (st : Store) :
  leaves_store auditLogger ->
  snd (put_role_permission_route auditLogger id name permission enabled req st) <> st
  \/ (exists body,
        fst (put_role_permission_route auditLogger id name permission enabled req st)
        = send body) ->
  exists actor role,
    req_user req = Some actor
    /\ user_role actor = "owner"
    /\ getRoleByName st (toLowerCase (trim name)) = Some role
    /\ role_name role <> "owner".
Proof.
  intros Hquiet. unfold put_role_permission_route.
  destruct (guarded_cases (AdminRoutes.access_guard req)
              (put_role_permission auditLogger id name permission enabled req) st
              (access_guard_store req))
    as [[Hnext ->] | [_ [Hst Hsend]]].
  - unfold put_role_permission, handle.
    destruct (req_user req) as [actor |].
    + destruct (String.eqb (user_role actor) ROLES.OWNER) eqn:Howner; simpl.
      * apply String.eqb_eq in Howner. unfold bind, select.
        destruct (getRoleByName st (toLowerCase (trim name))) as [role |].
        -- unfold ok. cbv beta iota. match goal with
           | |- context [if String.eqb (role_name role) ?o then _ else _] =>
               destruct (String.eqb (role_name role) o) eqn:Htarget
           end.
           ++ simpl. intros [H | [body H]]; [now contradiction H | discriminate].
           ++ apply String.eqb_neq in Htarget. intros _. now exists actor, role.
        -- simpl. intros [H | [body H]]; [now contradiction H | discriminate].
      * intros [H | [body H]]; [now contradiction H | discriminate].
    + simpl. intros [H | [body H]]; [now contradiction H | discriminate].
  - intros [H | [body H]]; [contradiction | exact (False_ind _ (Hsend body H))].
Qed.

(** The admin Avery holds "admin:access" in the sample store and passes
    the router's guard, but is answered 403 and nothing changes; the owner
    Olivia is answered with the new setting. *)
Lemma put_role_permission_owner_only_witness :
  put_role_permission_route logAudit "rp-9" "guest" "tasks:create" true
    (request_of avery ["root"]) acme
  = (refuse 403 "Owner required" None, acme)
  /\ exists actor role,
       req_user (request_of olivia ["west"]) = Some actor
       /\ user_role actor = "owner"
       /\ getRoleByName acme (toLowerCase (trim "guest")) = Some role
       /\ role_name role <> "owner".
Proof.
  split; [vm_compute; reflexivity |].
  apply (put_role_permission_owner_only logAudit "rp-9" "guest" "tasks:create" true
           (request_of olivia ["west"]) acme logAudit_leaves_store).
  right. eexists. vm_compute. reflexivity.
Defined.

Lemma logAudit_accepts (st : Store) (action entity entityId actorId organizationId : string) :
  truthy action = true -> truthy entity = true -> truthy entityId = true ->
  existsb (fun u => String.eqb (user_id u) actorId) (users st) = true ->
  existsb (fun o => String.eqb (org_id o) organizationId) (organizations st) = true ->
  logAudit (mkAuditEvent action entity entityId (Some actorId) (Some organizationId)) st
  = (ok tt, st).
Proof.
  intros Ha He Hi Hactor Horg. unfold logAudit.
  cbn [ev_action ev_entity ev_entityId ev_actorId ev_organizationId].
  rewrite Ha, He, Hi. simpl. unfold run. now rewrite Hactor, Horg.
Qed.

Lemma setRolePermission_global_frame st st' id role permission enabled r :
  setRolePermission id None role permission enabled st = (r, st') ->
  users st' = users st /\ organizations st' = organizations st.
Proof.
  unfold setRolePermission, withTransaction, bind, select, run, resolve. simpl.
  destruct (first_row (filter (matches_tuple None role permission) (role_permissions st)))
    as [row |]; simpl.
  - intros H. injection H as _ <-. now split.
  - unfold insert_role_permission. simpl.
    destruct (existsb (fun x => String.eqb (rp_id x) id) (role_permissions st)); simpl;
      intros H; injection H as _ <-; now split.
Qed.

(** X30. The round trip of [PUT /roles/:name/permissions/:permission] with the
    audit logger of lib/audit.js: for an owner stored with a stored
    organization, a catalog role other than "owner" and an id that is new
    when the setting is, the route answers with the role's stored name,
    the trimmed permission and the flag, and afterwards
    [hasRolePermission] answers the flag for that role and permission. *)
Theorem put_role_permission_round_trip
    (id name permission : string) (enabled : bool) (req : Request) (st : Store)
    (actor : User) (role : Role) :
  req_user req = Some actor ->
  user_role actor = "owner" ->
  existsb (fun u => String.eqb (user_id u) (user_id actor)) (users st) = true ->
  existsb (fun o => String.eqb (org_id o) (user_organization_id actor))
          (organizations st) = true ->
  getRoleByName st (toLowerCase (trim name)) = Some role ->
  role_name role <> "owner" ->
  tuple_rows st None (role_name role) (trim permission) <> []
  \/ fresh_permission_id st id ->
  exists st',
    put_role_permission_route logAudit id name permission enabled req st
    = (send (role_name role, trim permission, enabled), st')
    /\ hasRolePermission st' None (role_name role) (trim permission) = enabled.
Proof.
  intros Hu Howner Hactor Horg Hrole Htarget Hpre.
  destruct (setRolePermission_step st id None (role_name role) (trim permission) enabled)
    as [st' [rid [Hset [_ Hflag]]]].
  { destruct Hpre as [H | H]; [now left | right; now split]. }
  destruct (setRolePermission_global_frame _ _ _ _ _ _ _ Hset) as [Husers Horgs].
  exists st'. split.
  - unfold put_role_permission_route, guarded, AdminRoutes.access_guard, handle.
    rewrite Hu. unfold ROLES.OWNER. rewrite Howner. simpl.
    unfold put_role_permission, handle, bind, select. rewrite Hu.
    unfold ROLES.OWNER. rewrite Howner. simpl. rewrite Hrole.
    apply String.eqb_neq in Htarget. rewrite Htarget. rewrite Hset.
    unfold ok. cbv beta iota.
    rewrite (logAudit_accepts st'); try reflexivity.
    + now destruct (role_name role).
    + now rewrite Husers.
    + now rewrite Horgs.
  - rewrite hasRolePermission_global.
    destruct (first_row (tuple_rows st' None (role_name role) (trim permission)))
      as [row |]; [| discriminate].
    simpl in Hflag. injection Hflag as ->. now destruct enabled.
Qed.

(** The owner Olivia enables "tasks:create" for the custom role "guest"
    of the sample store. *)
Lemma put_role_permission_round_trip_witness :
  exists st',
    put_role_permission_route logAudit "rp-9" " Guest " " tasks:create" true
      (request_of olivia ["west"]) acme
    = (send ("guest", "tasks:create", true), st')
    /\ hasRolePermission st' None "guest" "tasks:create" = true.
Proof.
  apply (put_role_permission_round_trip "rp-9" " Guest " " tasks:create" true
           (request_of olivia ["west"]) acme olivia
           (mkRole "r-guest" "guest" None 0)).
  - reflexivity.
  - reflexivity.
  - reflexivity.
  - reflexivity.
  - vm_compute. reflexivity.
  - discriminate.
  - right. reflexivity.
Defined.

(* ================================================================== *)
(** ** System roles *)
(* ================================================================== *)

Lemma set_roles_same (st : Store) : set_roles st (roles st) = st.
Proof. now destruct st. Qed.

Lemma insert_or_ignore_role_named (r : Role) (st : Store) :
  (exists x, In x (roles st) /\ role_name x = role_name r) ->
  insert_or_ignore_role r st = ok st.
Proof.
  intros [x [Hx Hname]]. unfold insert_or_ignore_role.
  assert (H : existsb (fun x => String.eqb (role_id x) (role_id r)
                                || String.eqb (role_name x) (role_name r)) (roles st) = true).
  { apply existsb_exists. exists x. split; [assumption |].
    rewrite Hname, String.eqb_refl. apply orb_true_r. }
  now rewrite H.
Qed.

Lemma insert_or_ignore_role_step (r : Role) (st : Store) :
  (forall x, In x (roles st) -> role_id x <> role_id r) ->
  exists added,
    insert_or_ignore_role r st = ok (set_roles st (roles st ++ added))
    /\ (added = [] \/ added = [r])
    /\ exists x, In x (roles st ++ added) /\ role_name x = role_name r.
Proof.
  intros Hfresh. unfold insert_or_ignore_role.
  destruct (existsb (fun x => String.eqb (role_id x) (role_id r)
                              || String.eqb (role_name x) (role_name r)) (roles st)) eqn:E.
  - exists []. rewrite app_nil_r, set_roles_same. split; [reflexivity |].
    split; [now left |].
    apply existsb_exists in E. destruct E as [x [Hx Hor]]. exists x. split; [assumption |].
    apply orb_prop in Hor. destruct Hor as [Hid | Hname].
    + apply String.eqb_eq in Hid. now contradiction (Hfresh x Hx).
    + now apply String.eqb_eq in Hname.
  - exists [r]. split; [reflexivity |]. split; [now right |].
    exists r. split; [| reflexivity]. apply in_or_app. right. now left.
Qed.

(** X12. [ensureSystemRoles] with new ids completes the catalog and is
    idempotent: it keeps every stored role, appends only system rows named
    "owner", "admin" or "viewer", leaves each of the three names in the
    catalog, and a second run, with any ids, changes nothing. *)
Theorem ensureSystemRoles_idempotent (st : Store) (id1 id2 id3 : string) :
  (forall r, In r (roles st) -> ~ In (role_id r) [id1; id2; id3]) ->
  NoDup [id1; id2; id3] ->
  exists added,
    ensureSystemRoles id1 id2 id3 st = (ok tt, set_roles st (roles st ++ added))
    /\ (forall r, In r added ->
          role_is_system r = 1%Z
          /\ In (role_name r) [ROLES.OWNER; ROLES.ADMIN; ROLES.VIEWER])
    /\ (forall name, In name [ROLES.OWNER; ROLES.ADMIN; ROLES.VIEWER] ->
          exists r, In r (roles st ++ added) /\ role_name r = name)
    /\ forall id1' id2' id3',
         ensureSystemRoles id1' id2' id3' (set_roles st (roles st ++ added))
         = (ok tt, set_roles st (roles st ++ added)).
Proof.
  intros Hfresh Hdistinct.
  assert (H12 : id1 <> id2 /\ id1 <> id3 /\ id2 <> id3).
  { inversion Hdistinct as [| ? ? Hn1 Hd1]; subst.
    inversion Hd1 as [| ? ? Hn2 _]; subst. simpl in Hn1, Hn2.
    repeat split; intros Heq; subst; tauto. }
  destruct H12 as [H12 [H13 H23]].
  set (r1 := mkRole id1 ROLES.OWNER (Some "Full control of the organization") 1).
  set (r2 := mkRole id2 ROLES.ADMIN (Some "Manage users and settings") 1).
  set (r3 := mkRole id3 ROLES.VIEWER (Some "Read-only access") 1).
  destruct (insert_or_ignore_role_step r1 st) as [a1 [E1 [Ha1 [x1 [Hx1 Hn1]]]]].
  { intros x Hx Heq. apply (Hfresh x Hx). simpl in Heq. rewrite Heq. now left. }
  set (st1 := set_roles st (roles st ++ a1)) in *.
  destruct (insert_or_ignore_role_step r2 st1) as [a2 [E2 [Ha2 [x2 [Hx2 Hn2]]]]].
  { intros x Hx Heq. simpl in Hx, Heq. apply in_app_or in Hx. destruct Hx as [Hx | Hx].
    - apply (Hfresh x Hx). rewrite Heq. right. now left.
    - destruct Ha1 as [-> | ->]; [contradiction |].
      destruct Hx as [<- | []]. simpl in Heq. contradiction. }
  set (st2 := set_roles st1 (roles st1 ++ a2)) in *.
  destruct (insert_or_ignore_role_step r3 st2) as [a3 [E3 [Ha3 [x3 [Hx3 Hn3]]]]].
  { intros x Hx Heq. simpl in Hx, Heq.
    apply in_app_or in Hx. destruct Hx as [Hx | Hx];
      [apply in_app_or in Hx; destruct Hx as [Hx | Hx] |].
    - apply (Hfresh x Hx). rewrite Heq. right. right. now left.
    - destruct Ha1 as [-> | ->]; [contradiction |].
      destruct Hx as [<- | []]. simpl in Heq. contradiction.
    - destruct Ha2 as [-> | ->]; [contradiction |].
      destruct Hx as [<- | []]. simpl in Heq. contradiction. }
  exists (a1 ++ a2 ++ a3).
  assert (Hst : set_roles st2 (roles st2 ++ a3) = set_roles st (roles st ++ a1 ++ a2 ++ a3)).
  { unfold st2, st1, set_roles. simpl. now rewrite <- !app_assoc. }
  simpl in Hx1, Hx2, Hx3.
  assert (Hnames : forall name, In name [ROLES.OWNER; ROLES.ADMIN; ROLES.VIEWER] ->
            exists r, In r (roles st ++ a1 ++ a2 ++ a3) /\ role_name r = name).
  { intros name [<- | [<- | [<- | []]]].
    - exists x1. split; [| exact Hn1]. rewrite !app_assoc.
      apply in_or_app. left. apply in_or_app. now left.
    - exists x2. split; [| exact Hn2]. rewrite !app_assoc.
      apply in_or_app. now left.
    - exists x3. split; [| exact Hn3]. now rewrite !app_assoc. }
  split; [| split; [| split]].
  - unfold ensureSystemRoles, bind, run. fold r1 r2 r3.
    rewrite E1. cbn beta iota delta [ok]. rewrite E2. cbn beta iota delta [ok].
    rewrite E3. cbn beta iota delta [ok]. now rewrite Hst.
  - intros r Hr. apply in_app_or in Hr. destruct Hr as [Hr | Hr];
      [| apply in_app_or in Hr; destruct Hr as [Hr | Hr]].
    + destruct Ha1 as [-> | ->]; [contradiction |]. destruct Hr as [<- | []].
      simpl. tauto.
    + destruct Ha2 as [-> | ->]; [contradiction |]. destruct Hr as [<- | []].
      simpl. tauto.
    + destruct Ha3 as [-> | ->]; [contradiction |]. destruct Hr as [<- | []].
      simpl. tauto.
  - exact Hnames.
  - intros id1' id2' id3'.
    assert (Hnoop : forall r,
              In (role_name r) [ROLES.OWNER; ROLES.ADMIN; ROLES.VIEWER] ->
              insert_or_ignore_role r (set_roles st (roles st ++ a1 ++ a2 ++ a3))
              = ok (set_roles st (roles st ++ a1 ++ a2 ++ a3))).
    { intros r Hr. apply insert_or_ignore_role_named. exact (Hnames _ Hr). }
    unfold ensureSystemRoles, bind, run.
    rewrite Hnoop by (simpl; tauto). cbn beta iota delta [ok].
    rewrite Hnoop by (simpl; tauto). cbn beta iota delta [ok].
    rewrite Hnoop by (simpl; tauto). reflexivity.
Qed.

(** On the sample store, whose catalog holds the three system roles,
    [ensureSystemRoles] appends nothing; on a store without roles it
    appends the three. *)
Lemma ensureSystemRoles_idempotent_witness :
  ensureSystemRoles "s-1" "s-2" "s-3" acme = (ok tt, acme)
  /\ exists added,
       ensureSystemRoles "s-1" "s-2" "s-3" (set_roles acme [])
       = (ok tt, set_roles (set_roles acme []) (roles (set_roles acme []) ++ added))
       /\ (forall r, In r added ->
             role_is_system r = 1%Z
             /\ In (role_name r) [ROLES.OWNER; ROLES.ADMIN; ROLES.VIEWER])
       /\ (forall name, In name [ROLES.OWNER; ROLES.ADMIN; ROLES.VIEWER] ->
             exists r, In r (roles (set_roles acme []) ++ added) /\ role_name r = name)
       /\ forall id1' id2' id3',
            ensureSystemRoles id1' id2' id3'
              (set_roles (set_roles acme []) (roles (set_roles acme []) ++ added))
            = (ok tt, set_roles (set_roles acme []) (roles (set_roles acme []) ++ added)).
Proof.
  split; [vm_compute; reflexivity |].
  apply (ensureSystemRoles_idempotent (set_roles acme []) "s-1" "s-2" "s-3").
  - intros r [].
  - repeat constructor; simpl; intuition discriminate.
Defined.

(** The editor Eddie holds no static entitlement in the sample store and
    the only global row for "tasks:view" of his role is disabled: the task
    router's guard does not let him list tasks. The guest role holds an
    enabled row, and passes. *)
Lemma task_guard_allows_iff_witness :
  fst (TaskRoutes.guard "tasks:view" (request_of eddie ["root"]) acme) <> next
  /\ (fst (TaskRoutes.guard "tasks:view"
             (request_of (mkUser "u-guest" "root" "guest@acme.test" "Gus Guest" "guest" 1)
                ["root"]) acme) = next).
Proof.
  split.
  - intros H.
    apply (task_guard_allows_iff acme (request_of eddie ["root"]) eddie "tasks:view"
             eq_refl ltac:(discriminate)) in H.
    destruct H as [b [Hs Hor]]. vm_compute in Hs. injection Hs as <-.
    vm_compute in Hor. discriminate.
  - apply (task_guard_allows_iff acme
             (request_of (mkUser "u-guest" "root" "guest@acme.test" "Gus Guest" "guest" 1)
                ["root"])
             (mkUser "u-guest" "root" "guest@acme.test" "Gus Guest" "guest" 1)
             "tasks:view" eq_refl ltac:(discriminate)).
    exists false. split; reflexivity.
Defined.

(** The viewer passes the static guard of "categories:view" and not that
    of "categories:create", in the sample store as in any other. *)
Lemma permission_guard_static_witness :
  fst (AuthLib.createPermissionGuard "categories:view" (request_of vera ["east"]) acme)
  = next
  /\ roleAllows "viewer" "categories:view" = ok true.
Proof.
  split; [| reflexivity].
  apply (permission_guard_static acme (request_of vera ["east"]) vera "categories:view"
           eq_refl).
  reflexivity.
Defined.

(** Seeding an empty catalog and trying to delete "admin". *)
Lemma deleteRole_seeded_system_roles_witness :
  deleteRole "admin" (snd (ensureSystemRoles "s-1" "s-2" "s-3" (set_roles acme [])))
  = (throw cannot_delete_system_role,
     snd (ensureSystemRoles "s-1" "s-2" "s-3" (set_roles acme []))).
Proof.
  apply (deleteRole_seeded_system_roles (set_roles acme []) _ "s-1" "s-2" "s-3" "admin").
  - reflexivity.
  - discriminate.
  - discriminate.
  - discriminate.
  - vm_compute. reflexivity.
  - simpl. tauto.
Defined.
